(** * The node server of the Azure Disk CSI driver (pkg/azuredisk/nodeserver.go)

    A shallow embedding of the node-side volume lifecycle handlers
    (NodeStageVolume, NodeUnstageVolume, NodePublishVolume, NodeExpandVolume,
    NodeGetInfo) and of their helpers (ensureMountPoint, getDevicePathWithLUN,
    ensureBlockTargetFile, collectMountOptions).

    The handlers talk to the operating system and to the cloud provider
    through injected collaborators.  Every such call is an element of the
    signature [Call]; the host that answers the calls is an arbitrary state
    machine [handle] over a world type [W].  A handler is a function from a
    state to a result, a new state and the trace of the calls it made, each
    with the answer it got. *)

From Stdlib Require Import ZArith String List Lia Bool.
From stdpp Require Import base strings gmap.
Import ListNotations.

Local Open Scope string_scope.
Local Open Scope list_scope.
Local Open Scope Z_scope.

(** ** Errors

    [status.Error]/[status.Errorf] build a gRPC status from a code and a
    message; [fmt.Errorf] builds a plain error.  Messages are kept as the
    format string with its arguments instead of being rendered. *)

Inductive Code : Set :=
| InvalidArgument
| NotFound
| Aborted
| Internal.

Inductive error : Type :=
| StatusError (c : Code) (m : text)      (* status.Error(c, m) *)
| PlainError (m : text)                  (* fmt.Errorf(...) *)
| HostError (description : string)       (* an error made by a collaborator *)
with text : Type :=
| Literal (s : string)
| Sprintf (format : string) (args : list arg)
| ErrorOf (e : error)                    (* err.Error() *)
with arg : Type :=
| ArgString (s : string)
| ArgInt (n : Z)
| ArgError (e : error).

Definition status_Error (c : Code) (msg : string) : error :=
  StatusError c (Literal msg).

Definition status_Errorf (c : Code) (format : string) (args : list arg) : error :=
  StatusError c (Sprintf format args).

Definition fmt_Errorf (format : string) (args : list arg) : error :=
  PlainError (Sprintf format args).

Definition code_of (e : error) : option Code :=
  match e with
  | StatusError c _ => Some c
  | _ => None
  end.

(** wait.ErrWaitTimeout of k8s.io/apimachinery. *)
Definition ErrWaitTimeout : error := HostError "timed out waiting for the condition".

(** A Go [(value, error)] pair with a nil value on error. *)
Inductive result (A : Type) : Type :=
| Ok (a : A)
| Err (e : error).
Arguments Ok {A} a.
Arguments Err {A} e.

(** ** Requests and responses (github.com/container-storage-interface/spec) *)

Record MountVolume : Type := {
  FsType : string;
  MountFlags : list string
}.

Record BlockVolume : Type := { }.

(** The [access_type] oneof of a capability: the wrapper may be absent, and a
    present wrapper may hold a nil message. *)
Inductive isVolumeCapability_AccessType : Type :=
| AccessType_nil
| VolumeCapability_Block (b : option BlockVolume)
| VolumeCapability_Mount (m : option MountVolume).

Record VolumeCapability : Type := {
  AccessType : isVolumeCapability_AccessType;
  AccessMode : Z
}.

Definition GetMount (c : VolumeCapability) : option MountVolume :=
  match AccessType c with
  | VolumeCapability_Mount m => m
  | _ => None
  end.

Definition GetBlock (c : VolumeCapability) : option BlockVolume :=
  match AccessType c with
  | VolumeCapability_Block b => b
  | _ => None
  end.

Module NodeStageVolumeRequest.
Record t : Type := {
  VolumeId : string;
  PublishContext : gmap string string;
  StagingTargetPath : string;
  VolumeCapability : option VolumeCapability;
  VolumeContext : gmap string string
}.
End NodeStageVolumeRequest.

Module NodeUnstageVolumeRequest.
Record t : Type := {
  VolumeId : string;
  StagingTargetPath : string
}.
End NodeUnstageVolumeRequest.

Module NodePublishVolumeRequest.
Record t : Type := {
  VolumeId : string;
  PublishContext : gmap string string;
  StagingTargetPath : string;
  TargetPath : string;
  VolumeCapability : option VolumeCapability;
  Readonly : bool;
  VolumeContext : gmap string string
}.
End NodePublishVolumeRequest.

Module NodeUnpublishVolumeRequest.
Record t : Type := {
  VolumeId : string;
  TargetPath : string
}.
End NodeUnpublishVolumeRequest.

Record CapacityRange : Type := {
  RequiredBytes : Z;
  LimitBytes : Z
}.

Module NodeExpandVolumeRequest.
Record t : Type := {
  VolumeId : string;
  VolumePath : string;
  CapacityRange : option CapacityRange;
  VolumeCapability : option VolumeCapability
}.
End NodeExpandVolumeRequest.

Definition GetRequiredBytes (r : option CapacityRange) : Z :=
  match r with
  | Some r => RequiredBytes r
  | None => 0
  end.

Record NodeStageVolumeResponse : Type := { }.
Record NodeUnstageVolumeResponse : Type := { }.
Record NodePublishVolumeResponse : Type := { }.
Record NodeUnpublishVolumeResponse : Type := { }.

Record NodeExpandVolumeResponse : Type := {
  CapacityBytes : Z
}.

Record Topology : Type := {
  Segments : gmap string string
}.

Record NodeGetInfoResponse : Type := {
  NodeId : string;
  MaxVolumesPerNode : Z;
  AccessibleTopology : Topology
}.

(** ** Values exchanged with the collaborators *)

Record MountPoint : Type := {
  Path : string
}.

(** cloudprovider.Zone *)
Record Zone : Type := {
  FailureDomain : string;
  Region : string
}.

(** azure.InstanceMetadata, as far as NodeGetInfo reads it. *)
Record ComputeMetadata : Type := {
  ComputeName : string;
  VMSize : string;
  VMScaleSetName : string
}.

Record InstanceMetadata : Type := {
  Compute : option ComputeMetadata
}.

(** What optimization.GetDiskPerfAttributes returns beside its error. *)
Record PerfAttributes : Type := {
  profile : string;
  accountType : string;
  diskSizeGibStr : string;
  diskIopsStr : string;
  diskBwMbpsStr : string;
  deviceSettings : gmap string string
}.

(** ** The driver *)

Record Cloud : Type := {
  ResourceGroup : string;
  Location : string;
  UseInstanceMetadata : bool;
  Metadata_present : bool               (* d.cloud.Metadata != nil *)
}.

Record Driver : Type := {
  Name : string;
  NodeID : string;
  VolumeAttachLimit : Z;
  ReservedDataDiskSlotNum : Z;
  supportZone : bool;
  getNodeInfoFromLabels : bool;
  getNodeIDFromIMDS : bool;
  perfOptimizationEnabled : bool;
  enableDiskOnlineResize : bool;
  enableWindowsHostProcess : bool;
  cloud : Cloud
}.

(** ** Helpers of the repository that live outside this file

    The pure helpers and constants of other packages (azureconstants,
    azureutils, optimization) and of the Go library are parameters of the
    development: a [Lib] gives them. *)

Record Lib : Type := {
  GOOS : string;                                        (* runtime.GOOS *)
  consts_LUN : string;
  consts_VolumeAttributePartition : string;
  consts_ResizeRequired : string;
  consts_TrueValue : string;
  consts_WellKnownTopologyKey : string;
  topologyKey : string;
  maxDataDiskCountMap : gmap string Z;
  azureutils_GetMaxShares : gmap string string -> Z * option error;
  azureutils_IsValidVolumeCapabilities : list VolumeCapability -> Z -> option error;
  azureutils_GetFStype : gmap string string -> string;
  azureutils_GetDiskLUN : string -> Z * option error;
  azureutils_IsValidAvailabilityZone : string -> string -> bool;
  optimization_GetDiskPerfAttributes : gmap string string -> PerfAttributes * option error;
  DiskSupportsPerfOptimization : string -> string -> bool;
  getVMSSInstanceName : string -> string * option error;
  os_IsNotExist : error -> bool;
  filepath_Dir : string -> string;
  strings_EqualFold : string -> string -> bool;
  strings_ToUpper : string -> string
}.

Definition GiB : Z := 1024 * 1024 * 1024.

(** Modelled from the spec: volumehelper.RoundUpGiB (pkg/util) is not part
    of this file.  "Compute requested capacity rounded up to whole gibibyte
    units (ceiling division; never rounds down)": the quotient by one GiB,
    plus one when a remainder is left. *)
Definition RoundUpGiB (volumeSizeBytes : Z) : Z :=
  let roundedUp := volumeSizeBytes / GiB in
  if 0 <? volumeSizeBytes mod GiB then roundedUp + 1 else roundedUp.

(** Modelled from the spec: the volume lock table (d.volumeLocks) is not part
    of this file.  "Non-blocking try-acquire keyed by Volume ID; a second
    concurrent acquire for the same ID fails immediately (no blocking, no
    queueing)"; release removes the ID. *)
Module VolumeLocks.
Definition TryAcquire (volumeID : string) (locks : gset string) : bool * gset string :=
  if decide (volumeID ∈ locks) then (false, locks)
  else (true, {[volumeID]} ∪ locks).

Definition Release (volumeID : string) (locks : gset string) : gset string :=
  locks ∖ {[volumeID]}.
End VolumeLocks.

Definition defaultLinuxFsType : string := "ext4".
Definition defaultWindowsFsType : string := "ntfs".
Definition defaultAzureVolumeLimit : Z := 16.
Definition volumeOperationAlreadyExistsFmt : string :=
  "An operation with the given Volume ID %s already exists".

Definition time_Second : Z := 1000000000.
Definition time_Minute : Z := 60 * time_Second.

(** ** Calls to the collaborators

    [Call A] is a call whose answer has type [A]: the mounter, the host
    utilities, the I/O handler, the package helpers that reach the operating
    system through them, the clock, and the cloud provider.  The context
    argument of the Go calls and the node information handed to
    OptimizeDiskPerformance are left out; the performance attributes travel
    as one record. *)

Inductive Call : Type -> Type :=
| mounter_IsLikelyNotMountPoint (target : string) : Call (bool * option error)
| azureutils_IsCorruptedDir (target : string) : Call bool
| mounter_List : Call (list MountPoint * option error)
| filepath_Abs (path : string) : Call (string * option error)
| os_ReadDir (name : string) : Call (option error)
| mounter_Unmount (target : string) : Call (option error)
| volumehelper_MakeDir (target : string) : Call (option error)
| volumehelper_MakeFile (target : string) : Call (option error)
| os_Remove (name : string) : Call (option error)
| formatAndMount (source target fstype : string) (options : list string) : Call (option error)
| needResizeVolume (source target : string) : Call (bool * option error)
| resizeVolume (devicePath target : string) : Call (option error)
| mounter_Mount (source target fstype : string) (options : list string) : Call (option error)
| CleanupMountPoint (path : string) (extensiveMountPointCheck : bool) : Call (option error)
| preparePublishPath (target : string) : Call (option error)
| scsiHostRescan : Call unit
| findDiskByLun (lun : Z) : Call (string * option error)
| time_Sleep (d : Z) : Call unit
| OptimizeDiskPerformance (source : string) (attrs : PerfAttributes) : Call (option error)
| hostUtil_PathIsDevice (path : string) : Call (bool * option error)
| rescanAllVolumes : Call (option error)
| rescanVolume (devicePath : string) : Call (option error)
| getDevicePathWithMountPath (mountPath : string) : Call (string * option error)
| getBlockSizeBytes (devicePath : string) : Call (Z * option error)
| GetNodeInfoFromLabels (nodeName : string) : Call (string * string * option error)
| VMSet_GetZoneByNodeName (nodeName : string) : Call (Zone * option error)
| cloud_GetZone : Call (Zone * option error)
| Metadata_GetMetadata : Call (option InstanceMetadata * option error)
| cloud_Instances : Call bool
| instances_InstanceType (nodeName : string) : Call (string * option error).

(** What a handler leaves in its trace: every call with the answer it got,
    the operations on the lock table, and the metric observed on exit. *)
Inductive Event : Type :=
| Ev_IsLikelyNotMountPoint (target : string) (answer : bool * option error)
| Ev_IsCorruptedDir (target : string) (answer : bool)
| Ev_List (answer : list MountPoint * option error)
| Ev_Abs (path : string) (answer : string * option error)
| Ev_ReadDir (name : string) (answer : option error)
| Ev_Unmount (target : string) (answer : option error)
| Ev_MakeDir (target : string) (answer : option error)
| Ev_MakeFile (target : string) (answer : option error)
| Ev_Remove (name : string) (answer : option error)
| Ev_formatAndMount (source target fstype : string) (options : list string)
    (answer : option error)
| Ev_needResizeVolume (source target : string) (answer : bool * option error)
| Ev_resizeVolume (devicePath target : string) (answer : option error)
| Ev_Mount (source target fstype : string) (options : list string)
    (answer : option error)
| Ev_CleanupMountPoint (path : string) (extensiveMountPointCheck : bool)
    (answer : option error)
| Ev_preparePublishPath (target : string) (answer : option error)
| Ev_scsiHostRescan
| Ev_findDiskByLun (lun : Z) (answer : string * option error)
| Ev_Sleep (d : Z)
| Ev_OptimizeDiskPerformance (source : string) (attrs : PerfAttributes)
    (answer : option error)
| Ev_PathIsDevice (path : string) (answer : bool * option error)
| Ev_rescanAllVolumes (answer : option error)
| Ev_rescanVolume (devicePath : string) (answer : option error)
| Ev_getDevicePathWithMountPath (mountPath : string) (answer : string * option error)
| Ev_getBlockSizeBytes (devicePath : string) (answer : Z * option error)
| Ev_GetNodeInfoFromLabels (nodeName : string) (answer : string * string * option error)
| Ev_GetZoneByNodeName (nodeName : string) (answer : Zone * option error)
| Ev_GetZone (answer : Zone * option error)
| Ev_GetMetadata (answer : option InstanceMetadata * option error)
| Ev_Instances (answer : bool)
| Ev_InstanceType (nodeName : string) (answer : string * option error)
| Ev_TryAcquire (volumeID : string) (acquired : bool)
| Ev_Release (volumeID : string)
| Ev_Observe (operation : string) (succeeded : bool) (volumeID : string).

Definition event_of {A : Type} (c : Call A) : A -> Event :=
  match c in Call T return T -> Event with
  | mounter_IsLikelyNotMountPoint target => Ev_IsLikelyNotMountPoint target
  | azureutils_IsCorruptedDir target => Ev_IsCorruptedDir target
  | mounter_List => Ev_List
  | filepath_Abs path => Ev_Abs path
  | os_ReadDir name => Ev_ReadDir name
  | mounter_Unmount target => Ev_Unmount target
  | volumehelper_MakeDir target => Ev_MakeDir target
  | volumehelper_MakeFile target => Ev_MakeFile target
  | os_Remove name => Ev_Remove name
  | formatAndMount source target fstype options =>
      Ev_formatAndMount source target fstype options
  | needResizeVolume source target => Ev_needResizeVolume source target
  | resizeVolume devicePath target => Ev_resizeVolume devicePath target
  | mounter_Mount source target fstype options => Ev_Mount source target fstype options
  | CleanupMountPoint path extensive => Ev_CleanupMountPoint path extensive
  | preparePublishPath target => Ev_preparePublishPath target
  | scsiHostRescan => fun _ => Ev_scsiHostRescan
  | findDiskByLun lun => Ev_findDiskByLun lun
  | time_Sleep d => fun _ => Ev_Sleep d
  | OptimizeDiskPerformance source attrs => Ev_OptimizeDiskPerformance source attrs
  | hostUtil_PathIsDevice path => Ev_PathIsDevice path
  | rescanAllVolumes => Ev_rescanAllVolumes
  | rescanVolume devicePath => Ev_rescanVolume devicePath
  | getDevicePathWithMountPath mountPath => Ev_getDevicePathWithMountPath mountPath
  | getBlockSizeBytes devicePath => Ev_getBlockSizeBytes devicePath
  | GetNodeInfoFromLabels nodeName => Ev_GetNodeInfoFromLabels nodeName
  | VMSet_GetZoneByNodeName nodeName => Ev_GetZoneByNodeName nodeName
  | cloud_GetZone => Ev_GetZone
  | Metadata_GetMetadata => Ev_GetMetadata
  | cloud_Instances => Ev_Instances
  | instances_InstanceType nodeName => Ev_InstanceType nodeName
  end.

(** ** Function bodies

    A Go function body runs statement after statement until a [return]; a
    statement reads and changes the state, leaves events in the trace, and
    either goes on with a value ([Next]) or leaves the function ([Return]). *)

Inductive flow (R A : Type) : Type :=
| Return (r : R)
| Next (a : A).
Arguments Return {R A} r.
Arguments Next {R A} a.

Section NodeServer.

Context {W : Type}.
Variable handle : forall A : Type, Call A -> W -> A * W.
Variable lib : Lib.

(** The state a handler runs in: the world of the collaborators, the lock
    table of the driver, and the local flag the metric of a handler reads
    when the handler exits. *)
Record State : Type := {
  world : W;
  volumeLocks : gset string;
  isOperationSucceeded : bool
}.

(** A function: from a state to its value, the state it leaves and its trace. *)
Definition M (A : Type) : Type := State -> A * State * list Event.

(** A statement of a body whose function returns an [R]. *)
Definition Fn (R A : Type) : Type := State -> flow R A * State * list Event.

Definition pure {R A : Type} (a : A) : Fn R A :=
  fun s => (Next a, s, []).

Definition return_ {R A : Type} (r : R) : Fn R A :=
  fun s => (Return r, s, []).

Definition bind {R A B : Type} (m : Fn R A) (k : A -> Fn R B) : Fn R B :=
  fun s =>
    match m s with
    | (Return r, s1, t1) => (Return r, s1, t1)
    | (Next a, s1, t1) =>
        match k a s1 with
        | (f, s2, t2) => (f, s2, t1 ++ t2)
        end
    end.

(** The body of a function: falling off the end yields the last value. *)
Definition func {R : Type} (body : Fn R R) : M R :=
  fun s =>
    match body s with
    | (Return r, s1, t) => (r, s1, t)
    | (Next r, s1, t) => (r, s1, t)
    end.

(** A call of a function of this file from a body. *)
Definition call {R A : Type} (m : M A) : Fn R A :=
  fun s =>
    match m s with
    | (a, s1, t) => (Next a, s1, t)
    end.

(** A call of a collaborator: the host answers and moves to a new world. *)
Definition perform {R A : Type} (c : Call A) : Fn R A :=
  fun s =>
    match handle A c (world s) with
    | (a, w) =>
        (Next a,
         {| world := w; volumeLocks := volumeLocks s;
            isOperationSucceeded := isOperationSucceeded s |},
         [event_of c a])
    end.

(** [defer f] followed by the rest of the body: [f] runs when the function
    exits, whichever way the rest leaves it. *)
Definition defer {R A : Type} (deferred : M unit) (rest : Fn R A) : Fn R A :=
  fun s =>
    match rest s with
    | (f, s1, t1) =>
        match deferred s1 with
        | (_, s2, t2) => (f, s2, t1 ++ t2)
        end
    end.

Definition set_isOperationSucceeded {R : Type} (b : bool) : Fn R unit :=
  fun s =>
    (Next tt,
     {| world := world s; volumeLocks := volumeLocks s; isOperationSucceeded := b |},
     []).

(** mc.ObserveOperationWithResult(isOperationSucceeded, consts.VolumeID, id) *)
Definition ObserveOperationWithResult (operation volumeID : string) : M unit :=
  fun s => (tt, s, [Ev_Observe operation (isOperationSucceeded s) volumeID]).

Definition volumeLocks_TryAcquire (volumeID : string) : M bool :=
  fun s =>
    match VolumeLocks.TryAcquire volumeID (volumeLocks s) with
    | (acquired, locks) =>
        (acquired,
         {| world := world s; volumeLocks := locks;
            isOperationSucceeded := isOperationSucceeded s |},
         [Ev_TryAcquire volumeID acquired])
    end.

Definition volumeLocks_Release (volumeID : string) : M unit :=
  fun s =>
    (tt,
     {| world := world s; volumeLocks := VolumeLocks.Release volumeID (volumeLocks s);
        isOperationSucceeded := isOperationSucceeded s |},
     [Ev_Release volumeID]).

Declare Scope fn_scope.
Delimit Scope fn_scope with fn.
Bind Scope fn_scope with Fn.

Notation "'let*' x ':=' m 'in' k" := (bind m (fun x => k))
  (at level 10, x pattern, m at level 100, k at level 200) : fn_scope.
Notation "m ';;' k" := (bind m (fun _ => k))
  (at level 100, k at level 200, right associativity) : fn_scope.

Local Open Scope fn_scope.

Definition is_nil {A : Type} (x : option A) : bool :=
  match x with
  | Some _ => false
  | None => true
  end.

Definition len (s : string) : Z := Z.of_nat (String.length s).

(** ** wait.PollImmediate (k8s.io/apimachinery)

    The condition is checked at once and then after every interval, until it
    reports done or an error, or until the timeout has gone by; time passes
    by [time_Sleep].  [v] is the variable the closure captures. *)
Fixpoint poll {V : Type} (ticks : nat) (interval : Z)
    (condition : V -> M (V * (bool * option error))) (v : V) : M (V * option error) :=
  func (
    let* (v, (done, err)) := call (condition v) in
    match err with
    | Some err => return_ (v, Some err)
    | None =>
        if done : bool then return_ (v, None)
        else
          match ticks with
          | O => return_ (v, Some ErrWaitTimeout)
          | S ticks' =>
              perform (time_Sleep interval) ;;
              call (poll ticks' interval condition v)
          end
    end).

Definition wait_PollImmediate {V : Type} (interval timeout : Z)
    (condition : V -> M (V * (bool * option error))) (v : V) : M (V * option error) :=
  poll (Z.to_nat (timeout / interval)) interval condition v.

(** ** The functions of nodeserver.go *)

Definition getDefaultFsType : string :=
  if String.eqb (GOOS lib) "windows" then defaultWindowsFsType
  else defaultLinuxFsType.

Definition collectMountOptions (fsType : string) (mntFlags : list string) : list string :=
  let options := [] in
  let options := options ++ mntFlags in
  let options :=
    if String.eqb fsType "xfs" then options ++ ["nouuid"] else options in
  options.

Definition GetMaxDataDiskCount (instanceType : string) : Z * bool :=
  let vmsize := strings_ToUpper lib instanceType in
  match maxDataDiskCountMap lib !! vmsize with
  | Some maxDataDiskCount => (maxDataDiskCount, true)
  | None => (defaultAzureVolumeLimit, false)
  end.

Definition ensureMountPoint (target : string) : M (bool * option error) :=
  func (
    let* (notMnt, err) := perform (mounter_IsLikelyNotMountPoint target) in
    let* notMnt :=
      match err with
      | Some e =>
          if negb (os_IsNotExist lib e) then
            let* corrupted := perform (azureutils_IsCorruptedDir target) in
            if corrupted : bool then pure false
            else return_ (negb notMnt, err)
          else pure notMnt
      | None => pure notMnt
      end in
    let* notMnt :=
      if negb (String.eqb (GOOS lib) "windows") then
        let* (mountList, err) := perform mounter_List in
        match err with
        | Some _ => return_ (negb notMnt, err)
        | None =>
            let* (targetAbs, err) := perform (filepath_Abs target) in
            match err with
            | Some _ => return_ (negb notMnt, err)
            | None =>
                if existsb (fun mountPoint => String.eqb (Path mountPoint) targetAbs)
                     mountList
                then pure false
                else pure notMnt
            end
        end
      else pure notMnt in
    if negb notMnt then
      (* testing original mount point, make sure the mount link is valid *)
      let* err := perform (os_ReadDir target) in
      match err with
      | None => return_ (negb notMnt, None)
      | Some _ =>
          (* mount link is invalid, now unmount and remount later *)
          let* err' := perform (mounter_Unmount target) in
          match err' with
          | Some _ => return_ (negb notMnt, err')
          | None =>
              let notMnt := true in
              (* [err] is the error of os.ReadDir: the error of Unmount was
                 local to its [if] statement *)
              return_ (negb notMnt, err)
          end
      end
    else
      (if negb (String.eqb (GOOS lib) "windows") then
         let* err := perform (volumehelper_MakeDir target) in
         match err with
         | Some _ => return_ (negb notMnt, err)
         | None => pure tt
         end
       else pure tt) ;;
      return_ (negb notMnt, None)).

Definition getDevicePathWithLUN (lunStr : string) : M (string * option error) :=
  func (
    let '(lun, err) := azureutils_GetDiskLUN lib lunStr in
    match err with
    | Some _ => return_ ("", err)
    | None =>
        perform scsiHostRescan ;;
        let newDevicePath := "" in
        let* (newDevicePath, err) :=
          call (wait_PollImmediate (1 * time_Second) (2 * time_Minute)
            (fun _ : string => func (
               let* (newDevicePath, err) := perform (findDiskByLun lun) in
               match err with
               | Some err =>
                   return_ (newDevicePath,
                     (false,
                      Some (fmt_Errorf "azureDisk - findDiskByLun(%v) failed with error(%s)"
                              [ArgInt lun; ArgError err])))
               | None =>
                   (* did we find it? *)
                   if negb (String.eqb newDevicePath "")
                   then return_ (newDevicePath, (true, None))
                   else return_ (newDevicePath, (false, None))   (* wait until timeout *)
               end))
            newDevicePath) in
        let err :=
          if is_nil err && String.eqb newDevicePath ""
          then Some (fmt_Errorf "azureDisk - findDiskByLun(%v) failed within timeout"
                       [ArgInt lun])
          else err in
        return_ (newDevicePath, err)
    end).

Definition ensureBlockTargetFile (target : string) : M (option error) :=
  func (
    let parentDir := filepath_Dir lib target in
    let* (_, err) := call (ensureMountPoint parentDir) in
    match err with
    | Some err =>
        return_ (Some (status_Errorf Internal "could not mount target %q: %v"
                         [ArgString parentDir; ArgError err]))
    | None =>
        let* err := perform (volumehelper_MakeFile target) in
        match err with
        | Some err =>
            let* removeErr := perform (os_Remove target) in
            match removeErr with
            | Some removeErr =>
                return_ (Some (status_Errorf Internal "could not remove mount target %q: %v"
                                 [ArgString target; ArgError removeErr]))
            | None =>
                return_ (Some (status_Errorf Internal "could not create file %q: %v"
                                 [ArgString target; ArgError err]))
            end
        | None => return_ None
        end
    end).

(** NodeStageVolume mount disk device to a staging path *)
Definition NodeStageVolume (d : Driver) (req : NodeStageVolumeRequest.t)
    : M (result NodeStageVolumeResponse) :=
  func (
    let diskURI := NodeStageVolumeRequest.VolumeId req in
    if len diskURI =? 0 then
      return_ (Err (status_Error InvalidArgument "Volume ID not provided"))
    else
    let target := NodeStageVolumeRequest.StagingTargetPath req in
    if len target =? 0 then
      return_ (Err (status_Error InvalidArgument "Staging target not provided"))
    else
    match NodeStageVolumeRequest.VolumeCapability req with
    | None => return_ (Err (status_Error InvalidArgument "Volume capability not provided"))
    | Some volumeCapability =>
    let params := NodeStageVolumeRequest.VolumeContext req in
    let '(maxShares, err) := azureutils_GetMaxShares lib params in
    if negb (is_nil err) then
      return_ (Err (status_Error InvalidArgument "MaxShares value not supported"))
    else
    match azureutils_IsValidVolumeCapabilities lib [volumeCapability] maxShares with
    | Some err => return_ (Err (StatusError InvalidArgument (ErrorOf err)))
    | None =>
    set_isOperationSucceeded false ;;
    defer (ObserveOperationWithResult "node_stage_volume" diskURI) (
    let* acquired := call (volumeLocks_TryAcquire diskURI) in
    if negb acquired then
      return_ (Err (status_Errorf Aborted volumeOperationAlreadyExistsFmt
                      [ArgString diskURI]))
    else
    defer (volumeLocks_Release diskURI) (
    match NodeStageVolumeRequest.PublishContext req !! consts_LUN lib with
    | None => return_ (Err (status_Error InvalidArgument "lun not provided"))
    | Some lun =>
    let* (source, err) := call (getDevicePathWithLUN lun) in
    match err with
    | Some err =>
        return_ (Err (status_Errorf Internal "failed to find disk on lun %s. %v"
                        [ArgString lun; ArgError err]))
    | None =>
    (* If perf optimizations are enabled tweak device settings *)
    (if perfOptimizationEnabled d then
       let '(attrs, err) :=
         optimization_GetDiskPerfAttributes lib (NodeStageVolumeRequest.VolumeContext req) in
       match err with
       | Some err =>
           return_ (Err (status_Errorf Internal
                           "failed to get perf attributes for %s. Error: %v"
                           [ArgString source; ArgError err]))
       | None =>
           if DiskSupportsPerfOptimization lib (profile attrs) (accountType attrs) then
             let* err := perform (OptimizeDiskPerformance source attrs) in
             match err with
             | Some err =>
                 return_ (Err (status_Errorf Internal
                                 "failed to optimize device performance for target(%s) error(%s)"
                                 [ArgString source; ArgError err]))
             | None => pure tt
             end
           else pure tt
       end
     else pure tt) ;;
    (* If the access type is block, do nothing for stage *)
    match AccessType volumeCapability with
    | VolumeCapability_Block _ => return_ (Ok Build_NodeStageVolumeResponse)
    | _ =>
    let* (mnt, err) := call (ensureMountPoint target) in
    match err with
    | Some err =>
        return_ (Err (status_Errorf Internal "could not mount target %q: %v"
                        [ArgString target; ArgError err]))
    | None =>
    if mnt : bool then return_ (Ok Build_NodeStageVolumeResponse)
    else
    (* Get fsType and mountOptions that the volume will be formatted and mounted with *)
    let fstype := getDefaultFsType in
    let options := [] in
    let '(fstype, options) :=
      match GetMount volumeCapability with
      | Some mnt =>
          let fstype := if negb (String.eqb (FsType mnt) "") then FsType mnt else fstype in
          (fstype, options ++ collectMountOptions fstype (MountFlags mnt))
      | None => (fstype, options)
      end in
    let volContextFSType :=
      azureutils_GetFStype lib (NodeStageVolumeRequest.VolumeContext req) in
    (* respect "fstype" setting in storage class parameters *)
    let fstype :=
      if negb (String.eqb volContextFSType "") then volContextFSType else fstype in
    (* If partition is specified, should mount it only instead of the entire disk. *)
    let source :=
      match NodeStageVolumeRequest.VolumeContext req
              !! consts_VolumeAttributePartition lib with
      | Some partition => String.append source (String.append "-part" partition)
      | None => source
      end in
    (* FormatAndMount will format only if needed *)
    let* err := perform (formatAndMount source target fstype options) in
    match err with
    | Some err =>
        return_ (Err (status_Errorf Internal
                        "could not format %s(lun: %s), and mount it at %s, failed with %v"
                        [ArgString source; ArgString lun; ArgString target; ArgError err]))
    | None =>
    let needResize :=
      match NodeStageVolumeRequest.VolumeContext req !! consts_ResizeRequired lib with
      | Some required => strings_EqualFold lib required (consts_TrueValue lib)
      | None => false
      end in
    let* needResize :=
      if negb needResize then
        (* Filesystem resize is required after snapshot restore / volume clone *)
        let* (needResize, _) := perform (needResizeVolume source target) in
        pure needResize
      else pure needResize in
    (* if resize is required, resize filesystem *)
    (if needResize : bool then
       let* err := perform (resizeVolume source target) in
       match err with
       | Some err =>
           return_ (Err (status_Errorf Internal
                           "NodeStageVolume: could not resize volume %s (%s):  %v"
                           [ArgString source; ArgString target; ArgError err]))
       | None => pure tt
       end
     else pure tt) ;;
    set_isOperationSucceeded true ;;
    return_ (Ok Build_NodeStageVolumeResponse)
    end end end end end)) end end).

(** NodeUnstageVolume unmount disk device from a staging path *)
Definition NodeUnstageVolume (d : Driver) (req : NodeUnstageVolumeRequest.t)
    : M (result NodeUnstageVolumeResponse) :=
  func (
    let volumeID := NodeUnstageVolumeRequest.VolumeId req in
    if len volumeID =? 0 then
      return_ (Err (status_Error InvalidArgument "Volume ID not provided"))
    else
    let stagingTargetPath := NodeUnstageVolumeRequest.StagingTargetPath req in
    if len stagingTargetPath =? 0 then
      return_ (Err (status_Error InvalidArgument "Staging target not provided"))
    else
    set_isOperationSucceeded false ;;
    defer (ObserveOperationWithResult "node_unstage_volume" volumeID) (
    let* acquired := call (volumeLocks_TryAcquire volumeID) in
    if negb acquired then
      return_ (Err (status_Errorf Aborted volumeOperationAlreadyExistsFmt
                      [ArgString volumeID]))
    else
    defer (volumeLocks_Release volumeID) (
    let* err := perform (CleanupMountPoint stagingTargetPath true) in
    match err with
    | Some err =>
        return_ (Err (status_Errorf Internal "failed to unmount staging target %q: %v"
                        [ArgString stagingTargetPath; ArgError err]))
    | None =>
        set_isOperationSucceeded true ;;
        return_ (Ok Build_NodeUnstageVolumeResponse)
    end))).

(** NodePublishVolume mount the volume from staging to target path *)
Definition NodePublishVolume (d : Driver) (req : NodePublishVolumeRequest.t)
    : M (result NodePublishVolumeResponse) :=
  func (
    let volumeID := NodePublishVolumeRequest.VolumeId req in
    if len volumeID =? 0 then
      return_ (Err (status_Error InvalidArgument "Volume ID missing in the request"))
    else
    match NodePublishVolumeRequest.VolumeCapability req with
    | None =>
        return_ (Err (status_Error InvalidArgument "Volume capability missing in request"))
    | Some volumeCapability =>
    let params := NodePublishVolumeRequest.VolumeContext req in
    let '(maxShares, err) := azureutils_GetMaxShares lib params in
    if negb (is_nil err) then
      return_ (Err (status_Error InvalidArgument "MaxShares value not supported"))
    else
    match azureutils_IsValidVolumeCapabilities lib [volumeCapability] maxShares with
    | Some err => return_ (Err (StatusError InvalidArgument (ErrorOf err)))
    | None =>
    let source := NodePublishVolumeRequest.StagingTargetPath req in
    if len source =? 0 then
      return_ (Err (status_Error InvalidArgument "Staging target not provided"))
    else
    let target := NodePublishVolumeRequest.TargetPath req in
    if len target =? 0 then
      return_ (Err (status_Error InvalidArgument "Target path not provided"))
    else
    let* err := perform (preparePublishPath target) in
    match err with
    | Some err =>
        return_ (Err (StatusError Internal
                        (Sprintf "Target path could not be prepared: %v" [ArgError err])))
    | None =>
    let mountOptions := ["bind"] in
    let mountOptions :=
      if NodePublishVolumeRequest.Readonly req then mountOptions ++ ["ro"]
      else mountOptions in
    let* source :=
      match AccessType volumeCapability with
      | VolumeCapability_Block _ =>
          match NodePublishVolumeRequest.PublishContext req !! consts_LUN lib with
          | None => return_ (Err (status_Error InvalidArgument "lun not provided"))
          | Some lun =>
              let* (source, err) := call (getDevicePathWithLUN lun) in
              match err with
              | Some err =>
                  return_ (Err (status_Errorf Internal
                                  "failed to find device path with lun %s. %v"
                                  [ArgString lun; ArgError err]))
              | None =>
                  let* err := call (ensureBlockTargetFile target) in
                  match err with
                  | Some err => return_ (Err (status_Errorf Internal "%v" [ArgError err]))
                  | None => pure source
                  end
              end
          end
      | VolumeCapability_Mount _ =>
          let* (mnt, err) := call (ensureMountPoint target) in
          match err with
          | Some err =>
              return_ (Err (status_Errorf Internal "could not mount target %q: %v"
                              [ArgString target; ArgError err]))
          | None =>
              if mnt : bool then return_ (Ok Build_NodePublishVolumeResponse)
              else pure source
          end
      | AccessType_nil => pure source
      end in
    let* err := perform (mounter_Mount source target "" mountOptions) in
    match err with
    | Some err =>
        return_ (Err (status_Errorf Internal "could not mount %q at %q: %v"
                        [ArgString source; ArgString target; ArgError err]))
    | None => return_ (Ok Build_NodePublishVolumeResponse)
    end end end end).

(** NodeUnpublishVolume unmount the volume from the target path *)
Definition NodeUnpublishVolume (d : Driver) (req : NodeUnpublishVolumeRequest.t)
    : M (result NodeUnpublishVolumeResponse) :=
  func (
    let targetPath := NodeUnpublishVolumeRequest.TargetPath req in
    let volumeID := NodeUnpublishVolumeRequest.VolumeId req in
    if len volumeID =? 0 then
      return_ (Err (status_Error InvalidArgument "Volume ID missing in the request"))
    else
    if len targetPath =? 0 then
      return_ (Err (status_Error InvalidArgument "Target path missing in request"))
    else
    let extensiveMountPointCheck := true in
    let extensiveMountPointCheck :=
      if String.eqb (GOOS lib) "windows" then
        (* on Windows, this parameter indicates whether to unmount volume *)
        false
      else extensiveMountPointCheck in
    let* err := perform (CleanupMountPoint targetPath extensiveMountPointCheck) in
    match err with
    | Some err =>
        return_ (Err (status_Errorf Internal "failed to unmount target %q: %v"
                        [ArgString targetPath; ArgError err]))
    | None => return_ (Ok Build_NodeUnpublishVolumeResponse)
    end).

(** NodeExpandVolume node expand volume *)
Definition NodeExpandVolume (d : Driver) (req : NodeExpandVolumeRequest.t)
    : M (result NodeExpandVolumeResponse) :=
  func (
    let volumeID := NodeExpandVolumeRequest.VolumeId req in
    if len volumeID =? 0 then
      return_ (Err (status_Error InvalidArgument "Volume ID not provided"))
    else
    let capacityBytes := GetRequiredBytes (NodeExpandVolumeRequest.CapacityRange req) in
    let volSizeBytes := capacityBytes in
    let requestGiB := RoundUpGiB volSizeBytes in
    let volumePath := NodeExpandVolumeRequest.VolumePath req in
    if len volumePath =? 0 then
      return_ (Err (status_Error InvalidArgument "volume path must be provided"))
    else
    let* (isBlock, err) := perform (hostUtil_PathIsDevice volumePath) in
    match err with
    | Some err =>
        return_ (Err (status_Errorf NotFound
                        "failed to determine device path for volumePath [%v]: %v"
                        [ArgString volumePath; ArgError err]))
    | None =>
    let isBlock :=
      if negb isBlock then
        match NodeExpandVolumeRequest.VolumeCapability req with
        | Some volumeCapability => negb (is_nil (GetBlock volumeCapability))
        | None => isBlock
        end
      else isBlock in
    if isBlock then
      (if enableDiskOnlineResize d then
         let* _ := perform rescanAllVolumes in pure tt
       else pure tt) ;;
      return_ (Ok {| CapacityBytes := 0 |})
    else
    set_isOperationSucceeded false ;;
    defer (ObserveOperationWithResult "node_expand_volume" volumeID) (
    let* acquired := call (volumeLocks_TryAcquire volumeID) in
    if negb acquired then
      return_ (Err (status_Errorf Aborted volumeOperationAlreadyExistsFmt
                      [ArgString volumeID]))
    else
    defer (volumeLocks_Release volumeID) (
    let* (devicePath, err) := perform (getDevicePathWithMountPath volumePath) in
    match err with
    | Some err => return_ (Err (status_Errorf NotFound "%v" [ArgError err]))
    | None =>
    (if enableDiskOnlineResize d then
       let* _ := perform (rescanVolume devicePath) in pure tt
     else pure tt) ;;
    let* retErr :=
      let* err := perform (resizeVolume devicePath volumePath) in
      match err with
      | Some err =>
          pure (Some (status_Errorf Internal "could not resize volume %q (%q):  %v"
                        [ArgString volumeID; ArgString devicePath; ArgError err]))
      | None => pure None
      end in
    let devicePath :=
      if String.eqb (GOOS lib) "windows" && enableWindowsHostProcess d
      then volumePath   (* in windows host process mode *)
      else devicePath in
    let* (gotBlockSizeBytes, err) := perform (getBlockSizeBytes devicePath) in
    match err with
    | Some err =>
        return_ (Err (StatusError Internal
                        (Sprintf "could not get size of block volume at path %s: %v"
                           [ArgString devicePath; ArgError err])))
    | None =>
    let gotBlockGiB := RoundUpGiB gotBlockSizeBytes in
    if gotBlockGiB <? requestGiB then
      match retErr with
      | Some retErr => return_ (Err retErr)
      | None =>
          (* Because size was rounded up, getting more size than requested
             will be a success. *)
          return_ (Err (status_Errorf Internal
                          "resize requested for %v, but after resizing volume size was %v"
                          [ArgInt requestGiB; ArgInt gotBlockGiB]))
      end
    else
    set_isOperationSucceeded true ;;
    return_ (Ok {| CapacityBytes := gotBlockSizeBytes |})
    end end)) end).

(** NodeGetInfo return info of the node on which this plugin is running *)
Definition NodeGetInfo (d : Driver) : M (result NodeGetInfoResponse) :=
  func (
    let segments : gmap string string := {[ topologyKey lib := "" ]} in
    let failureDomainFromLabels := "" in
    let instanceTypeFromLabels := "" in
    let* (segments, instanceTypeFromLabels) :=
      if supportZone d then
        let zone := {| FailureDomain := ""; Region := "" |} in
        let* (zone, failureDomainFromLabels, instanceTypeFromLabels, err) :=
          if getNodeInfoFromLabels d then
            let* (failureDomainFromLabels, instanceTypeFromLabels, err) :=
              perform (GetNodeInfoFromLabels (NodeID d)) in
            pure (zone, failureDomainFromLabels, instanceTypeFromLabels, err)
          else
            let* (zone, err) :=
              if String.eqb (GOOS lib) "windows"
                 && (negb (UseInstanceMetadata (cloud d)) || negb (Metadata_present (cloud d)))
              then perform (VMSet_GetZoneByNodeName (NodeID d))
              else perform cloud_GetZone in
            match err with
            | Some _ =>
                (* fall back to get zone from node labels *)
                let* (failureDomainFromLabels, instanceTypeFromLabels, err) :=
                  perform (GetNodeInfoFromLabels (NodeID d)) in
                pure (zone, failureDomainFromLabels, instanceTypeFromLabels, err)
            | None => pure (zone, failureDomainFromLabels, instanceTypeFromLabels, err)
            end in
        match err with
        | Some err =>
            return_ (Err (StatusError Internal
                            (Sprintf "GetNodeInfoFromLabels on node(%s) failed with %v"
                               [ArgString (NodeID d); ArgError err])))
        | None =>
            let zone :=
              if String.eqb (FailureDomain zone) "" then
                {| FailureDomain := failureDomainFromLabels; Region := Region zone |}
              else zone in
            if azureutils_IsValidAvailabilityZone lib (FailureDomain zone) (Location (cloud d))
            then
              let segments := <[ topologyKey lib := FailureDomain zone ]> segments in
              let segments :=
                <[ consts_WellKnownTopologyKey lib := FailureDomain zone ]> segments in
              pure (segments, instanceTypeFromLabels)
            else pure (segments, instanceTypeFromLabels)
        end
      else pure (segments, instanceTypeFromLabels) in
    let maxDataDiskCount := VolumeAttachLimit d in
    let* maxDataDiskCount :=
      if maxDataDiskCount <? 0 then
        let instanceType := "" in
        let* (instanceType, instanceTypeFromLabels) :=
          if getNodeInfoFromLabels d then
            if String.eqb instanceTypeFromLabels "" then
              let* (_, instanceTypeFromLabels, _) :=
                perform (GetNodeInfoFromLabels (NodeID d)) in
              pure (instanceType, instanceTypeFromLabels)
            else pure (instanceType, instanceTypeFromLabels)
          else
            let* instanceType :=
              if String.eqb (GOOS lib) "windows"
                 && UseInstanceMetadata (cloud d) && Metadata_present (cloud d)
              then
                let* (metadata, err) := perform Metadata_GetMetadata in
                match err, metadata with
                | None, Some metadata =>
                    match Compute metadata with
                    | Some compute => pure (VMSize compute)
                    | None => pure instanceType
                    end
                | _, _ => pure instanceType
                end
              else
                let* ok := perform cloud_Instances in
                if negb ok then pure instanceType
                else
                  let* (instanceType, _) := perform (instances_InstanceType (NodeID d)) in
                  pure instanceType in
            if String.eqb instanceType "" && String.eqb instanceTypeFromLabels "" then
              (* fall back to get instance type from node labels *)
              let* (_, instanceTypeFromLabels, _) :=
                perform (GetNodeInfoFromLabels (NodeID d)) in
              pure (instanceType, instanceTypeFromLabels)
            else pure (instanceType, instanceTypeFromLabels) in
        let instanceType :=
          if String.eqb instanceType "" then instanceTypeFromLabels else instanceType in
        let '(totalDiskDataCount, _) := GetMaxDataDiskCount instanceType in
        pure (totalDiskDataCount - ReservedDataDiskSlotNum d)
      else pure maxDataDiskCount in
    let nodeID := NodeID d in
    let* nodeID :=
      if getNodeIDFromIMDS d && UseInstanceMetadata (cloud d) && Metadata_present (cloud d)
      then
        let* (metadata, err) := perform Metadata_GetMetadata in
        match err, metadata with
        | None, Some metadata =>
            match Compute metadata with
            | Some compute =>
                if negb (String.eqb (ComputeName compute) "") then
                  if negb (String.eqb (VMScaleSetName compute) "") then
                    let '(id, err) := getVMSSInstanceName lib (ComputeName compute) in
                    match err with
                    | Some _ =>
                        if String.eqb nodeID "" then pure (ComputeName compute)
                        else pure nodeID
                    | None => pure id
                    end
                  else pure (ComputeName compute)
                else pure nodeID
            | None => pure nodeID
            end
        | _, _ => pure nodeID
        end
      else pure nodeID in
    return_ (Ok {| NodeId := nodeID;
                   MaxVolumesPerNode := maxDataDiskCount;
                   AccessibleTopology := {| Segments := segments |} |})).

End NodeServer.

(** ** A simulated node

    A small host for running the handlers on concrete inputs: a clock, a
    disk whose device node shows up at a given time, a mount table, and
    switches that make single operations fail. *)

Module Sim.

Record World : Type := {
  clock : Z;                  (* nanoseconds slept so far *)
  disk_ready_at : Z;          (* when the device node of the disk shows up *)
  find_fails : bool;          (* findDiskByLun reports an error *)
  mounts : list string;       (* the mounted targets *)
  broken : list string;       (* mounted targets whose directory cannot be read *)
  devices : list string;      (* the paths that are block devices *)
  makefile_fails : bool;
  remove_fails : bool;
  resize_fails : bool;
  size_bytes : Z;             (* what getBlockSizeBytes measures *)
  zone : string               (* the failure domain the zone query answers *)
}.

Definition mem (x : string) (l : list string) : bool :=
  existsb (String.eqb x) l.

Definition without (x : string) (l : list string) : list string :=
  filter (fun y => negb (String.eqb x y)) l.

Definition set_clock (t : Z) (w : World) : World :=
  {| clock := t; disk_ready_at := disk_ready_at w; find_fails := find_fails w;
     mounts := mounts w; broken := broken w; devices := devices w;
     makefile_fails := makefile_fails w; remove_fails := remove_fails w;
     resize_fails := resize_fails w; size_bytes := size_bytes w; zone := zone w |}.

Definition set_mounts (m b : list string) (w : World) : World :=
  {| clock := clock w; disk_ready_at := disk_ready_at w; find_fails := find_fails w;
     mounts := m; broken := b; devices := devices w;
     makefile_fails := makefile_fails w; remove_fails := remove_fails w;
     resize_fails := resize_fails w; size_bytes := size_bytes w; zone := zone w |}.

Definition failure (what : string) (fails : bool) : option error :=
  if fails then Some (HostError what) else None.

Definition handle (A : Type) (c : Call A) : World -> A * World :=
  match c in Call T return World -> T * World with
  | mounter_IsLikelyNotMountPoint target => fun w => ((negb (mem target (mounts w)), None), w)
  | azureutils_IsCorruptedDir _ => fun w => (false, w)
  | mounter_List => fun w => ((map (fun p => {| Path := p |}) (mounts w), None), w)
  | filepath_Abs path => fun w => ((path, None), w)
  | os_ReadDir name =>
      fun w => (failure "transport endpoint is not connected" (mem name (broken w)), w)
  | mounter_Unmount target =>
      fun w => (None, set_mounts (without target (mounts w)) (without target (broken w)) w)
  | volumehelper_MakeDir _ => fun w => (None, w)
  | volumehelper_MakeFile _ => fun w => (failure "no space left on device" (makefile_fails w), w)
  | os_Remove _ => fun w => (failure "read-only file system" (remove_fails w), w)
  | formatAndMount _ target _ _ =>
      fun w => (None, set_mounts (target :: mounts w) (broken w) w)
  | needResizeVolume _ _ => fun w => ((false, None), w)
  | resizeVolume _ _ => fun w => (failure "resize2fs failed" (resize_fails w), w)
  | mounter_Mount _ target _ _ =>
      fun w => (None, set_mounts (target :: mounts w) (broken w) w)
  | CleanupMountPoint path _ =>
      fun w => (None, set_mounts (without path (mounts w)) (without path (broken w)) w)
  | preparePublishPath _ => fun w => (None, w)
  | scsiHostRescan => fun w => (tt, w)
  | findDiskByLun _ =>
      fun w =>
        (if find_fails w then ("", Some (HostError "cannot read /sys/bus/scsi/devices"))
         else if disk_ready_at w <=? clock w then ("/dev/sdc", None)
         else ("", None),
         w)
  | time_Sleep d => fun w => (tt, set_clock (clock w + d) w)
  | OptimizeDiskPerformance _ _ => fun w => (None, w)
  | hostUtil_PathIsDevice path => fun w => ((mem path (devices w), None), w)
  | rescanAllVolumes => fun w => (None, w)
  | rescanVolume _ => fun w => (None, w)
  | getDevicePathWithMountPath _ => fun w => (("/dev/sdc", None), w)
  | getBlockSizeBytes _ => fun w => ((size_bytes w, None), w)
  | GetNodeInfoFromLabels _ => fun w => (("", "", None), w)
  | VMSet_GetZoneByNodeName _ =>
      fun w => (({| FailureDomain := zone w; Region := "" |}, None), w)
  | cloud_GetZone => fun w => (({| FailureDomain := zone w; Region := "" |}, None), w)
  | Metadata_GetMetadata => fun w => ((None, None), w)
  | cloud_Instances => fun w => (false, w)
  | instances_InstanceType _ => fun w => (("", None), w)
  end.

(** A node with nothing mounted, whose disk is there from the start. *)
Definition quiet : World :=
  {| clock := 0; disk_ready_at := 0; find_fails := false;
     mounts := []; broken := []; devices := [];
     makefile_fails := false; remove_fails := false; resize_fails := false;
     size_bytes := 0; zone := "" |}.


(** The resize tool succeeds and the filesystem has the given size. *)
Definition resized_to (bytes : Z) : World :=
  {| clock := 0; disk_ready_at := 0; find_fails := false;
     mounts := ["/staging/vol-1"]; broken := []; devices := [];
     makefile_fails := false; remove_fails := false; resize_fails := false;
     size_bytes := bytes; zone := "" |}.

(** The staging path of vol-1 is a block device. *)
Definition block_volume : World :=
  {| clock := 0; disk_ready_at := 0; find_fails := false;
     mounts := []; broken := []; devices := ["/staging/vol-1"];
     makefile_fails := false; remove_fails := false; resize_fails := false;
     size_bytes := 0; zone := "" |}.

(** The device node of the disk shows up after five seconds. *)
Definition late_disk : World :=
  {| clock := 0; disk_ready_at := 5 * time_Second; find_fails := false;
     mounts := []; broken := []; devices := [];
     makefile_fails := false; remove_fails := false; resize_fails := false;
     size_bytes := 0; zone := "" |}.

(** The SCSI bus cannot be read. *)
Definition unreadable_bus : World :=
  {| clock := 0; disk_ready_at := 0; find_fails := true;
     mounts := []; broken := []; devices := [];
     makefile_fails := false; remove_fails := false; resize_fails := false;
     size_bytes := 0; zone := "" |}.

(** No file can be created, but files can be removed. *)
Definition full_disk : World :=
  {| clock := 0; disk_ready_at := 0; find_fails := false;
     mounts := []; broken := []; devices := [];
     makefile_fails := true; remove_fails := false; resize_fails := false;
     size_bytes := 0; zone := "" |}.

(** No file can be created and none can be removed. *)
Definition full_readonly_disk : World :=
  {| clock := 0; disk_ready_at := 0; find_fails := false;
     mounts := []; broken := []; devices := [];
     makefile_fails := true; remove_fails := true; resize_fails := false;
     size_bytes := 0; zone := "" |}.

(** The staging path of vol-1 is mounted, but its directory cannot be read. *)
Definition stale_mount : World :=
  {| clock := 0; disk_ready_at := 0; find_fails := false;
     mounts := ["/staging/vol-1"]; broken := ["/staging/vol-1"]; devices := [];
     makefile_fails := false; remove_fails := false; resize_fails := false;
     size_bytes := 0; zone := "" |}.

(** The zone query answers the given failure domain. *)
Definition in_zone (failureDomain : string) : World :=
  {| clock := 0; disk_ready_at := 0; find_fails := false;
     mounts := []; broken := []; devices := [];
     makefile_fails := false; remove_fails := false; resize_fails := false;
     size_bytes := 0; zone := failureDomain |}.

Definition parse_lun (s : string) : Z * option error :=
  if String.eqb s "0" then (0, None)
  else if String.eqb s "1" then (1, None)
  else if String.eqb s "2" then (2, None)
  else if String.eqb s "3" then (3, None)
  else (-1, Some (HostError "cannot parse lun")).

Definition context_fstype (attributes : gmap string string) : string :=
  match attributes !! "fstype" with
  | Some v => v
  | None => ""
  end.

Definition no_perf : PerfAttributes :=
  {| profile := "none"; accountType := ""; diskSizeGibStr := ""; diskIopsStr := "";
     diskBwMbpsStr := ""; deviceSettings := ∅ |}.

(** The constants as azureconstants has them; helpers that accept what a
    well-formed request carries. *)
Definition lib : Lib :=
  {| GOOS := "linux";
     consts_LUN := "LUN";
     consts_VolumeAttributePartition := "partition";
     consts_ResizeRequired := "resizeRequired";
     consts_TrueValue := "true";
     consts_WellKnownTopologyKey := "topology.kubernetes.io/zone";
     topologyKey := "topology.disk.csi.azure.com/zone";
     maxDataDiskCountMap := ∅;
     azureutils_GetMaxShares := fun _ => (1, None);
     azureutils_IsValidVolumeCapabilities := fun _ _ => None;
     azureutils_GetFStype := context_fstype;
     azureutils_GetDiskLUN := parse_lun;
     azureutils_IsValidAvailabilityZone :=
       fun zone region => String.prefix (String.append region "-") zone;
     optimization_GetDiskPerfAttributes := fun _ => (no_perf, None);
     DiskSupportsPerfOptimization := fun _ _ => false;
     getVMSSInstanceName := fun name => (name, None);
     os_IsNotExist := fun _ => false;
     filepath_Dir := fun _ => "/var/lib/kubelet/pods/p1/volumeDevices";
     strings_EqualFold := String.eqb;
     strings_ToUpper := fun s => s |}.

Definition driver : Driver :=
  {| Name := "disk.csi.azure.com"; NodeID := "node-1";
     VolumeAttachLimit := -1; ReservedDataDiskSlotNum := 0;
     supportZone := true; getNodeInfoFromLabels := false; getNodeIDFromIMDS := false;
     perfOptimizationEnabled := false; enableDiskOnlineResize := true;
     enableWindowsHostProcess := false;
     cloud := {| ResourceGroup := "rg"; Location := "eastus";
                 UseInstanceMetadata := true; Metadata_present := true |} |}.

Definition start (w : World) (locks : gset string) : State :=
  {| world := w; volumeLocks := locks; isOperationSucceeded := false |}.

Definition mount_capability (fstype : string) (flags : list string) : VolumeCapability :=
  {| AccessType := VolumeCapability_Mount (Some {| FsType := fstype; MountFlags := flags |});
     AccessMode := 1 |}.

Definition block_capability : VolumeCapability :=
  {| AccessType := VolumeCapability_Block (Some Build_BlockVolume); AccessMode := 1 |}.

Definition stage_request (capability : VolumeCapability)
    (publishContext volumeContext : gmap string string) : NodeStageVolumeRequest.t :=
  {| NodeStageVolumeRequest.VolumeId := "vol-1";
     NodeStageVolumeRequest.PublishContext := publishContext;
     NodeStageVolumeRequest.StagingTargetPath := "/staging/vol-1";
     NodeStageVolumeRequest.VolumeCapability := Some capability;
     NodeStageVolumeRequest.VolumeContext := volumeContext |}.

Definition publish_block_request : NodePublishVolumeRequest.t :=
  {| NodePublishVolumeRequest.VolumeId := "vol-1";
     NodePublishVolumeRequest.PublishContext := {[ "LUN" := "3" ]};
     NodePublishVolumeRequest.StagingTargetPath := "/staging/vol-1";
     NodePublishVolumeRequest.TargetPath := "/var/lib/kubelet/pods/p1/volumeDevices/vol-1";
     NodePublishVolumeRequest.VolumeCapability := Some block_capability;
     NodePublishVolumeRequest.Readonly := false;
     NodePublishVolumeRequest.VolumeContext := ∅ |}.

Definition expand_request (requiredBytes : Z) : NodeExpandVolumeRequest.t :=
  {| NodeExpandVolumeRequest.VolumeId := "vol-1";
     NodeExpandVolumeRequest.VolumePath := "/staging/vol-1";
     NodeExpandVolumeRequest.CapacityRange :=
       Some {| RequiredBytes := requiredBytes; LimitBytes := 0 |};
     NodeExpandVolumeRequest.VolumeCapability := None |}.

Definition publish_mount_request (readonly : bool) : NodePublishVolumeRequest.t :=
  {| NodePublishVolumeRequest.VolumeId := "vol-1";
     NodePublishVolumeRequest.PublishContext := ∅;
     NodePublishVolumeRequest.StagingTargetPath := "/staging/vol-1";
     NodePublishVolumeRequest.TargetPath := "/var/lib/kubelet/pods/p1/volumes/vol-1";
     NodePublishVolumeRequest.VolumeCapability := Some (mount_capability "ext4" []);
     NodePublishVolumeRequest.Readonly := readonly;
     NodePublishVolumeRequest.VolumeContext := ∅ |}.

Definition unpublish_request : NodeUnpublishVolumeRequest.t :=
  {| NodeUnpublishVolumeRequest.VolumeId := "vol-1";
     NodeUnpublishVolumeRequest.TargetPath := "/var/lib/kubelet/pods/p1/volumes/vol-1" |}.

(** The target of the pod is mounted already. *)
Definition published : World :=
  {| clock := 0; disk_ready_at := 0; find_fails := false;
     mounts := ["/var/lib/kubelet/pods/p1/volumes/vol-1"]; broken := []; devices := [];
     makefile_fails := false; remove_fails := false; resize_fails := false;
     size_bytes := 0; zone := "" |}.

End Sim.

(** ** Vocabulary of the statements *)

(** A computation stays within [P] when it leaves the lock table as it found
    it and every event of its trace satisfies [P]. *)
Definition within {W X : Type} (P : Event -> Prop)
    (m : @State W -> X * @State W * list Event) : Prop :=
  forall s x s' t, m s = (x, s', t) ->
    volumeLocks s' = volumeLocks s /\ Forall P t.

(** The events of mount-point reconciliation. *)
Definition is_reconciliation_event (e : Event) : bool :=
  match e with
  | Ev_IsLikelyNotMountPoint _ _ | Ev_IsCorruptedDir _ _ | Ev_List _ | Ev_Abs _ _
  | Ev_ReadDir _ _ | Ev_Unmount _ _ | Ev_MakeDir _ _ => true
  | _ => false
  end.

(** The events of mount-point reconciliation, format, mount and resize. *)
Definition is_filesystem_event (e : Event) : bool :=
  is_reconciliation_event e
  || match e with
     | Ev_formatAndMount _ _ _ _ _ | Ev_Mount _ _ _ _ _
     | Ev_needResizeVolume _ _ _ | Ev_resizeVolume _ _ _ => true
     | _ => false
     end.

(** The events that reach a collaborator, as opposed to the bookkeeping of
    the driver itself (lock table, metrics). *)
Definition is_host_call (e : Event) : bool :=
  match e with
  | Ev_TryAcquire _ _ | Ev_Release _ | Ev_Observe _ _ _ => false
  | _ => true
  end.

(** The events of device discovery. *)
Definition is_discovery_event (e : Event) : bool :=
  match e with
  | Ev_scsiHostRescan | Ev_findDiskByLun _ _ | Ev_Sleep _ => true
  | _ => false
  end.

(** The time a trace spends sleeping. *)
Fixpoint elapsed (t : list Event) : Z :=
  match t with
  | [] => 0
  | Ev_Sleep d :: t' => d + elapsed t'
  | _ :: t' => elapsed t'
  end.

(** [k] polls that found no device, each followed by the wait of one second. *)
Fixpoint misses (lun : Z) (k : nat) : list Event :=
  match k with
  | O => []
  | S k' => Ev_findDiskByLun lun ("", None) :: Ev_Sleep (1 * time_Second) :: misses lun k'
  end.

(** The filesystem type Stage takes from the capability (or the platform
    default), and the one it formats with once the volume context has had
    its say. *)
Definition capability_fstype (lib : Lib) (volumeCapability : VolumeCapability) : string :=
  match GetMount volumeCapability with
  | Some mnt => if negb (String.eqb (FsType mnt) "") then FsType mnt else getDefaultFsType lib
  | None => getDefaultFsType lib
  end.

Definition effective_fstype (lib : Lib) (volumeCapability : VolumeCapability)
    (volumeContext : gmap string string) : string :=
  if negb (String.eqb (azureutils_GetFStype lib volumeContext) "")
  then azureutils_GetFStype lib volumeContext
  else capability_fstype lib volumeCapability.

(** The failure domain NodeGetInfo resolves, read off the start of its
    trace: the zone of the node labels when they are read first; the zone of
    the zone query, or, when the query failed, the zone of the node labels
    unless the failed query still named one. *)
Definition resolved_zone (t : list Event) : option string :=
  match t with
  | Ev_GetNodeInfoFromLabels _ (failureDomain, _, None) :: _ => Some failureDomain
  | Ev_GetZone (zone, None) :: _
  | Ev_GetZoneByNodeName _ (zone, None) :: _ => Some (FailureDomain zone)
  | Ev_GetZone (zone, Some _) :: Ev_GetNodeInfoFromLabels _ (failureDomain, _, None) :: _
  | Ev_GetZoneByNodeName _ (zone, Some _)
      :: Ev_GetNodeInfoFromLabels _ (failureDomain, _, None) :: _ =>
      Some (if String.eqb (FailureDomain zone) "" then failureDomain
            else FailureDomain zone)
  | _ => None
  end.

(** Whether Expand treats the volume as a block device: the path is a
    device, or the capability of the request says raw block. *)
Definition expand_as_block (req : NodeExpandVolumeRequest.t) (isDevice : bool) : bool :=
  if negb isDevice then
    match NodeExpandVolumeRequest.VolumeCapability req with
    | Some volumeCapability => negb (is_nil (GetBlock volumeCapability))
    | None => isDevice
    end
  else isDevice.

(** A computation is steady when it leaves the lock table and the success
    flag of the handler as it found them. *)
Definition steady {W X : Type} (m : @State W -> X * @State W * list Event) : Prop :=
  forall s x s' t, m s = (x, s', t) ->
    volumeLocks s' = volumeLocks s /\ isOperationSucceeded s' = isOperationSucceeded s.

(** The calls that look at a mount point without changing anything. *)
Definition is_probe (e : Event) : bool :=
  match e with
  | Ev_IsLikelyNotMountPoint _ _ | Ev_IsCorruptedDir _ _ | Ev_List _ | Ev_Abs _ _ => true
  | _ => false
  end.

(** The options of the bind mount of Publish. *)
Definition publish_mount_options (req : NodePublishVolumeRequest.t) : list string :=
  if NodePublishVolumeRequest.Readonly req then ["bind"; "ro"] else ["bind"].

(** * Properties *)

Section Reasoning.

Context {W : Type}.
Variable handle : forall A : Type, Call A -> W -> A * W.
Variable lib : Lib.

Abbreviation State := (@State W).
Abbreviation Fn := (@Fn W).
Abbreviation M := (@M W).

(** ** Traces and the lock table, statement by statement *)

Lemma within_pure {R A : Type} (P : Event -> Prop) (a : A) :
  within P (pure (R := R) a : Fn R A).
Proof. intros s x s' t H. inversion H; subst. split; [reflexivity | constructor]. Qed.

Lemma within_return {R A : Type} (P : Event -> Prop) (r : R) :
  within P (return_ (A := A) r : Fn R A).
Proof. intros s x s' t H. inversion H; subst. split; [reflexivity | constructor]. Qed.

Lemma within_bind {R A B : Type} (P : Event -> Prop) (m : Fn R A) (k : A -> Fn R B) :
  within P m -> (forall a, within P (k a)) -> within P (bind m k).
Proof.
  intros Hm Hk s x s' t H. unfold bind in H.
  destruct (m s) as [[f s1] t1] eqn:Em.
  destruct (Hm _ _ _ _ Em) as [L1 F1].
  destruct f as [r | a].
  - inversion H; subst. auto.
  - destruct (k a s1) as [[f2 s2] t2] eqn:Ek.
    destruct (Hk a _ _ _ _ Ek) as [L2 F2].
    inversion H; subst. split.
    + congruence.
    + apply Forall_app; auto.
Qed.

Lemma within_func {R : Type} (P : Event -> Prop) (body : Fn R R) :
  within P body -> within P (func body).
Proof.
  intros Hb s x s' t H. unfold func in H.
  destruct (body s) as [[f s1] t1] eqn:Eb.
  destruct (Hb _ _ _ _ Eb) as [L1 F1].
  destruct f; inversion H; subst; auto.
Qed.

Lemma within_call {R A : Type} (P : Event -> Prop) (m : M A) :
  within P m -> within P (call (R := R) m : Fn R A).
Proof.
  intros Hm s x s' t H. unfold call in H.
  destruct (m s) as [[a s1] t1] eqn:Em.
  destruct (Hm _ _ _ _ Em) as [L1 F1].
  inversion H; subst; auto.
Qed.

Lemma within_perform {R A : Type} (P : Event -> Prop) (c : Call A) :
  (forall a, P (event_of c a)) -> within P (perform handle (R := R) c : Fn R A).
Proof.
  intros Hc s x s' t H. unfold perform in H.
  destruct (handle A c (world s)) as [a w].
  inversion H; subst; simpl. split; [reflexivity | repeat constructor; apply Hc].
Qed.

Lemma within_flag {R : Type} (P : Event -> Prop) (b : bool) :
  within P (set_isOperationSucceeded (R := R) b : Fn R unit).
Proof. intros s x s' t H. inversion H; subst; simpl. split; [reflexivity | constructor]. Qed.

Lemma within_weaken {X : Type} (P Q : Event -> Prop)
    (m : State -> X * State * list Event) :
  (forall e, P e -> Q e) -> within P m -> within Q m.
Proof.
  intros HPQ Hm s x s' t H. destruct (Hm _ _ _ _ H) as [L F].
  split; [assumption | eapply Forall_impl; eauto].
Qed.

Lemma within_poll {V : Type} (P : Event -> Prop) (ticks : nat) (interval : Z)
    (condition : V -> M (V * (bool * option error))) :
  (forall v, within P (condition v)) -> P (Ev_Sleep interval) ->
  forall v, within P (poll handle ticks interval condition v).
Proof.
  intros Hc Hs. induction ticks as [| n IH]; intros v; simpl;
    apply within_func, within_bind; try (apply within_call, Hc);
    intros [v' [done [e |]]]; try apply within_return;
    destruct done; try apply within_return.
  apply within_bind.
  - apply within_perform. intros []. exact Hs.
  - intros _. apply within_call, IH.
Qed.

End Reasoning.

(** One step of a proof that a body stays within [P]. *)
Ltac within_step :=
  match goal with
  | |- within _ (func _) => apply within_func
  | |- within _ (bind _ _) => apply within_bind; [| intros ?]
  | |- within _ (pure _) => apply within_pure
  | |- within _ (return_ _) => apply within_return
  | |- within _ (set_isOperationSucceeded _) => apply within_flag
  | |- within _ (perform _ _) => apply within_perform; intros ?; simpl; auto
  | |- within _ (call _) => apply within_call
  | |- within _ (match ?x with _ => _ end) => destruct x eqn:?
  end.

Section Helpers.

Context {W : Type}.
Variable handle : forall A : Type, Call A -> W -> A * W.
Variable lib : Lib.

Lemma ensureMountPoint_within (P : Event -> Prop) (target : string) :
  (forall e, is_reconciliation_event e = true -> P e) ->
  within P (ensureMountPoint handle lib target).
Proof.
  intros HP. unfold ensureMountPoint. repeat within_step.
Qed.

Lemma getDevicePathWithLUN_within (P : Event -> Prop) (lunStr : string) :
  (forall e, is_discovery_event e = true -> P e) ->
  within P (getDevicePathWithLUN handle lib lunStr).
Proof.
  intros HP. unfold getDevicePathWithLUN, wait_PollImmediate.
  repeat within_step.
  apply within_poll; [| auto].
  intros v. repeat within_step.
Qed.

Lemma ensureMountPoint_reconciles target :
  within (fun e => is_reconciliation_event e = true) (ensureMountPoint handle lib target).
Proof. apply ensureMountPoint_within. auto. Qed.

Lemma getDevicePathWithLUN_discovers lunStr :
  within (fun e => is_discovery_event e = true) (getDevicePathWithLUN handle lib lunStr).
Proof. apply getDevicePathWithLUN_within. auto. Qed.

Lemma not_among {P : Event -> bool} (e : Event) (l : list Event) :
  Forall (fun x => P x = true) l -> P e = false -> ~ In e l.
Proof.
  intros Hall He Hin. rewrite Forall_forall in Hall.
  assert (P e = true) by (apply Hall; apply list_elem_of_In; exact Hin).
  congruence.
Qed.

Lemma ensureMountPoint_only_reconciles target s r s' l e :
  ensureMountPoint handle lib target s = (r, s', l) ->
  is_reconciliation_event e = false -> ~ In e l.
Proof.
  intros H He. apply (not_among (P := is_reconciliation_event)); [| exact He].
  exact (proj2 (ensureMountPoint_reconciles _ _ _ _ _ H)).
Qed.

Lemma getDevicePathWithLUN_only_discovers lunStr s r s' l e :
  getDevicePathWithLUN handle lib lunStr s = (r, s', l) ->
  is_discovery_event e = false -> ~ In e l.
Proof.
  intros H He. apply (not_among (P := is_discovery_event)); [| exact He].
  exact (proj2 (getDevicePathWithLUN_discovers _ _ _ _ _ H)).
Qed.

End Helpers.

(** Running a body: unfold the statements of a run [H] down to the answers
    of the host. *)
Ltac run_in H :=
  unfold func, bind, call, perform, defer, pure, return_, set_isOperationSucceeded,
    ObserveOperationWithResult, volumeLocks_TryAcquire, volumeLocks_Release in H;
  simpl in H.

Ltac cases_in H :=
  repeat match type of H with
         | context [match ?x with _ => _ end] =>
             lazymatch x with
             | context [match _ with _ => _ end] => fail
             | _ => destruct x eqn:?; simpl in H
             end
         end.

(** The occurrences of an event in a trace that is known event by event. *)
Ltac in_trace H :=
  simpl in H;
  repeat (destruct H as [H | H];
          [first [discriminate H | inversion H; subst; clear H] |]);
  try contradiction H.

(** Boolean comparisons of the code as propositions. *)
Ltac z_cmp :=
  repeat match goal with
         | H : (_ <? _) = true |- _ => apply Z.ltb_lt in H
         | H : (_ <? _) = false |- _ => apply Z.ltb_ge in H
         | H : (_ =? _) = true |- _ => apply Z.eqb_eq in H
         | H : (_ =? _) = false |- _ => apply Z.eqb_neq in H
         end.

(** ** Runs, statement by statement *)

Section Inversion.

Context {W : Type}.
Variable handle : forall A : Type, Call A -> W -> A * W.

Abbreviation State := (@State W).
Abbreviation Fn := (@Fn W).
Abbreviation M := (@M W).

Lemma func_inv {R : Type} (body : Fn R R) s r s' t :
  func body s = (r, s', t) ->
  exists f, body s = (f, s', t) /\ (f = Return r \/ f = Next r).
Proof.
  unfold func. destruct (body s) as [[[r0 | r0] s1] t1]; intros H; inversion H; eauto.
Qed.

Lemma bind_inv {R A B : Type} (m : Fn R A) (k : A -> Fn R B) s f s' t :
  bind m k s = (f, s', t) ->
  (exists r, m s = (Return r, s', t) /\ f = Return r)
  \/ (exists a s1 t1 t2, m s = (Next a, s1, t1) /\ k a s1 = (f, s', t2) /\ t = t1 ++ t2).
Proof.
  unfold bind. destruct (m s) as [[[r0 | a] s1] t1]; intros H.
  - inversion H; subst. left. eauto.
  - destruct (k a s1) as [[f2 s2] t2] eqn:Ek. inversion H; subst.
    right. exists a, s1, t1, t2. auto.
Qed.

Lemma defer_inv {R A : Type} (deferred : M unit) (rest : Fn R A) s f s' t :
  defer deferred rest s = (f, s', t) ->
  exists s1 t1 t2,
    rest s = (f, s1, t1) /\ deferred s1 = (tt, s', t2) /\ t = t1 ++ t2.
Proof.
  unfold defer. destruct (rest s) as [[f1 s1] t1].
  destruct (deferred s1) as [[[] s2] t2] eqn:Ed. intros H; inversion H; subst.
  exists s1, t1, t2. auto.
Qed.

Lemma TryAcquire_inv volumeID (locks : gset string) acquired locks' :
  VolumeLocks.TryAcquire volumeID locks = (acquired, locks') ->
  (acquired = false /\ (volumeID ∈ locks) /\ locks' = locks)
  \/ (acquired = true /\ (volumeID ∉ locks) /\ locks' = {[volumeID]} ∪ locks).
Proof.
  unfold VolumeLocks.TryAcquire. destruct (decide (volumeID ∈ locks));
    intros H; inversion H; subst; auto.
Qed.

Lemma Release_after_acquire volumeID (locks : gset string) :
  volumeID ∉ locks -> VolumeLocks.Release volumeID ({[volumeID]} ∪ locks) = locks.
Proof.
  intros Hout. unfold VolumeLocks.Release. apply set_eq. intros x.
  rewrite elem_of_difference, elem_of_union, elem_of_singleton.
  split; [tauto |]. intros Hx. split; [tauto |]. intros ->. contradiction.
Qed.

(** The statements every locking handler shares: try to take the lock of
    the volume, leave with [busy] when it is held, and otherwise run the
    body with the release deferred. *)
Lemma locked_region {R A : Type} (P : Event -> Prop) volumeID (busy : R)
    (body : Fn R A) s f s' t :
  within P body ->
  bind (call (volumeLocks_TryAcquire volumeID))
       (fun acquired : bool =>
          if negb acquired then return_ busy
          else defer (volumeLocks_Release volumeID) body) s = (f, s', t) ->
  volumeLocks s' = volumeLocks s
  /\ (((volumeID ∈ volumeLocks s) /\ f = Return busy /\ world s' = world s
       /\ isOperationSucceeded s' = isOperationSucceeded s
       /\ t = [Ev_TryAcquire volumeID false])
      \/ ((volumeID ∉ volumeLocks s) /\
          exists tb, Forall P tb /\ t = Ev_TryAcquire volumeID true :: tb ++ [Ev_Release volumeID])).
Proof.
  intros Hbody H.
  apply bind_inv in H. destruct H as [(r & H & _) | (acquired & s1 & t1 & t2 & Hacq & H & ->)];
    [unfold call in H; destruct (volumeLocks_TryAcquire volumeID s) as [[? ?] ?]; discriminate |].
  unfold call, volumeLocks_TryAcquire in Hacq.
  destruct (VolumeLocks.TryAcquire volumeID (volumeLocks s)) as [acq locks'] eqn:Etry.
  inversion Hacq; subst; clear Hacq.
  apply TryAcquire_inv in Etry.
  destruct Etry as [(-> & Hin & ->) | (-> & Hout & ->)]; simpl in H.
  - inversion H; subst; simpl. split; [reflexivity |]. left. auto.
  - apply defer_inv in H. destruct H as (s2 & tb & t3 & Hb & Hrel & ->).
    destruct (Hbody _ _ _ _ Hb) as [Hlocks Htb].
    unfold volumeLocks_Release in Hrel. inversion Hrel; subst; simpl in *.
    rewrite Hlocks. rewrite Release_after_acquire by assumption.
    split; [reflexivity |]. right. split; [assumption |].
    exists tb. auto.
Qed.

Lemma call_inv {R A : Type} (m : M A) s (f : flow R A) s' t :
  call m s = (f, s', t) -> exists a, m s = (a, s', t) /\ f = Next a.
Proof.
  unfold call. destruct (m s) as [[a s1] t1]. intros H; inversion H; subst. eauto.
Qed.

Lemma perform_inv {R A : Type} (c : Call A) s (f : flow R A) s' t :
  perform handle c s = (f, s', t) ->
  exists a w,
    handle A c (world s) = (a, w) /\ f = Next a /\ world s' = w
    /\ volumeLocks s' = volumeLocks s
    /\ isOperationSucceeded s' = isOperationSucceeded s
    /\ t = [event_of c a].
Proof.
  unfold perform. destruct (handle A c (world s)) as [a w] eqn:E.
  intros H; inversion H; subst; simpl. exists a, w. auto 7.
Qed.

(** The frame of a locking handler: the metric is observed on exit, around
    the locked region. *)
Lemma guarded_run {R A : Type} (P : Event -> Prop) operation volumeID (busy : R)
    (body : Fn R A) s f s' t :
  within P body ->
  bind (set_isOperationSucceeded false)
       (fun _ : unit =>
          defer (ObserveOperationWithResult operation volumeID)
            (bind (call (volumeLocks_TryAcquire volumeID))
               (fun acquired : bool =>
                  if negb acquired then return_ busy
                  else defer (volumeLocks_Release volumeID) body))) s = (f, s', t) ->
  volumeLocks s' = volumeLocks s
  /\ (((volumeID ∈ volumeLocks s) /\ f = Return busy /\ world s' = world s
       /\ t = [Ev_TryAcquire volumeID false; Ev_Observe operation false volumeID])
      \/ ((volumeID ∉ volumeLocks s) /\
          exists tb succeeded,
            Forall P tb
            /\ t = Ev_TryAcquire volumeID true
                     :: tb ++ [Ev_Release volumeID;
                               Ev_Observe operation succeeded volumeID])).
Proof.
  intros Hbody H.
  apply bind_inv in H.
  destruct H as [(r0 & H & _) | ([] & s1 & t1 & t2 & Hflag & H & ->)]; [discriminate H |].
  inversion Hflag; subst; clear Hflag.
  apply defer_inv in H. destruct H as (s2 & tr & t3 & Hregion & Hobs & ->).
  inversion Hobs; subst; clear Hobs.
  apply (locked_region P) in Hregion; [| exact Hbody].
  simpl in Hregion.
  destruct Hregion as [Hlocks [(Hin & -> & Hw & Hflag & ->) | (Hout & tb & Htb & ->)]].
  - split; [exact Hlocks |]. left. rewrite Hflag. auto.
  - split; [exact Hlocks |]. right. split; [exact Hout |].
    exists tb, (isOperationSucceeded s'). split; [exact Htb |].
    simpl. rewrite <- app_assoc. reflexivity.
Qed.

(** No lock event hides among the calls to the host. *)
Lemma no_lock_event_among_calls (e : Event) (tb : list Event) :
  Forall (fun e => is_host_call e = true) tb -> is_host_call e = false -> ~ In e tb.
Proof.
  intros Hall He Hin. rewrite Forall_forall in Hall.
  assert (is_host_call e = true) by (apply Hall; apply list_elem_of_In; exact Hin).
  congruence.
Qed.

End Inversion.

(** A case analysis on the statement at the head of a run [H]. *)
Ltac head_case H :=
  lazymatch type of H with
  | ?c _ = _ =>
      lazymatch c with
      | match ?x with _ => _ end => destruct x eqn:?
      | return_ _ => inversion H; subst; clear H
      end
  end.

(** ** Runs, path by path *)

(** The length test of the validations. *)
Lemma len_zero (x : string) : (len x =? 0) = true -> x = "".
Proof.
  intros Hx. apply Z.eqb_eq in Hx. unfold len in Hx.
  destruct x; [reflexivity | simpl in Hx; lia].
Qed.

Lemma len_positive (x : string) : (len x =? 0) = false -> x <> "".
Proof. intros Hx ->. discriminate Hx. Qed.

Section Steps.

Context {W : Type}.
Variable handle : forall A : Type, Call A -> W -> A * W.

(** A call of a collaborator followed by the rest of the body. *)
Lemma bind_perform_inv {R A B : Type} (c : Call A) (k : A -> @Fn W R B) s f s' t :
  bind (perform handle c) k s = (f, s', t) ->
  exists a w t2,
    handle A c (world s) = (a, w)
    /\ k a {| world := w; volumeLocks := volumeLocks s;
              isOperationSucceeded := isOperationSucceeded s |} = (f, s', t2)
    /\ t = event_of c a :: t2.
Proof.
  unfold bind, perform. destruct (handle A c (world s)) as [a w].
  destruct (k a _) as [[f2 s2] t2] eqn:Ek. intros H. inversion H; subst.
  exists a, w, t2. auto.
Qed.

(** A call of a function of this file followed by the rest of the body. *)
Lemma bind_call_inv {R A B : Type} (m : @M W A) (k : A -> @Fn W R B) s f s' t :
  bind (call m) k s = (f, s', t) ->
  exists a s1 t1 t2, m s = (a, s1, t1) /\ k a s1 = (f, s', t2) /\ t = t1 ++ t2.
Proof.
  unfold bind, call. destruct (m s) as [[a s1] t1].
  destruct (k a s1) as [[f2 s2] t2] eqn:Ek. intros H. inversion H; subst.
  exists a, s1, t1, t2. auto.
Qed.

Lemma bind_flag_inv {R B : Type} (b : bool) (k : unit -> @Fn W R B) s f s' t :
  bind (set_isOperationSucceeded b) k s = (f, s', t) ->
  k tt {| world := world s; volumeLocks := volumeLocks s; isOperationSucceeded := b |}
  = (f, s', t).
Proof.
  unfold bind, set_isOperationSucceeded.
  destruct (k tt _) as [[f2 s2] t2]. intros H. inversion H; subst. reflexivity.
Qed.

Lemma TryAcquire_run volumeID (s : @State W) acquired s' t :
  volumeLocks_TryAcquire volumeID s = (acquired, s', t) ->
  t = [Ev_TryAcquire volumeID acquired]
  /\ world s' = world s /\ isOperationSucceeded s' = isOperationSucceeded s
  /\ ((acquired = false /\ (volumeID ∈ volumeLocks s) /\ volumeLocks s' = volumeLocks s)
      \/ (acquired = true /\ (volumeID ∉ volumeLocks s)
          /\ volumeLocks s' = {[volumeID]} ∪ volumeLocks s)).
Proof.
  unfold volumeLocks_TryAcquire.
  destruct (VolumeLocks.TryAcquire volumeID (volumeLocks s)) as [a l] eqn:E.
  apply TryAcquire_inv in E. intros H. inversion H; subst; simpl. tauto.
Qed.

End Steps.

(** Running a body statement by statement: the run [H] of a body is replaced
    by the runs of its statements, one goal for every path through the body. *)
Ltac exec_done H :=
  unfold return_, pure, set_isOperationSucceeded, ObserveOperationWithResult,
    volumeLocks_Release in H;
  first [discriminate H | inversion H; subst; clear H].

Ltac exec H :=
  lazymatch type of H with
  | ?c ?s = _ =>
      lazymatch c with
      | func _ =>
          let f := fresh "f" in
          let Hf := fresh "Hf" in
          apply func_inv in H; destruct H as (f & H & Hf); exec H;
          destruct Hf as [Hf | Hf]; first [discriminate Hf | inversion Hf; subst; clear Hf]
      | bind (perform _ _) _ =>
          let Hc := fresh "Hc" in
          apply bind_perform_inv in H; destruct H as (? & ? & ? & Hc & H & ?); subst;
          cbv beta in H; cbn [event_of world volumeLocks isOperationSucceeded] in *; exec H
      | bind (call (volumeLocks_TryAcquire _)) _ =>
          let Hc := fresh "Hc" in
          apply bind_call_inv in H; destruct H as (? & ? & ? & ? & Hc & H & ?); subst;
          apply TryAcquire_run in Hc;
          destruct Hc as (? & ? & ? & [(? & ? & ?) | (? & ? & ?)]); subst;
          cbv beta in H; cbn [negb world volumeLocks isOperationSucceeded] in *; exec H
      | bind (call _) _ =>
          let Hc := fresh "Hc" in
          apply bind_call_inv in H; destruct H as (? & ? & ? & ? & Hc & H & ?); subst;
          cbv beta in H; exec H
      | bind (set_isOperationSucceeded _) _ =>
          apply bind_flag_inv in H; cbv beta in H; exec H
      | bind _ _ =>
          let Hm := fresh "Hm" in
          apply bind_inv in H;
          destruct H as [(? & Hm & ?) | (? & ? & ? & ? & Hm & H & ?)]; subst;
          [exec Hm | exec Hm; cbv beta in H; exec H]
      | call _ =>
          let Ha := fresh "Ha" in
          apply call_inv in H; destruct H as (? & H & Ha);
          first [discriminate Ha | inversion Ha; subst; clear Ha; exec H]
      | perform _ _ =>
          let Ha := fresh "Ha" in
          let Ht := fresh "Ht" in
          apply perform_inv in H;
          destruct H as (? & ? & H & Ha & ? & ? & ? & Ht);
          cbn [event_of] in Ht;
          first [discriminate Ha | inversion Ha; subst; clear Ha]
      | defer _ _ =>
          let Hd := fresh "Hd" in
          apply defer_inv in H; destruct H as (? & ? & ? & H & Hd & ?); subst;
          exec H; exec_done Hd
      | return_ _ => exec_done H
      | pure _ => exec_done H
      | set_isOperationSucceeded _ => exec_done H
      | match ?x with _ => _ end =>
          let E := fresh "E" in
          destruct x eqn:E; try (simpl in E; discriminate E); cbv beta iota in H; exec H
      | _ => idtac
      end
  | _ => idtac
  end.

(** Boolean tests of the code that a run has decided. *)
Ltac decided :=
  repeat match goal with
         | H : negb _ = true |- _ => apply negb_true_iff in H
         | H : negb _ = false |- _ => apply negb_false_iff in H
         end;
  repeat match goal with
         | H : ?c = _ |- context [if ?c then _ else _] => rewrite H
         end.

(** ** What the called functions leave alone *)

Section Steady.

Context {W : Type}.
Variable handle : forall A : Type, Call A -> W -> A * W.
Variable lib : Lib.

Lemma steady_pure {R A : Type} (a : A) : steady (pure (R := R) a : @Fn W R A).
Proof. intros s x s' t H. inversion H; subst. auto. Qed.

Lemma steady_return {R A : Type} (r : R) : steady (return_ (A := A) r : @Fn W R A).
Proof. intros s x s' t H. inversion H; subst. auto. Qed.

Lemma steady_bind {R A B : Type} (m : @Fn W R A) (k : A -> @Fn W R B) :
  steady m -> (forall a, steady (k a)) -> steady (bind m k).
Proof.
  intros Hm Hk s x s' t H. apply bind_inv in H.
  destruct H as [(r & H & _) | (a & s1 & t1 & t2 & H1 & H2 & _)].
  - exact (Hm _ _ _ _ H).
  - destruct (Hm _ _ _ _ H1) as [L1 F1]. destruct (Hk a _ _ _ _ H2) as [L2 F2].
    split; congruence.
Qed.

Lemma steady_func {R : Type} (body : @Fn W R R) : steady body -> steady (func body).
Proof.
  intros Hb s x s' t H. apply func_inv in H. destruct H as (f & H & _).
  exact (Hb _ _ _ _ H).
Qed.

Lemma steady_call {R A : Type} (m : @M W A) : steady m -> steady (call (R := R) m).
Proof.
  intros Hm s x s' t H. apply call_inv in H. destruct H as (a & H & _).
  exact (Hm _ _ _ _ H).
Qed.

Lemma steady_perform {R A : Type} (c : Call A) : steady (perform handle (R := R) c).
Proof.
  intros s x s' t H. apply perform_inv in H.
  destruct H as (a & w & _ & _ & _ & L & F & _). auto.
Qed.

Lemma steady_poll {V : Type} (ticks : nat) (interval : Z)
    (condition : V -> @M W (V * (bool * option error))) :
  (forall v, steady (condition v)) ->
  forall v, steady (poll handle ticks interval condition v).
Proof.
  intros Hc. induction ticks as [| n IH]; intros v; simpl;
    apply steady_func, steady_bind; try (apply steady_call, Hc);
    intros [v' [done [e |]]]; try apply steady_return;
    destruct done; try apply steady_return.
  apply steady_bind; [apply steady_perform |]. intros _. apply steady_call, IH.
Qed.

End Steady.

(** One step of a proof that a body is steady. *)
Ltac steady_step :=
  match goal with
  | |- steady (func _) => apply steady_func
  | |- steady (bind _ _) => apply steady_bind; [| intros ?]
  | |- steady (pure _) => apply steady_pure
  | |- steady (return_ _) => apply steady_return
  | |- steady (perform _ _) => apply steady_perform
  | |- steady (call _) => apply steady_call
  | |- steady (match ?x with _ => _ end) => destruct x
  end.

Section SteadyFunctions.

Context {W : Type}.
Variable handle : forall A : Type, Call A -> W -> A * W.
Variable lib : Lib.

Lemma ensureMountPoint_steady target : steady (ensureMountPoint handle lib target).
Proof. unfold ensureMountPoint. repeat steady_step. Qed.

Lemma getDevicePathWithLUN_steady lunStr : steady (getDevicePathWithLUN handle lib lunStr).
Proof.
  unfold getDevicePathWithLUN, wait_PollImmediate. repeat steady_step.
  apply steady_poll. intros v. repeat steady_step.
Qed.

Lemma ensureBlockTargetFile_steady target :
  steady (ensureBlockTargetFile handle lib target).
Proof.
  unfold ensureBlockTargetFile. repeat steady_step. apply ensureMountPoint_steady.
Qed.

End SteadyFunctions.

(** The called functions of this file are steady. *)
Ltac steadied :=
  repeat match goal with
         | Hc : getDevicePathWithLUN _ _ _ ?s = (_, ?s1, _) |- _ =>
             lazymatch goal with
             | _ : isOperationSucceeded s1 = isOperationSucceeded s |- _ => fail
             | _ => destruct (getDevicePathWithLUN_steady _ _ _ _ _ _ _ Hc)
             end
         | Hc : ensureMountPoint _ _ _ ?s = (_, ?s1, _) |- _ =>
             lazymatch goal with
             | _ : isOperationSucceeded s1 = isOperationSucceeded s |- _ => fail
             | _ => destruct (ensureMountPoint_steady _ _ _ _ _ _ _ Hc)
             end
         | Hc : ensureBlockTargetFile _ _ _ ?s = (_, ?s1, _) |- _ =>
             lazymatch goal with
             | _ : isOperationSucceeded s1 = isOperationSucceeded s |- _ => fail
             | _ => destruct (ensureBlockTargetFile_steady _ _ _ _ _ _ _ Hc)
             end
         end.

(** The success flag a run ends with. *)
Ltac flagged :=
  repeat match goal with
         | Hs : isOperationSucceeded _ = _ |- _ => rewrite Hs
         end.

(** ** Device discovery *)

Section Discovery.

Context {W : Type}.
Variable handle : forall A : Type, Call A -> W -> A * W.
Variable lib : Lib.

(** The shape of a poll whose condition looks for the disk of [lun]. *)
Lemma poll_shape (lun : Z) (condition : string -> @M W (string * (bool * option error))) :
  (forall v s x s' t, condition v s = (x, s', t) ->
     exists p answer,
       t = [Ev_findDiskByLun lun (p, answer)]
       /\ x = (p, match answer with
                  | Some e =>
                      (false,
                       Some (fmt_Errorf "azureDisk - findDiskByLun(%v) failed with error(%s)"
                               [ArgInt lun; ArgError e]))
                  | None => (negb (String.eqb p ""), None)
                  end)) ->
  forall ticks v s r s' t,
    poll handle ticks (1 * time_Second) condition v s = (r, s', t) ->
    exists (k : nat) (p : string),
      (k <= ticks)%nat
      /\ ((p <> "" /\ r = (p, None)
           /\ t = misses lun k ++ [Ev_findDiskByLun lun (p, None)])
          \/ (exists e,
                r = (p, Some (fmt_Errorf "azureDisk - findDiskByLun(%v) failed with error(%s)"
                                [ArgInt lun; ArgError e]))
                /\ t = misses lun k ++ [Ev_findDiskByLun lun (p, Some e)])
          \/ (k = ticks /\ r = ("", Some ErrWaitTimeout)
              /\ t = misses lun k ++ [Ev_findDiskByLun lun ("", None)])).
Proof.
  intros Hc. induction ticks as [| n IH]; intros v s r s' t H; simpl in H.
  all: apply func_inv in H; destruct H as (f & H & Hf).
  all: apply bind_inv in H.
  all: destruct H as [(r0 & H & _) | (a & s1 & t1 & t2 & Hq & H & ->)];
      [apply call_inv in H; destruct H as (? & _ & ?); discriminate |].
  all: apply call_inv in Hq; destruct Hq as (x & Hq & Hx); inversion Hx; subst a; clear Hx.
  all: destruct (Hc _ _ _ _ _ Hq) as (p & answer & -> & ->); clear Hq.
  all: cbv beta iota in H.
  all: destruct answer as [e |]; [| destruct (String.eqb p "") eqn:Ep]; simpl in H.
  - inversion H; subst. exists O, p. split; [lia |]. right. left. exists e.
    destruct Hf as [Hf | Hf]; inversion Hf; subst. auto.
  - apply String.eqb_eq in Ep. subst p. inversion H; subst.
    exists O, "". split; [lia |]. right. right.
    destruct Hf as [Hf | Hf]; inversion Hf; subst. auto.
  - apply String.eqb_neq in Ep. inversion H; subst.
    exists O, p. split; [lia |]. left.
    destruct Hf as [Hf | Hf]; inversion Hf; subst. auto.
  - inversion H; subst. exists O, p. split; [lia |]. right. left. exists e.
    destruct Hf as [Hf | Hf]; inversion Hf; subst. auto.
  - apply String.eqb_eq in Ep. subst p.
    apply bind_inv in H.
    destruct H as [(r0 & H & _) | ([] & s2 & t3 & t4 & Hs & H & ->)];
      [apply perform_inv in H; destruct H as (? & ? & _ & ? & _); discriminate |].
    apply perform_inv in Hs. destruct Hs as (? & ? & _ & _ & _ & _ & _ & ->).
    apply call_inv in H. destruct H as (y & H & ->).
    destruct Hf as [Hf | Hf]; inversion Hf; subst; clear Hf.
    destruct (IH _ _ _ _ _ H) as (k & p & Hk & Hshape).
    exists (S k), p. split; [lia |]. simpl.
    destruct Hshape as [(Hp & -> & ->) | [(e & -> & ->) | (-> & -> & ->)]]; auto.
    right. left. eauto.
  - apply String.eqb_neq in Ep. inversion H; subst.
    exists O, p. split; [lia |]. left.
    destruct Hf as [Hf | Hf]; inversion Hf; subst. auto.
Qed.

Lemma elapsed_misses lun k e :
  elapsed (misses lun k ++ [Ev_findDiskByLun lun e]) = Z.of_nat k * time_Second.
Proof.
  induction k as [| k IH].
  - reflexivity.
  - change (elapsed (misses lun (S k) ++ [Ev_findDiskByLun lun e]))
      with (1 * time_Second + elapsed (misses lun k ++ [Ev_findDiskByLun lun e])).
    rewrite IH. lia.
Qed.

Lemma getDevicePathWithLUN_shape lunStr s r s' t :
  getDevicePathWithLUN handle lib lunStr s = (r, s', t) ->
  match azureutils_GetDiskLUN lib lunStr with
  | (_, Some e) => r = ("", Some e) /\ t = []
  | (lun, None) =>
      exists (k : nat) (p : string),
        (k <= 120)%nat
        /\ elapsed t = Z.of_nat k * time_Second
        /\ ((p <> "" /\ r = (p, None)
             /\ t = Ev_scsiHostRescan :: misses lun k ++ [Ev_findDiskByLun lun (p, None)])
            \/ (exists e,
                  r = (p, Some (fmt_Errorf
                                  "azureDisk - findDiskByLun(%v) failed with error(%s)"
                                  [ArgInt lun; ArgError e]))
                  /\ t = Ev_scsiHostRescan
                           :: misses lun k ++ [Ev_findDiskByLun lun (p, Some e)])
            \/ (k = 120%nat /\ r = ("", Some ErrWaitTimeout)
                /\ t = Ev_scsiHostRescan
                         :: misses lun k ++ [Ev_findDiskByLun lun ("", None)]))
  end.
Proof.
  intros H. unfold getDevicePathWithLUN in H.
  apply func_inv in H. destruct H as (f & H & Hf).
  destruct (azureutils_GetDiskLUN lib lunStr) as [lun [e |]].
  - inversion H; subst. destruct Hf as [Hf | Hf]; inversion Hf; subst. auto.
  - apply bind_inv in H.
    destruct H as [(r0 & H & _) | ([] & s1 & t1 & t2 & Hs & H & ->)];
      [apply perform_inv in H; destruct H as (? & ? & _ & ? & _); discriminate |].
    apply perform_inv in Hs. destruct Hs as (? & ? & _ & _ & _ & _ & _ & ->).
    apply bind_inv in H.
    destruct H as [(r0 & H & _) | ([p0 err0] & s2 & t3 & t4 & Hp & H & ->)];
      [apply call_inv in H; destruct H as (? & _ & ?); discriminate |].
    apply call_inv in Hp. destruct Hp as (y & Hp & Hy). inversion Hy; subst y; clear Hy.
    unfold wait_PollImmediate in Hp.
    change (Z.to_nat (2 * time_Minute / (1 * time_Second))) with 120%nat in Hp.
    apply (poll_shape lun) in Hp.
    + destruct Hp as (k & p & Hk & Hshape). exists k, p. split; [exact Hk |].
      cbv beta iota in H.
      destruct Hshape as [(Hne & Hr & ->) | [(e & Hr & ->) | (-> & Hr & ->)]];
        inversion Hr; subst; clear Hr.
      * apply String.eqb_neq in Hne. simpl in H. rewrite Hne in H. simpl in H.
        inversion H; subst. destruct Hf as [Hf | Hf]; inversion Hf; subst.
        rewrite app_nil_r. split; [exact (elapsed_misses lun k _) |]. left.
        apply String.eqb_neq in Hne. auto.
      * simpl in H. inversion H; subst. destruct Hf as [Hf | Hf]; inversion Hf; subst.
        rewrite app_nil_r. split; [exact (elapsed_misses lun k _) |]. right. left. eauto.
      * simpl in H. inversion H; subst. destruct Hf as [Hf | Hf]; inversion Hf; subst.
        rewrite app_nil_r. split; [exact (elapsed_misses lun 120 ("", None)) |]. right. right. auto.
    + clear. intros v s x s' t H. run_in H. cases_in H.
      all: inversion H; subst; do 2 eexists; (split; [reflexivity | simpl]);
        repeat match goal with Hb : negb _ = _ |- _ => rewrite Hb end; reflexivity.
Qed.
Lemma In_misses lun k e :
  In e (misses lun k) ->
  e = Ev_findDiskByLun lun ("", None) \/ e = Ev_Sleep (1 * time_Second).
Proof.
  induction k as [| k IH]; simpl; [tauto |].
  intros [H | [H | H]]; auto.
Qed.

(** A resolution that saw a device node returns its path. *)
Lemma getDevicePathWithLUN_found lunStr s r s' t lun p :
  getDevicePathWithLUN handle lib lunStr s = (r, s', t) ->
  In (Ev_findDiskByLun lun (p, None)) t -> p <> "" -> r = (p, None).
Proof.
  intros H Hin Hp. apply getDevicePathWithLUN_shape in H.
  destruct (azureutils_GetDiskLUN lib lunStr) as [lun' [e |]].
  - destruct H as [_ ->]. destruct Hin.
  - destruct H as (k & p' & _ & _ & Hshape).
    assert (Hlast : forall last,
               In (Ev_findDiskByLun lun (p, None))
                  (Ev_scsiHostRescan :: misses lun' k ++ [last]) ->
               last = Ev_findDiskByLun lun (p, None)).
    { intros last [Hx | Hx]; [discriminate Hx |].
      apply in_app_or in Hx. destruct Hx as [Hx | [Hx | []]]; [| auto].
      apply In_misses in Hx. destruct Hx as [Hx | Hx]; [| discriminate Hx].
      inversion Hx; subst. contradiction. }
    destruct Hshape as [(_ & -> & ->) | [(e & -> & ->) | (_ & -> & ->)]];
      apply Hlast in Hin; inversion Hin; subst; try reflexivity; contradiction.
Qed.

(** C6 (as amended). Device resolution from an attachment slot: a slot that
    does not parse fails before any poll.  Otherwise the bus is rescanned
    and the device is polled at once and then every second, at most 120
    times more: the path is returned at the first poll that finds a device
    node; the timeout failure comes only when the poll at the end of the two
    minutes has found none either; and a poll that reports an error ends the
    resolution at once with that error, before the deadline. *)
Theorem device_resolution_polls lunStr s r s' t :
  getDevicePathWithLUN handle lib lunStr s = (r, s', t) ->
  match azureutils_GetDiskLUN lib lunStr with
  | (_, Some e) => r = ("", Some e) /\ t = []
  | (lun, None) =>
      exists (k : nat) (p : string),
        (k <= 120)%nat
        /\ elapsed t = Z.of_nat k * time_Second
        /\ ((p <> "" /\ r = (p, None)
             /\ t = Ev_scsiHostRescan :: misses lun k ++ [Ev_findDiskByLun lun (p, None)])
            \/ (exists e,
                  r = (p, Some (fmt_Errorf
                                  "azureDisk - findDiskByLun(%v) failed with error(%s)"
                                  [ArgInt lun; ArgError e]))
                  /\ t = Ev_scsiHostRescan
                           :: misses lun k ++ [Ev_findDiskByLun lun (p, Some e)])
            \/ (k = 120%nat /\ r = ("", Some ErrWaitTimeout)
                /\ t = Ev_scsiHostRescan
                         :: misses lun k ++ [Ev_findDiskByLun lun ("", None)]))
  end.
Proof. exact (getDevicePathWithLUN_shape lunStr s r s' t). Qed.

End Discovery.

(** ** The volume lock *)

Section Locking.

Context {W : Type}.
Variable handle : forall A : Type, Call A -> W -> A * W.
Variable lib : Lib.

Lemma host_call_of_reconciliation e :
  is_reconciliation_event e = true -> is_host_call e = true.
Proof. destruct e; simpl; congruence. Qed.

Lemma host_call_of_discovery e : is_discovery_event e = true -> is_host_call e = true.
Proof. destruct e; simpl; congruence. Qed.

Lemma ensureMountPoint_calls target :
  within (fun e => is_host_call e = true) (ensureMountPoint handle lib target).
Proof. apply ensureMountPoint_within. exact host_call_of_reconciliation. Qed.

Lemma getDevicePathWithLUN_calls lunStr :
  within (fun e => is_host_call e = true) (getDevicePathWithLUN handle lib lunStr).
Proof. apply getDevicePathWithLUN_within. exact host_call_of_discovery. Qed.

(** What a run of the frame gives for the handler that returns [r]. *)
Lemma guarded_handler {R : Type} operation volumeID (busy r : R)
    (s : @State W) (f : flow R R) (s' : @State W) t :
  (f = Return r \/ f = Next r) ->
  volumeLocks s' = volumeLocks s
  /\ (((volumeID ∈ volumeLocks s) /\ f = Return busy /\ world s' = world s
       /\ t = [Ev_TryAcquire volumeID false; Ev_Observe operation false volumeID])
      \/ ((volumeID ∉ volumeLocks s) /\
          exists tb succeeded,
            Forall (fun e => is_host_call e = true) tb
            /\ t = Ev_TryAcquire volumeID true
                     :: tb ++ [Ev_Release volumeID;
                               Ev_Observe operation succeeded volumeID])) ->
  volumeLocks s' = volumeLocks s
  /\ (In (Ev_TryAcquire volumeID true) t ->
      (volumeID ∉ volumeLocks s) /\ In (Ev_Release volumeID) t)
  /\ (In (Ev_TryAcquire volumeID false) t ->
      (volumeID ∈ volumeLocks s) /\ r = busy /\ world s' = world s
      /\ t = [Ev_TryAcquire volumeID false; Ev_Observe operation false volumeID])
  /\ ((volumeID ∈ volumeLocks s) -> In (Ev_TryAcquire volumeID false) t).
Proof.
  intros Hf [Hlocks [(Hin & -> & Hw & ->) | (Hout & tb & b & Htb & ->)]].
  - destruct Hf as [Hf | Hf]; inversion Hf; subst.
    split; [exact Hlocks |]. split; [intros Hi; in_trace Hi |].
    split; [auto |]. intros _. left. reflexivity.
  - split; [exact Hlocks |]. split; [| split].
    + intros _. split; [exact Hout |]. right. apply in_or_app. right. left. reflexivity.
    + intros [Hi | Hi]; [discriminate Hi |]. apply in_app_or in Hi.
      destruct Hi as [Hi | Hi]; [| in_trace Hi].
      exfalso. revert Hi. apply no_lock_event_among_calls; auto.
    + intros Hin. contradiction.
Qed.

(** A run that made no call beyond the validation of its request. *)
Ltac refused Hf :=
  destruct Hf as [Hf | Hf]; inversion Hf; subst; simpl;
  repeat split; try tauto; try constructor; eexists; split; [reflexivity | auto].

Lemma NodeStageVolume_locking d req s r s' t :
  NodeStageVolume handle lib d req s = (r, s', t) ->
  let volumeID := NodeStageVolumeRequest.VolumeId req in
  volumeLocks s' = volumeLocks s
  /\ (In (Ev_TryAcquire volumeID true) t ->
      (volumeID ∉ volumeLocks s) /\ In (Ev_Release volumeID) t)
  /\ (In (Ev_TryAcquire volumeID false) t ->
      (volumeID ∈ volumeLocks s)
      /\ r = Err (status_Errorf Aborted volumeOperationAlreadyExistsFmt [ArgString volumeID])
      /\ world s' = world s
      /\ t = [Ev_TryAcquire volumeID false; Ev_Observe "node_stage_volume" false volumeID])
  /\ ((volumeID ∈ volumeLocks s) ->
      world s' = world s /\ Forall (fun e => is_host_call e = false) t
      /\ exists e, r = Err e /\ (code_of e = Some InvalidArgument \/ code_of e = Some Aborted)).
Proof.
  intros H volumeID. unfold NodeStageVolume in H.
  apply func_inv in H. destruct H as (f & H & Hf).
  repeat head_case H.
  all: try (refused Hf).
  apply (guarded_run (fun e => is_host_call e = true)) in H.
  2:{ repeat within_step;
        first [apply ensureMountPoint_calls | apply getDevicePathWithLUN_calls]. }
  destruct (guarded_handler _ _ _ _ _ _ _ _ Hf H) as (H1 & H2 & H3 & H4).
  split; [exact H1 |]. split; [exact H2 |]. split; [exact H3 |].
  intros Hin. destruct (H3 (H4 Hin)) as (_ & -> & Hw & ->).
  split; [exact Hw |]. split; [repeat constructor |].
  eexists. split; [reflexivity | auto].
Qed.

Lemma NodeUnstageVolume_locking d req s r s' t :
  NodeUnstageVolume handle d req s = (r, s', t) ->
  let volumeID := NodeUnstageVolumeRequest.VolumeId req in
  volumeLocks s' = volumeLocks s
  /\ (In (Ev_TryAcquire volumeID true) t ->
      (volumeID ∉ volumeLocks s) /\ In (Ev_Release volumeID) t)
  /\ (In (Ev_TryAcquire volumeID false) t ->
      (volumeID ∈ volumeLocks s)
      /\ r = Err (status_Errorf Aborted volumeOperationAlreadyExistsFmt [ArgString volumeID])
      /\ world s' = world s
      /\ t = [Ev_TryAcquire volumeID false; Ev_Observe "node_unstage_volume" false volumeID])
  /\ ((volumeID ∈ volumeLocks s) ->
      world s' = world s /\ Forall (fun e => is_host_call e = false) t
      /\ exists e, r = Err e /\ (code_of e = Some InvalidArgument \/ code_of e = Some Aborted)).
Proof.
  intros H volumeID. unfold NodeUnstageVolume in H.
  apply func_inv in H. destruct H as (f & H & Hf).
  repeat head_case H.
  all: try (refused Hf).
  apply (guarded_run (fun e => is_host_call e = true)) in H.
  2:{ repeat within_step. }
  destruct (guarded_handler _ _ _ _ _ _ _ _ Hf H) as (H1 & H2 & H3 & H4).
  split; [exact H1 |]. split; [exact H2 |]. split; [exact H3 |].
  intros Hin. destruct (H3 (H4 Hin)) as (_ & -> & Hw & ->).
  split; [exact Hw |]. split; [repeat constructor |].
  eexists. split; [reflexivity | auto].
Qed.

Lemma NodeExpandVolume_locking d req s r s' t :
  NodeExpandVolume handle lib d req s = (r, s', t) ->
  let volumeID := NodeExpandVolumeRequest.VolumeId req in
  let volumePath := NodeExpandVolumeRequest.VolumePath req in
  volumeLocks s' = volumeLocks s
  /\ (In (Ev_TryAcquire volumeID true) t ->
      (volumeID ∉ volumeLocks s) /\ In (Ev_Release volumeID) t)
  /\ (In (Ev_TryAcquire volumeID false) t ->
      (volumeID ∈ volumeLocks s)
      /\ r = Err (status_Errorf Aborted volumeOperationAlreadyExistsFmt [ArgString volumeID])
      /\ t = [Ev_PathIsDevice volumePath (false, None);
             Ev_TryAcquire volumeID false;
             Ev_Observe "node_expand_volume" false volumeID]).
Proof.
  intros H volumeID volumePath. unfold NodeExpandVolume in H.
  apply func_inv in H. destruct H as (f & H & Hf).
  repeat head_case H.
  all: try (destruct Hf as [Hf | Hf]; inversion Hf; subst; simpl; tauto).
  apply bind_inv in H.
  destruct H as [(r0 & H & _) | (a & s1 & t1 & t2 & Hq & H & ->)];
    [apply perform_inv in H; destruct H as (? & ? & _ & ? & _); discriminate |].
  apply perform_inv in Hq. destruct Hq as (a' & w & Hans & Ha & Hw & Hl & Hflag & ->).
  inversion Ha; subst a'; clear Ha.
  cbv beta in H.
  repeat head_case H.
  - destruct Hf as [Hf | Hf]; inversion Hf; subst; simpl.
    split; [exact Hl |]. split; intros Hi; in_trace Hi.
  - assert (Hwithin : within (fun e => is_host_call e = true)
                   (bind (if enableDiskOnlineResize d
                          then bind (perform handle rescanAllVolumes) (fun _ => pure tt)
                          else pure tt)
                      (fun _ : unit =>
                         return_ (Ok {| CapacityBytes := 0 |}) :
                           Fn (result NodeExpandVolumeResponse)
                              (result NodeExpandVolumeResponse)))).
    { repeat within_step. }
    destruct (Hwithin _ _ _ _ H) as [Hl2 Hcalls].
    assert (Hall : Forall (fun e => is_host_call e = true)
                     ([event_of (hostUtil_PathIsDevice
                         (NodeExpandVolumeRequest.VolumePath req)) (b, None)] ++ t2)).
    { apply Forall_app. split; [repeat constructor | exact Hcalls]. }
    split; [congruence |].
    split; intros Hi; exfalso; revert Hi; apply no_lock_event_among_calls; auto.
  - apply (guarded_run (fun e => is_host_call e = true)) in H.
    2:{ repeat within_step. }
    destruct (guarded_handler _ _ _ _ _ _ _ _ Hf H) as (H1 & H2 & H3 & H4).
    rewrite Hl in *.
    assert (b = false) as -> by (destruct b; simpl in *; congruence).
    simpl. split; [congruence |]. split.
    + intros [Hi | Hi]; [discriminate Hi |]. destruct (H2 Hi) as [Hout Hrel].
      split; [exact Hout |]. right. exact Hrel.
    + intros [Hi | Hi]; [discriminate Hi |].
      destruct (H3 Hi) as (Hin & -> & _ & ->). auto.
Qed.

(** The runs of Stage around its lock. *)
Lemma NodeStageVolume_frame d req s r s' t :
  NodeStageVolume handle lib d req s = (r, s', t) ->
  let volumeID := NodeStageVolumeRequest.VolumeId req in
  let volumeContext := NodeStageVolumeRequest.VolumeContext req in
  (t = [] /\ s' = s
   /\ (exists e, r = Err e /\ code_of e = Some InvalidArgument)
   /\ (volumeID = "" \/ NodeStageVolumeRequest.StagingTargetPath req = ""
       \/ NodeStageVolumeRequest.VolumeCapability req = None
       \/ (exists e, snd (azureutils_GetMaxShares lib volumeContext) = Some e)
       \/ (exists volumeCapability e,
             NodeStageVolumeRequest.VolumeCapability req = Some volumeCapability
             /\ azureutils_IsValidVolumeCapabilities lib [volumeCapability]
                  (fst (azureutils_GetMaxShares lib volumeContext)) = Some e)))
  \/ ((volumeID ∈ volumeLocks s)
      /\ r = Err (status_Errorf Aborted volumeOperationAlreadyExistsFmt [ArgString volumeID])
      /\ world s' = world s
      /\ t = [Ev_TryAcquire volumeID false; Ev_Observe "node_stage_volume" false volumeID])
  \/ ((volumeID ∉ volumeLocks s) /\
      exists tb succeeded,
        Forall (fun e => is_host_call e = true) tb
        /\ t = Ev_TryAcquire volumeID true
                 :: tb ++ [Ev_Release volumeID;
                           Ev_Observe "node_stage_volume" succeeded volumeID]).
Proof.
  intros H volumeID volumeContext. unfold NodeStageVolume in H.
  apply func_inv in H. destruct H as (f & H & Hf).
  repeat head_case H.
  all: try (left; destruct Hf as [Hf | Hf]; inversion Hf; subst;
            split; [reflexivity |]; split; [reflexivity |];
            split; [eexists; split; reflexivity |]).
  all: try solve
    [ left; apply len_zero; assumption
    | right; left; apply len_zero; assumption
    | right; right; left; reflexivity
    | right; right; right; left; subst volumeContext;
      match goal with Hp : azureutils_GetMaxShares _ _ = _ |- _ => rewrite Hp end; simpl;
      match goal with o : option error |- _ => destruct o; [eauto | discriminate] end
    | right; right; right; right; eexists; subst volumeContext;
      match goal with Hp : azureutils_GetMaxShares _ _ = _ |- _ => rewrite Hp end; simpl; eauto ].
  right.
  apply (guarded_run (fun e => is_host_call e = true)) in H.
  2:{ repeat within_step;
        first [apply ensureMountPoint_calls | apply getDevicePathWithLUN_calls]. }
  destruct H as [_ [(Hin & -> & Hw & ->) | (Hout & tb & b & Htb & ->)]].
  - left. destruct Hf as [Hf | Hf]; inversion Hf; subst. auto.
  - right. split; [exact Hout |]. exists tb, b. auto.
Qed.

Ltac valid_expand :=
  split; [apply len_positive; assumption |];
  split; [apply len_positive; assumption |];
  split; [match goal with
          | Hc : handle _ (hostUtil_PathIsDevice _) _ = _ |- _ => rewrite Hc; reflexivity
          end |].

(** The runs of Expand, step by step. *)
Lemma NodeExpandVolume_runs d req s r s' t :
  NodeExpandVolume handle lib d req s = (r, s', t) ->
  let volumeID := NodeExpandVolumeRequest.VolumeId req in
  let volumePath := NodeExpandVolumeRequest.VolumePath req in
  let requestGiB :=
    RoundUpGiB (GetRequiredBytes (NodeExpandVolumeRequest.CapacityRange req)) in
  let answered := fst (handle _ (hostUtil_PathIsDevice volumePath) (world s)) in
  volumeLocks s' = volumeLocks s
  /\ ((t = [] /\ s' = s /\ (volumeID = "" \/ volumePath = "")
       /\ exists e, r = Err e /\ code_of e = Some InvalidArgument)
      \/ (exists isDevice err,
            volumeID <> "" /\ volumePath <> "" /\ answered = (isDevice, Some err)
            /\ t = [Ev_PathIsDevice volumePath (isDevice, Some err)]
            /\ r = Err (status_Errorf NotFound
                          "failed to determine device path for volumePath [%v]: %v"
                          [ArgString volumePath; ArgError err]))
      \/ (exists isDevice,
            volumeID <> "" /\ volumePath <> "" /\ answered = (isDevice, None)
            /\ expand_as_block req isDevice = true
            /\ r = Ok {| CapacityBytes := 0 |}
            /\ ((enableDiskOnlineResize d = true
                 /\ exists answer,
                      t = [Ev_PathIsDevice volumePath (isDevice, None);
                           Ev_rescanAllVolumes answer])
                \/ (enableDiskOnlineResize d = false
                    /\ t = [Ev_PathIsDevice volumePath (isDevice, None)])))
      \/ (volumeID <> "" /\ volumePath <> "" /\ answered = (false, None)
          /\ expand_as_block req false = false
          /\ (volumeID ∈ volumeLocks s)
          /\ r = Err (status_Errorf Aborted volumeOperationAlreadyExistsFmt
                        [ArgString volumeID])
          /\ t = [Ev_PathIsDevice volumePath (false, None);
                  Ev_TryAcquire volumeID false;
                  Ev_Observe "node_expand_volume" false volumeID])
      \/ (volumeID <> "" /\ volumePath <> "" /\ answered = (false, None)
          /\ expand_as_block req false = false
          /\ (volumeID ∉ volumeLocks s)
          /\ exists tb succeeded,
               t = Ev_PathIsDevice volumePath (false, None)
                     :: Ev_TryAcquire volumeID true
                     :: tb ++ [Ev_Release volumeID;
                               Ev_Observe "node_expand_volume" succeeded volumeID]
               /\ ((exists devicePath err,
                      tb = [Ev_getDevicePathWithMountPath volumePath (devicePath, Some err)]
                      /\ succeeded = false
                      /\ r = Err (status_Errorf NotFound "%v" [ArgError err]))
                   \/ (exists devicePath rescan answer gotBlockSizeBytes measureErr,
                         let measuredPath :=
                           if String.eqb (GOOS lib) "windows" && enableWindowsHostProcess d
                           then volumePath else devicePath in
                         tb = Ev_getDevicePathWithMountPath volumePath (devicePath, None)
                                :: rescan
                                ++ [Ev_resizeVolume devicePath volumePath answer;
                                    Ev_getBlockSizeBytes measuredPath
                                      (gotBlockSizeBytes, measureErr)]
                         /\ ((enableDiskOnlineResize d = true
                              /\ exists rescanned, rescan = [Ev_rescanVolume devicePath rescanned])
                             \/ (enableDiskOnlineResize d = false /\ rescan = []))
                         /\ match measureErr with
                            | Some err =>
                                succeeded = false
                                /\ r = Err (StatusError Internal
                                              (Sprintf
                                                 "could not get size of block volume at path %s: %v"
                                                 [ArgString measuredPath; ArgError err]))
                            | None =>
                                if RoundUpGiB gotBlockSizeBytes <? requestGiB then
                                  succeeded = false
                                  /\ r = Err
                                           match answer with
                                           | Some err =>
                                               status_Errorf Internal
                                                 "could not resize volume %q (%q):  %v"
                                                 [ArgString volumeID; ArgString devicePath;
                                                  ArgError err]
                                           | None =>
                                               status_Errorf Internal
                                                 "resize requested for %v, but after resizing volume size was %v"
                                                 [ArgInt requestGiB;
                                                  ArgInt (RoundUpGiB gotBlockSizeBytes)]
                                           end
                                else
                                  succeeded = true
                                  /\ r = Ok {| CapacityBytes := gotBlockSizeBytes |}
                            end)))).
Proof.
  intros H volumeID volumePath requestGiB answered.
  subst volumeID volumePath requestGiB answered.
  unfold NodeExpandVolume in H. cbv beta zeta in H. exec H.
  all: cbn [world volumeLocks isOperationSucceeded] in *.
  all: try match goal with
           | Hb : (if negb ?b then _ else ?b) = false |- _ =>
               destruct b; [discriminate Hb |]
           end.
  all: split;
    [first [ reflexivity
           | match goal with
             | Hl : volumeLocks _ = {[_]} ∪ _ |- _ =>
                 rewrite Hl; apply Release_after_acquire; assumption
             end
           | congruence ] |].
  all: decided.
  all: repeat match goal with
              | Hs : isOperationSucceeded _ = _ |- _ => rewrite Hs
              end.
  all: first
    [ solve [left; split; [reflexivity |]; split; [reflexivity |];
             split; [first [left; apply len_zero; assumption
                           | right; apply len_zero; assumption] |];
             eexists; split; reflexivity]
    | solve [right; left; do 2 eexists; valid_expand; split; reflexivity]
    | solve [right; right; left; eexists; valid_expand;
             split; [unfold expand_as_block; eassumption |];
             split; [reflexivity |];
             first [left; split; [first [assumption | reflexivity] |]; eexists; reflexivity
                   | right; split; [first [assumption | reflexivity] |]; reflexivity]]
    | solve [right; right; right; left; valid_expand;
             split; [unfold expand_as_block; assumption |];
             split; [assumption |]; split; reflexivity]
    | right; right; right; right; valid_expand;
      split; [unfold expand_as_block; assumption |];
      split; [assumption |];
      match goal with
      | |- context [([Ev_TryAcquire _ true] ++ ?tb ++ [Ev_Release _])
                      ++ [Ev_Observe _ ?b _]] =>
          exists tb, b
      end;
      split; [simpl; rewrite <- ?app_assoc; reflexivity |] ].
  all: first
    [ solve [left; do 2 eexists; split; [reflexivity |]; split; reflexivity]
    | right ].
  all: eexists;
    first [ exists (@nil Event); do 3 eexists;
            split; [reflexivity |];
            split; [right; split; reflexivity |]
          | eexists (cons _ nil); do 3 eexists;
            split; [reflexivity |];
            split; [left; split; [reflexivity |]; eexists; reflexivity |] ].
  all: cbv beta iota; decided; split; reflexivity.
Qed.

(** The runs of Unstage. *)
Lemma NodeUnstageVolume_runs d req s r s' t :
  NodeUnstageVolume handle d req s = (r, s', t) ->
  let volumeID := NodeUnstageVolumeRequest.VolumeId req in
  let stagingTargetPath := NodeUnstageVolumeRequest.StagingTargetPath req in
  (t = [] /\ s' = s /\ (volumeID = "" \/ stagingTargetPath = "")
   /\ exists e, r = Err e /\ code_of e = Some InvalidArgument)
  \/ (volumeID <> "" /\ stagingTargetPath <> "" /\ (volumeID ∈ volumeLocks s)
      /\ r = Err (status_Errorf Aborted volumeOperationAlreadyExistsFmt [ArgString volumeID])
      /\ world s' = world s
      /\ t = [Ev_TryAcquire volumeID false; Ev_Observe "node_unstage_volume" false volumeID])
  \/ (volumeID <> "" /\ stagingTargetPath <> "" /\ (volumeID ∉ volumeLocks s)
      /\ exists answer,
           fst (handle _ (CleanupMountPoint stagingTargetPath true) (world s)) = answer
           /\ t = [Ev_TryAcquire volumeID true;
                   Ev_CleanupMountPoint stagingTargetPath true answer;
                   Ev_Release volumeID;
                   Ev_Observe "node_unstage_volume" (is_nil answer) volumeID]
           /\ r = match answer with
                  | Some err =>
                      Err (status_Errorf Internal "failed to unmount staging target %q: %v"
                             [ArgString stagingTargetPath; ArgError err])
                  | None => Ok Build_NodeUnstageVolumeResponse
                  end).
Proof.
  intros H volumeID stagingTargetPath. subst volumeID stagingTargetPath.
  unfold NodeUnstageVolume in H. cbv beta zeta in H. exec H.
  all: cbn [world volumeLocks isOperationSucceeded] in *; flagged.
  all: first
    [ solve [left; split; [reflexivity |]; split; [reflexivity |];
             split; [first [left; apply len_zero; assumption
                           | right; apply len_zero; assumption] |];
             eexists; split; reflexivity]
    | solve [right; left;
             split; [apply len_positive; assumption |];
             split; [apply len_positive; assumption |];
             split; [assumption |]; split; [reflexivity |]; split; [assumption |];
             reflexivity]
    | right; right;
      split; [apply len_positive; assumption |];
      split; [apply len_positive; assumption |];
      split; [assumption |];
      eexists; split; [match goal with
                       | Hw : world ?x = world _,
                         Hc : handle _ (CleanupMountPoint _ _) (world ?x) = _ |- _ =>
                           rewrite Hw in Hc; rewrite Hc; reflexivity
                       end |];
      split; reflexivity ].
Qed.

(** The runs of Expand around its lock. *)
Lemma NodeExpandVolume_frame d req s r s' t :
  NodeExpandVolume handle lib d req s = (r, s', t) ->
  let volumeID := NodeExpandVolumeRequest.VolumeId req in
  let volumePath := NodeExpandVolumeRequest.VolumePath req in
  let answered := fst (handle _ (hostUtil_PathIsDevice volumePath) (world s)) in
  (t = [] /\ s' = s /\ (volumeID = "" \/ volumePath = "")
   /\ exists e, r = Err e /\ code_of e = Some InvalidArgument)
  \/ (exists isDevice err,
        volumeID <> "" /\ volumePath <> "" /\ answered = (isDevice, Some err)
        /\ t = [Ev_PathIsDevice volumePath (isDevice, Some err)]
        /\ r = Err (status_Errorf NotFound
                      "failed to determine device path for volumePath [%v]: %v"
                      [ArgString volumePath; ArgError err]))
  \/ (exists isDevice,
        volumeID <> "" /\ volumePath <> "" /\ answered = (isDevice, None)
        /\ expand_as_block req isDevice = true
        /\ r = Ok {| CapacityBytes := 0 |}
        /\ Forall (fun e => is_host_call e = true) t)
  \/ (volumeID <> "" /\ volumePath <> "" /\ answered = (false, None)
      /\ expand_as_block req false = false
      /\ (volumeID ∈ volumeLocks s)
      /\ r = Err (status_Errorf Aborted volumeOperationAlreadyExistsFmt [ArgString volumeID])
      /\ t = [Ev_PathIsDevice volumePath (false, None);
              Ev_TryAcquire volumeID false;
              Ev_Observe "node_expand_volume" false volumeID])
  \/ (volumeID <> "" /\ volumePath <> "" /\ answered = (false, None)
      /\ expand_as_block req false = false
      /\ (volumeID ∉ volumeLocks s)
      /\ exists tb succeeded,
           Forall (fun e => is_host_call e = true) tb
           /\ t = Ev_PathIsDevice volumePath (false, None)
                    :: Ev_TryAcquire volumeID true
                    :: tb ++ [Ev_Release volumeID;
                              Ev_Observe "node_expand_volume" succeeded volumeID]).
Proof.
  intros H volumeID volumePath answered.
  destruct (NodeExpandVolume_runs _ _ _ _ _ _ H) as [_ Hruns].
  fold volumeID volumePath answered in Hruns.
  destruct Hruns as [Hrefused | [Hnotfound
    | [(b & Hid & Hpath & Hans & Hblock & Hr & Ht)
    | [Hheld | (Hid & Hpath & Hans & Hblock & Hfree & tb & succeeded & Ht & Hbody)]]]].
  - left. exact Hrefused.
  - right. left. exact Hnotfound.
  - right. right. left. exists b. repeat (split; [assumption |]).
    destruct Ht as [(_ & a & ->) | (_ & ->)]; repeat constructor.
  - right. right. right. left. exact Hheld.
  - right. right. right. right. repeat (split; [assumption |]).
    exists tb, succeeded. split; [| exact Ht].
    destruct Hbody as [(dp & e & -> & _) | (dp & rescan & a & g & me & -> & Hrescan & _)].
    + repeat constructor.
    + destruct Hrescan as [(_ & a' & ->) | (_ & ->)]; repeat constructor.
Qed.

(** C1 (as amended). Stage, Unstage and Expand of a filesystem volume take
    the lock of the volume without blocking, after the request has been
    validated.  Every run of each of them has one of a few shapes.  A run
    that refuses the request as invalid leaves no trace.  A run that finds
    the lock held returns the Aborted error "an operation with the given
    Volume ID already exists": Stage and Unstage then have made no call to
    the host at all and leave the world as it was; Expand has made one, the
    PathIsDevice query that comes before its lock, and that query said the
    path is no device.  A run that finds the lock free acquires it, makes
    all its further calls to the host between the acquisition and the
    release, releases it on every path, and then observes its metric.  The
    lock table is left as it was found.  A valid request therefore gets
    Aborted when its lock is held, and acquires and releases the lock when
    it is free.  Expand of a volume that is a block device, or whose
    capability says raw block, takes no lock at all, held or not: it only
    calls the host and returns success. *)
Theorem volume_lock_discipline :
  (forall d req s r s' t,
    NodeStageVolume handle lib d req s = (r, s', t) ->
    let volumeID := NodeStageVolumeRequest.VolumeId req in
    let volumeContext := NodeStageVolumeRequest.VolumeContext req in
    let busy :=
      Err (status_Errorf Aborted volumeOperationAlreadyExistsFmt [ArgString volumeID]) in
    volumeLocks s' = volumeLocks s
    /\ (In (Ev_TryAcquire volumeID true) t ->
        (volumeID ∉ volumeLocks s) /\ In (Ev_Release volumeID) t)
    /\ (In (Ev_TryAcquire volumeID false) t ->
        (volumeID ∈ volumeLocks s)
        /\ r = busy
        /\ world s' = world s
        /\ t = [Ev_TryAcquire volumeID false;
                Ev_Observe "node_stage_volume" false volumeID])
    /\ ((volumeID ∈ volumeLocks s) ->
        world s' = world s /\ Forall (fun e => is_host_call e = false) t
        /\ exists e, r = Err e
                     /\ (code_of e = Some InvalidArgument \/ code_of e = Some Aborted))
    /\ ((t = [] /\ s' = s
         /\ (exists e, r = Err e /\ code_of e = Some InvalidArgument)
         /\ (volumeID = "" \/ NodeStageVolumeRequest.StagingTargetPath req = ""
             \/ NodeStageVolumeRequest.VolumeCapability req = None
             \/ (exists e, snd (azureutils_GetMaxShares lib volumeContext) = Some e)
             \/ (exists volumeCapability e,
                   NodeStageVolumeRequest.VolumeCapability req = Some volumeCapability
                   /\ azureutils_IsValidVolumeCapabilities lib [volumeCapability]
                        (fst (azureutils_GetMaxShares lib volumeContext)) = Some e)))
        \/ ((volumeID ∈ volumeLocks s) /\ r = busy /\ world s' = world s
            /\ t = [Ev_TryAcquire volumeID false;
                    Ev_Observe "node_stage_volume" false volumeID])
        \/ ((volumeID ∉ volumeLocks s) /\
            exists tb succeeded,
              Forall (fun e => is_host_call e = true) tb
              /\ t = Ev_TryAcquire volumeID true
                       :: tb ++ [Ev_Release volumeID;
                                 Ev_Observe "node_stage_volume" succeeded volumeID]))
    /\ (forall volumeCapability maxShares,
          volumeID <> "" ->
          NodeStageVolumeRequest.StagingTargetPath req <> "" ->
          NodeStageVolumeRequest.VolumeCapability req = Some volumeCapability ->
          azureutils_GetMaxShares lib volumeContext = (maxShares, None) ->
          azureutils_IsValidVolumeCapabilities lib [volumeCapability] maxShares = None ->
          ((volumeID ∈ volumeLocks s) ->
           r = busy /\ world s' = world s
           /\ t = [Ev_TryAcquire volumeID false;
                   Ev_Observe "node_stage_volume" false volumeID])
          /\ ((volumeID ∉ volumeLocks s) ->
              In (Ev_TryAcquire volumeID true) t /\ In (Ev_Release volumeID) t)))
  /\ (forall d req s r s' t,
    NodeUnstageVolume handle d req s = (r, s', t) ->
    let volumeID := NodeUnstageVolumeRequest.VolumeId req in
    let stagingTargetPath := NodeUnstageVolumeRequest.StagingTargetPath req in
    let busy :=
      Err (status_Errorf Aborted volumeOperationAlreadyExistsFmt [ArgString volumeID]) in
    volumeLocks s' = volumeLocks s
    /\ (In (Ev_TryAcquire volumeID true) t ->
        (volumeID ∉ volumeLocks s) /\ In (Ev_Release volumeID) t)
    /\ (In (Ev_TryAcquire volumeID false) t ->
        (volumeID ∈ volumeLocks s)
        /\ r = busy
        /\ world s' = world s
        /\ t = [Ev_TryAcquire volumeID false;
                Ev_Observe "node_unstage_volume" false volumeID])
    /\ ((volumeID ∈ volumeLocks s) ->
        world s' = world s /\ Forall (fun e => is_host_call e = false) t
        /\ exists e, r = Err e
                     /\ (code_of e = Some InvalidArgument \/ code_of e = Some Aborted))
    /\ ((t = [] /\ s' = s /\ (volumeID = "" \/ stagingTargetPath = "")
         /\ exists e, r = Err e /\ code_of e = Some InvalidArgument)
        \/ (volumeID <> "" /\ stagingTargetPath <> "" /\ (volumeID ∈ volumeLocks s)
            /\ r = busy /\ world s' = world s
            /\ t = [Ev_TryAcquire volumeID false;
                    Ev_Observe "node_unstage_volume" false volumeID])
        \/ (volumeID <> "" /\ stagingTargetPath <> "" /\ (volumeID ∉ volumeLocks s)
            /\ exists answer,
                 fst (handle _ (CleanupMountPoint stagingTargetPath true) (world s)) = answer
                 /\ t = [Ev_TryAcquire volumeID true;
                         Ev_CleanupMountPoint stagingTargetPath true answer;
                         Ev_Release volumeID;
                         Ev_Observe "node_unstage_volume" (is_nil answer) volumeID]
                 /\ r = match answer with
                        | Some err =>
                            Err (status_Errorf Internal
                                   "failed to unmount staging target %q: %v"
                                   [ArgString stagingTargetPath; ArgError err])
                        | None => Ok Build_NodeUnstageVolumeResponse
                        end))
    /\ (volumeID <> "" -> stagingTargetPath <> "" ->
        ((volumeID ∈ volumeLocks s) ->
         r = busy /\ world s' = world s
         /\ t = [Ev_TryAcquire volumeID false;
                 Ev_Observe "node_unstage_volume" false volumeID])
        /\ ((volumeID ∉ volumeLocks s) ->
            In (Ev_TryAcquire volumeID true) t /\ In (Ev_Release volumeID) t)))
  /\ (forall d req s r s' t,
    NodeExpandVolume handle lib d req s = (r, s', t) ->
    let volumeID := NodeExpandVolumeRequest.VolumeId req in
    let volumePath := NodeExpandVolumeRequest.VolumePath req in
    let answered := fst (handle _ (hostUtil_PathIsDevice volumePath) (world s)) in
    let busy :=
      Err (status_Errorf Aborted volumeOperationAlreadyExistsFmt [ArgString volumeID]) in
    volumeLocks s' = volumeLocks s
    /\ (In (Ev_TryAcquire volumeID true) t ->
        (volumeID ∉ volumeLocks s) /\ In (Ev_Release volumeID) t)
    /\ (In (Ev_TryAcquire volumeID false) t ->
        (volumeID ∈ volumeLocks s)
        /\ r = busy
        /\ t = [Ev_PathIsDevice volumePath (false, None);
                Ev_TryAcquire volumeID false;
                Ev_Observe "node_expand_volume" false volumeID])
    /\ ((t = [] /\ s' = s /\ (volumeID = "" \/ volumePath = "")
         /\ exists e, r = Err e /\ code_of e = Some InvalidArgument)
        \/ (exists isDevice err,
              volumeID <> "" /\ volumePath <> "" /\ answered = (isDevice, Some err)
              /\ t = [Ev_PathIsDevice volumePath (isDevice, Some err)]
              /\ r = Err (status_Errorf NotFound
                            "failed to determine device path for volumePath [%v]: %v"
                            [ArgString volumePath; ArgError err]))
        \/ (exists isDevice,
              volumeID <> "" /\ volumePath <> "" /\ answered = (isDevice, None)
              /\ expand_as_block req isDevice = true
              /\ r = Ok {| CapacityBytes := 0 |}
              /\ Forall (fun e => is_host_call e = true) t)
        \/ (volumeID <> "" /\ volumePath <> "" /\ answered = (false, None)
            /\ expand_as_block req false = false
            /\ (volumeID ∈ volumeLocks s)
            /\ r = busy
            /\ t = [Ev_PathIsDevice volumePath (false, None);
                    Ev_TryAcquire volumeID false;
                    Ev_Observe "node_expand_volume" false volumeID])
        \/ (volumeID <> "" /\ volumePath <> "" /\ answered = (false, None)
            /\ expand_as_block req false = false
            /\ (volumeID ∉ volumeLocks s)
            /\ exists tb succeeded,
                 Forall (fun e => is_host_call e = true) tb
                 /\ t = Ev_PathIsDevice volumePath (false, None)
                          :: Ev_TryAcquire volumeID true
                          :: tb ++ [Ev_Release volumeID;
                                    Ev_Observe "node_expand_volume" succeeded volumeID]))
    /\ (volumeID <> "" -> volumePath <> "" ->
        forall isDevice, answered = (isDevice, None) ->
          (expand_as_block req isDevice = true ->
           r = Ok {| CapacityBytes := 0 |}
           /\ Forall (fun e => is_host_call e = true) t)
          /\ (expand_as_block req isDevice = false -> (volumeID ∈ volumeLocks s) ->
              r = busy
              /\ t = [Ev_PathIsDevice volumePath (false, None);
                      Ev_TryAcquire volumeID false;
                      Ev_Observe "node_expand_volume" false volumeID])
          /\ (expand_as_block req isDevice = false -> (volumeID ∉ volumeLocks s) ->
              In (Ev_TryAcquire volumeID true) t /\ In (Ev_Release volumeID) t
              /\ exists tb tail,
                   Forall (fun e => is_host_call e = true) tb
                   /\ t = Ev_PathIsDevice volumePath (false, None)
                            :: Ev_TryAcquire volumeID true
                            :: tb ++ Ev_Release volumeID :: tail))).
Proof.
  split; [| split].
  - intros d req s r s' t H volumeID volumeContext busy.
    destruct (NodeStageVolume_locking _ _ _ _ _ _ H) as (H1 & H2 & H3 & H4).
    pose proof (NodeStageVolume_frame _ _ _ _ _ _ H) as Hframe.
    fold volumeID volumeContext in Hframe.
    do 4 (split; [assumption |]). split; [exact Hframe |].
    intros volumeCapability maxShares Hid Htarget Hcap Hms Hvalid.
    destruct Hframe as [(_ & _ & _ & Hcause) | [(Hheld & Hr & Hw & Ht) | (Hfree & tb & b & _ & Ht)]].
    + exfalso.
      destruct Hcause as [Hc | [Hc | [Hc | [(e & Hc) | (vc & e & Hc & Hv)]]]];
        try contradiction; try congruence.
      * rewrite Hms in Hc. discriminate Hc.
      * rewrite Hms in Hv. simpl in Hv. congruence.
    + split; [auto | intros Hfree; contradiction].
    + split; [intros Hheld; contradiction |]. intros _. subst t. split.
      * left. reflexivity.
      * right. apply in_or_app. right. left. reflexivity.
  - intros d req s r s' t H volumeID stagingTargetPath busy.
    destruct (NodeUnstageVolume_locking _ _ _ _ _ _ H) as (H1 & H2 & H3 & H4).
    pose proof (NodeUnstageVolume_runs _ _ _ _ _ _ H) as Hruns.
    fold volumeID stagingTargetPath in Hruns.
    do 4 (split; [assumption |]). split; [exact Hruns |].
    intros Hid Hpath.
    destruct Hruns as [(_ & _ & Hcause & _)
      | [(_ & _ & Hheld & Hr & Hw & Ht) | (_ & _ & Hfree & a & _ & Ht & _)]].
    + exfalso. destruct Hcause; contradiction.
    + split; [auto | intros Hfree; contradiction].
    + split; [intros Hheld; contradiction |]. intros _. subst t. simpl. tauto.
  - intros d req s r s' t H volumeID volumePath answered busy.
    destruct (NodeExpandVolume_locking _ _ _ _ _ _ H) as (H1 & H2 & H3).
    pose proof (NodeExpandVolume_frame _ _ _ _ _ _ H) as Hframe.
    subst volumeID volumePath answered busy. cbv zeta in Hframe.
    do 3 (split; [assumption |]). split; [exact Hframe |].
    intros Hid Hpath isDevice Hans.
    destruct Hframe as [(_ & _ & Hcause & _) | [(b & e & _ & _ & Hans' & _)
      | [(b & _ & _ & Hans' & Hblock & Hr & Ht)
      | [(_ & _ & Hans' & Hblock & Hheld & Hr & Ht)
      | (_ & _ & Hans' & Hblock & Hfree & tb & succeeded & Htb & Ht)]]]].
    + exfalso. destruct Hcause; contradiction.
    + exfalso. rewrite Hans in Hans'. discriminate Hans'.
    + rewrite Hans in Hans'. inversion Hans'; subst b.
      split; [auto |]. split; intros Hx; congruence.
    + rewrite Hans in Hans'. inversion Hans'; subst isDevice.
      split; [intros Hx; congruence |].
      split; [auto | intros _ Hfree; contradiction].
    + rewrite Hans in Hans'. inversion Hans'; subst isDevice.
      split; [intros Hx; congruence |].
      split; [intros _ Hheld; contradiction |]. intros _ _. subst t.
      split; [right; left; reflexivity |].
      split; [right; right; apply in_or_app; right; left; reflexivity |].
      exists tb. eexists. split; [exact Htb | reflexivity].
Qed.

End Locking.

(** ** Mount-point reconciliation *)

Section Reconciliation.

Context {W : Type}.
Variable handle : forall A : Type, Call A -> W -> A * W.
Variable lib : Lib.

(** What ensureMountPoint returns for a mounted target whose directory
    cannot be read: it unmounts the target, and when the unmount worked it
    returns "not mounted" together with the error of os.ReadDir. *)
Lemma ensureMountPoint_broken_link target s r s' t :
  ensureMountPoint handle lib target s = (r, s', t) ->
  forall err, In (Ev_ReadDir target (Some err)) t ->
    (exists answer, In (Ev_Unmount target answer) t)
    /\ (In (Ev_Unmount target None) t -> r = (false, Some err))
    /\ (forall unmountErr, In (Ev_Unmount target (Some unmountErr)) t ->
          r = (true, Some unmountErr)).
Proof.
  intros H err Hin. unfold ensureMountPoint in H. run_in H. cases_in H.
  all: inversion H; subst; clear H; in_trace Hin.
  all: split; [eexists; simpl; eauto 10 |].
  all: split; [intros Hu | intros unmountErr Hu]; in_trace Hu; reflexivity.
Qed.

(** A readable mounted target is reported as mounted, without an error. *)
Lemma ensureMountPoint_healthy target s r s' t :
  ensureMountPoint handle lib target s = (r, s', t) ->
  In (Ev_ReadDir target None) t -> r = (true, None).
Proof.
  intros H Hin. unfold ensureMountPoint in H. run_in H. cases_in H.
  all: inversion H; subst; clear H; in_trace Hin.
  all: reflexivity.
Qed.

Lemma collectMountOptions_xfs mntFlags :
  In "nouuid" (collectMountOptions "xfs" mntFlags).
Proof. unfold collectMountOptions. simpl. apply in_or_app. right. left. reflexivity. Qed.

End Reconciliation.

(** The occurrences of an event in a trace that has unknown parts. *)
Ltac split_in H :=
  repeat match type of H with
         | In _ (_ ++ _) => apply in_app_or in H; destruct H as [H | H]
         | In _ (_ :: _) => destruct H as [H | H]; [try discriminate H |]
         | In _ [] => destruct H
         end.

(** ** Staging *)

Section Staging.

Context {W : Type}.
Variable handle : forall A : Type, Call A -> W -> A * W.
Variable lib : Lib.

Lemma len_nonempty (x : string) : x <> "" -> (len x =? 0) = false.
Proof.
  intros Hx. apply Z.eqb_neq. unfold len. destruct x; [contradiction | simpl; lia].
Qed.

(** C10. A Stage request whose publish context has no LUN entry always
    fails, with an InvalidArgument or the Aborted code.  It fails with the
    InvalidArgument error "lun not provided" exactly when it acquired the
    lock of the volume, so the check comes only after the lock; nothing is
    then done between acquiring and releasing the lock.  In particular a
    request whose volume ID, staging path, capability and volume context are
    all valid, and whose lock is free, fails with "lun not provided". *)
Theorem stage_requires_lun d req s r s' t :
  NodeStageVolumeRequest.PublishContext req !! consts_LUN lib = None ->
  NodeStageVolume handle lib d req s = (r, s', t) ->
  let volumeID := NodeStageVolumeRequest.VolumeId req in
  let lun_not_provided := status_Error InvalidArgument "lun not provided" in
  (exists e, r = Err e /\ (code_of e = Some InvalidArgument \/ code_of e = Some Aborted))
  /\ (r = Err lun_not_provided <-> In (Ev_TryAcquire volumeID true) t)
  /\ (In (Ev_TryAcquire volumeID true) t ->
      world s' = world s
      /\ t = [Ev_TryAcquire volumeID true; Ev_Release volumeID;
             Ev_Observe "node_stage_volume" false volumeID])
  /\ (volumeID <> "" ->
      NodeStageVolumeRequest.StagingTargetPath req <> "" ->
      forall volumeCapability maxShares,
        NodeStageVolumeRequest.VolumeCapability req = Some volumeCapability ->
        azureutils_GetMaxShares lib (NodeStageVolumeRequest.VolumeContext req)
          = (maxShares, None) ->
        azureutils_IsValidVolumeCapabilities lib [volumeCapability] maxShares = None ->
        (volumeID ∉ volumeLocks s) ->
        r = Err lun_not_provided).
Proof.
  intros Hlun H volumeID lun_not_provided. unfold NodeStageVolume in H.
  rewrite Hlun in H. run_in H. cases_in H.
  all: inversion H; subst; clear H.
  all: repeat match goal with
         | Ht : VolumeLocks.TryAcquire _ _ = _ |- _ =>
             apply TryAcquire_inv in Ht;
             destruct Ht as [(? & ? & ?) | (? & ? & ?)]; subst; try discriminate
         end.
  all: subst lun_not_provided volumeID; unfold status_Error, status_Errorf in *.
  all: split; [eexists; split; [reflexivity | simpl; auto] |].
  all: split;
    [split; intros Hx; [try discriminate Hx | try (in_trace Hx)]; simpl; auto |].
  all: split; [intros Hx; try (in_trace Hx); simpl; auto |].
  all: intros Hid Htarget vc ms Hvc Hms Hvalid Hfree.
  all: try reflexivity.
  all: try (rewrite (len_nonempty _ Hid) in *; discriminate).
  all: try (rewrite (len_nonempty _ Htarget) in *; discriminate).
  all: try congruence.
  all: try contradiction.
  inversion Hms; subst. discriminate.
Qed.

Lemma discovery_is_no_filesystem_event e :
  is_discovery_event e = true -> is_filesystem_event e = false.
Proof. destruct e; cbv; congruence. Qed.

(** A Stage request for a raw-block volume makes no filesystem call. *)
Lemma NodeStageVolume_block_no_filesystem d req volumeCapability b s r s' t :
  NodeStageVolumeRequest.VolumeCapability req = Some volumeCapability ->
  AccessType volumeCapability = VolumeCapability_Block b ->
  NodeStageVolume handle lib d req s = (r, s', t) ->
  Forall (fun e => is_filesystem_event e = false) t
  /\ match r with
     | Ok _ => In (Ev_TryAcquire (NodeStageVolumeRequest.VolumeId req) true) t
     | Err e =>
         code_of e = Some InvalidArgument \/ code_of e = Some Aborted
         \/ (exists lun err,
               e = status_Errorf Internal "failed to find disk on lun %s. %v"
                     [ArgString lun; ArgError err])
         \/ (exists source err,
               e = status_Errorf Internal "failed to get perf attributes for %s. Error: %v"
                     [ArgString source; ArgError err])
         \/ (exists source err,
               e = status_Errorf Internal
                     "failed to optimize device performance for target(%s) error(%s)"
                     [ArgString source; ArgError err])
     end
  /\ (forall lun p,
        In (Ev_findDiskByLun lun (p, None)) t -> p <> "" ->
        perfOptimizationEnabled d = false
        \/ (exists attrs,
              optimization_GetDiskPerfAttributes lib (NodeStageVolumeRequest.VolumeContext req)
                = (attrs, None)
              /\ (DiskSupportsPerfOptimization lib (profile attrs) (accountType attrs) = false
                  \/ In (Ev_OptimizeDiskPerformance p attrs None) t)) ->
        r = Ok Build_NodeStageVolumeResponse).
Proof.
  intros Hcap Hblock H. unfold NodeStageVolume in H.
  rewrite Hcap in H. rewrite Hblock in H. run_in H. cases_in H.
  all: inversion H; subst; clear H.
  all: repeat match goal with
         | Hb : negb ?b = _ |- _ => destruct b; simpl in Hb; try discriminate Hb; clear Hb
         end.
  all: try match goal with
         | Hd : getDevicePathWithLUN _ _ _ _ = _ |- _ =>
             pose proof (proj2 (getDevicePathWithLUN_within handle lib
                           (fun e => is_filesystem_event e = false) _
                           discovery_is_no_filesystem_event _ _ _ _ Hd)) as Hdev;
             pose proof (fun lun p => getDevicePathWithLUN_found handle lib _ _ _ _ _ lun p Hd)
               as Hfound;
             pose proof (fun e => getDevicePathWithLUN_only_discovers handle lib _ _ _ _ _ e Hd)
               as Hnd
         end.
  all: split;
    [repeat first [exact I | assumption | apply Forall_nil | apply Forall_app; split
                  | constructor; [reflexivity |]] |].
  all: split; [solve [simpl; eauto 12] |].
  all: intros lun p Hin Hp Hperf.
  all: try reflexivity.
  all: split_in Hin.
  all: try (specialize (Hfound _ _ Hin Hp); try congruence).
  all: destruct Hperf as [Hperf | (attrs & Hattrs & [Hns | Hopt])]; try congruence.
  all: try (split_in Hopt; try (exfalso; revert Hopt; apply Hnd; reflexivity)).
Qed.

(** The runs of Stage for a raw-block volume, step by step. *)
Lemma NodeStageVolume_block_runs d req volumeCapability b s r s' t :
  NodeStageVolumeRequest.VolumeCapability req = Some volumeCapability ->
  AccessType volumeCapability = VolumeCapability_Block b ->
  NodeStageVolume handle lib d req s = (r, s', t) ->
  let volumeID := NodeStageVolumeRequest.VolumeId req in
  let volumeContext := NodeStageVolumeRequest.VolumeContext req in
  (volumeID ∉ volumeLocks s) -> t <> [] ->
  exists tb,
    t = Ev_TryAcquire volumeID true
          :: tb ++ [Ev_Release volumeID; Ev_Observe "node_stage_volume" false volumeID]
    /\ match NodeStageVolumeRequest.PublishContext req !! consts_LUN lib with
       | None => tb = [] /\ r = Err (status_Error InvalidArgument "lun not provided")
       | Some lun =>
           exists s1 source err s2 td,
             getDevicePathWithLUN handle lib lun s1 = ((source, err), s2, td)
             /\ world s1 = world s
             /\ match err with
                | Some err =>
                    tb = td
                    /\ r = Err (status_Errorf Internal "failed to find disk on lun %s. %v"
                                  [ArgString lun; ArgError err])
                | None =>
                    if perfOptimizationEnabled d then
                      match optimization_GetDiskPerfAttributes lib volumeContext with
                      | (_, Some err) =>
                          tb = td
                          /\ r = Err (status_Errorf Internal
                                        "failed to get perf attributes for %s. Error: %v"
                                        [ArgString source; ArgError err])
                      | (attrs, None) =>
                          if DiskSupportsPerfOptimization lib (profile attrs)
                               (accountType attrs)
                          then
                            exists answer,
                              tb = td ++ [Ev_OptimizeDiskPerformance source attrs answer]
                              /\ r = match answer with
                                     | Some err =>
                                         Err (status_Errorf Internal
                                                "failed to optimize device performance for target(%s) error(%s)"
                                                [ArgString source; ArgError err])
                                     | None => Ok Build_NodeStageVolumeResponse
                                     end
                          else tb = td /\ r = Ok Build_NodeStageVolumeResponse
                      end
                    else tb = td /\ r = Ok Build_NodeStageVolumeResponse
                end
       end.
Proof.
  intros Hcap Hblock H volumeID volumeContext Hfree Hne. subst volumeID volumeContext.
  unfold NodeStageVolume in H. rewrite Hcap, Hblock in H. cbv beta zeta in H. exec H.
  all: cbn [world volumeLocks isOperationSucceeded] in *.
  all: steadied.
  all: try contradiction.
  all: try (exfalso; apply Hne; reflexivity).
  all: match goal with
       | |- context [([Ev_TryAcquire _ true] ++ ?tb ++ [Ev_Release _])
                       ++ [Ev_Observe _ _ _]] =>
           exists tb
       end.
  all: flagged.
  all: split; [simpl; rewrite <- ?app_assoc; reflexivity |].
  all: try solve [split; reflexivity].
  all: do 5 eexists; split; [eassumption |]; split; [first [reflexivity | assumption] |].
  all: cbv beta iota; decided.
  all: repeat match goal with
              | Hp : optimization_GetDiskPerfAttributes _ _ = _ |- _ => rewrite Hp
              end; decided.
  all: try solve [split; [rewrite ?app_nil_r; reflexivity | reflexivity]].
  all: eexists; split; [rewrite ?app_nil_r; reflexivity | reflexivity].
Qed.

(** C5 (as amended). A Stage request for a raw-block volume never performs
    mount-point reconciliation, format, mount or resize.  It is not answered
    at once.  An invalid request is refused without a trace, and a request
    whose lock is held gets the Aborted error.  Otherwise the run acquires
    the lock and goes through the steps that come before the access type is
    looked at, each of which can end it with its own error: without a LUN in
    the publish context the request fails with "lun not provided"; the
    device is resolved, and a failed resolution fails the request; with
    performance tuning on, the attributes are read and, when the disk
    supports it, the device is tuned, and either failure fails the request.
    Only a run that has passed all of them returns success; it releases the
    lock and observes its metric as not succeeded. *)
Theorem stage_of_block_volume d req volumeCapability b s r s' t :
  NodeStageVolumeRequest.VolumeCapability req = Some volumeCapability ->
  AccessType volumeCapability = VolumeCapability_Block b ->
  NodeStageVolume handle lib d req s = (r, s', t) ->
  let volumeID := NodeStageVolumeRequest.VolumeId req in
  let volumeContext := NodeStageVolumeRequest.VolumeContext req in
  Forall (fun e => is_filesystem_event e = false) t
  /\ match r with
     | Ok _ => In (Ev_TryAcquire volumeID true) t
     | Err e =>
         code_of e = Some InvalidArgument \/ code_of e = Some Aborted
         \/ (exists lun err,
               e = status_Errorf Internal "failed to find disk on lun %s. %v"
                     [ArgString lun; ArgError err])
         \/ (exists source err,
               e = status_Errorf Internal "failed to get perf attributes for %s. Error: %v"
                     [ArgString source; ArgError err])
         \/ (exists source err,
               e = status_Errorf Internal
                     "failed to optimize device performance for target(%s) error(%s)"
                     [ArgString source; ArgError err])
     end
  /\ (forall lun p,
        In (Ev_findDiskByLun lun (p, None)) t -> p <> "" ->
        perfOptimizationEnabled d = false
        \/ (exists attrs,
              optimization_GetDiskPerfAttributes lib volumeContext = (attrs, None)
              /\ (DiskSupportsPerfOptimization lib (profile attrs) (accountType attrs) = false
                  \/ In (Ev_OptimizeDiskPerformance p attrs None) t)) ->
        r = Ok Build_NodeStageVolumeResponse)
  /\ ((t = [] /\ s' = s
       /\ (exists e, r = Err e /\ code_of e = Some InvalidArgument)
       /\ (volumeID = "" \/ NodeStageVolumeRequest.StagingTargetPath req = ""
           \/ (exists e, snd (azureutils_GetMaxShares lib volumeContext) = Some e)
           \/ (exists e,
                 azureutils_IsValidVolumeCapabilities lib [volumeCapability]
                   (fst (azureutils_GetMaxShares lib volumeContext)) = Some e)))
      \/ ((volumeID ∈ volumeLocks s)
          /\ r = Err (status_Errorf Aborted volumeOperationAlreadyExistsFmt
                        [ArgString volumeID])
          /\ world s' = world s
          /\ t = [Ev_TryAcquire volumeID false;
                  Ev_Observe "node_stage_volume" false volumeID])
      \/ ((volumeID ∉ volumeLocks s) /\
          exists tb,
            t = Ev_TryAcquire volumeID true
                  :: tb ++ [Ev_Release volumeID;
                            Ev_Observe "node_stage_volume" false volumeID]
            /\ match NodeStageVolumeRequest.PublishContext req !! consts_LUN lib with
               | None =>
                   tb = [] /\ r = Err (status_Error InvalidArgument "lun not provided")
               | Some lun =>
                   exists s1 source err s2 td,
                     getDevicePathWithLUN handle lib lun s1 = ((source, err), s2, td)
                     /\ world s1 = world s
                     /\ match err with
                        | Some err =>
                            tb = td
                            /\ r = Err (status_Errorf Internal
                                          "failed to find disk on lun %s. %v"
                                          [ArgString lun; ArgError err])
                        | None =>
                            if perfOptimizationEnabled d then
                              match optimization_GetDiskPerfAttributes lib volumeContext with
                              | (_, Some err) =>
                                  tb = td
                                  /\ r = Err (status_Errorf Internal
                                                "failed to get perf attributes for %s. Error: %v"
                                                [ArgString source; ArgError err])
                              | (attrs, None) =>
                                  if DiskSupportsPerfOptimization lib (profile attrs)
                                       (accountType attrs)
                                  then
                                    exists answer,
                                      tb = td ++ [Ev_OptimizeDiskPerformance source attrs
                                                    answer]
                                      /\ r = match answer with
                                             | Some err =>
                                                 Err (status_Errorf Internal
                                                        "failed to optimize device performance for target(%s) error(%s)"
                                                        [ArgString source; ArgError err])
                                             | None => Ok Build_NodeStageVolumeResponse
                                             end
                                  else tb = td /\ r = Ok Build_NodeStageVolumeResponse
                              end
                            else tb = td /\ r = Ok Build_NodeStageVolumeResponse
                        end
               end)).
Proof.
  intros Hcap Hblock H volumeID volumeContext.
  destruct (NodeStageVolume_block_no_filesystem _ _ _ _ _ _ _ _ Hcap Hblock H)
    as (Hnone & Hresult & Hpassed).
  do 3 (split; [assumption |]).
  destruct (NodeStageVolume_frame handle lib _ _ _ _ _ _ H)
    as [(Ht & Hs & He & Hcause) | [Hheld | (Hfree & tb0 & b0 & _ & Ht)]].
  - left. repeat (split; [assumption |]).
    fold volumeID volumeContext in Hcause.
    destruct Hcause as [Hc | [Hc | [Hc | [Hc | (vc & e & Hc & Hv)]]]]; auto.
    + congruence.
    + right. right. right. exists e. congruence.
  - right. left. exact Hheld.
  - right. right. split; [exact Hfree |].
    apply (NodeStageVolume_block_runs _ _ _ _ _ _ _ _ Hcap Hblock H Hfree).
    rewrite Ht. discriminate.
Qed.

(** What Stage hands to formatAndMount: the filesystem type is the
    effective one, but the mount options are collected for the filesystem
    type of the capability, before the volume context is looked at. *)
Lemma NodeStageVolume_format_arguments d req volumeCapability s r s' t :
  NodeStageVolumeRequest.VolumeCapability req = Some volumeCapability ->
  NodeStageVolume handle lib d req s = (r, s', t) ->
  forall source target fstype options answer,
    In (Ev_formatAndMount source target fstype options answer) t ->
    fstype = effective_fstype lib volumeCapability (NodeStageVolumeRequest.VolumeContext req)
    /\ options = match GetMount volumeCapability with
                 | Some mnt =>
                     collectMountOptions (capability_fstype lib volumeCapability)
                       (MountFlags mnt)
                 | None => []
                 end.
Proof.
  intros Hcap H source target fstype options answer Hin.
  unfold NodeStageVolume in H. rewrite Hcap in H.
  apply func_inv in H. destruct H as (f & H & Hf).
  repeat head_case H.
  all: try (destruct Hin; fail).
  apply (guarded_run
           (fun e =>
              match e with
              | Ev_formatAndMount _ _ fstype options _ =>
                  fstype = effective_fstype lib volumeCapability
                             (NodeStageVolumeRequest.VolumeContext req)
                  /\ options = match GetMount volumeCapability with
                               | Some mnt =>
                                   collectMountOptions
                                     (capability_fstype lib volumeCapability)
                                     (MountFlags mnt)
                               | None => []
                               end
              | _ => True
              end)) in H.
  2:{ unfold effective_fstype, capability_fstype.
      repeat within_step.
      all: try (apply getDevicePathWithLUN_within; intros [] He; try discriminate He; exact I).
      all: try (apply ensureMountPoint_within; intros [] He; try discriminate He; exact I).
      all: match goal with
           | Hq : match GetMount ?vc with _ => _ end = _ |- _ =>
               destruct (GetMount vc); inversion Hq; subst; split; reflexivity
           end. }
  destruct H as [_ [(_ & _ & _ & ->) | (_ & tb & b & Htb & ->)]]; [in_trace Hin |].
  destruct Hin as [Hin | Hin]; [discriminate Hin |].
  apply in_app_or in Hin. destruct Hin as [Hin | Hin]; [| in_trace Hin].
  rewrite Forall_forall in Htb. apply list_elem_of_In in Hin.
  exact (Htb _ Hin).
Qed.

End Staging.

(** ** Publishing a raw-block volume *)

Section Publishing.

Context {W : Type}.
Variable handle : forall A : Type, Call A -> W -> A * W.
Variable lib : Lib.

Lemma ensureBlockTargetFile_outcome target s r s' t :
  ensureBlockTargetFile handle lib target s = (r, s', t) ->
  forall err, In (Ev_MakeFile target (Some err)) t ->
    exists answer,
      (forall answer', In (Ev_Remove target answer') t -> answer' = answer)
      /\ In (Ev_Remove target answer) t
      /\ r = Some (match answer with
                   | Some removeErr =>
                       status_Errorf Internal "could not remove mount target %q: %v"
                         [ArgString target; ArgError removeErr]
                   | None =>
                       status_Errorf Internal "could not create file %q: %v"
                         [ArgString target; ArgError err]
                   end).
Proof.
  intros H err Hin. unfold ensureBlockTargetFile in H. run_in H. cases_in H.
  all: inversion H; subst; clear H.
  all: match goal with
       | Hm : ensureMountPoint _ _ _ _ = _ |- _ =>
           pose proof (fun e => ensureMountPoint_only_reconciles handle lib _ _ _ _ _ e Hm) as Hno
       end.
  all: split_in Hin; try (exfalso; revert Hin; apply Hno; reflexivity).
  all: inversion Hin; subst; clear Hin.
  all: eexists; split; [| split; [apply in_or_app; right; simpl; eauto |]]; [| reflexivity].
  all: intros answer' Hr; split_in Hr; try (exfalso; revert Hr; apply Hno; reflexivity).
  all: inversion Hr; subst; reflexivity.
Qed.

Lemma NodePublishVolume_block_target d req s r s' t :
  NodePublishVolume handle lib d req s = (r, s', t) ->
  let target := NodePublishVolumeRequest.TargetPath req in
  forall err, In (Ev_MakeFile target (Some err)) t ->
    exists answer,
      (forall answer', In (Ev_Remove target answer') t -> answer' = answer)
      /\ In (Ev_Remove target answer) t
      /\ r = Err (status_Errorf Internal "%v"
                    [ArgError
                       match answer with
                       | Some removeErr =>
                           status_Errorf Internal "could not remove mount target %q: %v"
                             [ArgString target; ArgError removeErr]
                       | None =>
                           status_Errorf Internal "could not create file %q: %v"
                             [ArgString target; ArgError err]
                       end]).
Proof.
  intros H target err Hin. unfold NodePublishVolume in H. run_in H. cases_in H.
  all: inversion H; subst; clear H.
  all: try match goal with
       | Hm : ensureMountPoint _ _ _ _ = _ |- _ =>
           pose proof (fun e => ensureMountPoint_only_reconciles handle lib _ _ _ _ _ e Hm) as Hno
       end.
  all: try match goal with
       | Hm : getDevicePathWithLUN _ _ _ _ = _ |- _ =>
           pose proof (fun e => getDevicePathWithLUN_only_discovers handle lib _ _ _ _ _ e Hm) as Hnd
       end.
  all: try match goal with
       | Hm : ensureBlockTargetFile _ _ _ _ = _ |- _ =>
           pose proof (ensureBlockTargetFile_outcome _ _ _ _ _ Hm) as Hout
       end.
  all: split_in Hin.
  all: try (exfalso; revert Hin; apply Hno; reflexivity).
  all: try (exfalso; revert Hin; apply Hnd; reflexivity).
  all: destruct (Hout _ Hin) as (answer & Huniq & Hrem & Hr); inversion Hr; subst; clear Hr.
  all: exists answer; split; [| split; [| reflexivity]].
  all: try (right; apply in_or_app; right; apply in_or_app; left; exact Hrem).
  all: intros answer' Hx; split_in Hx; auto.
  all: exfalso; revert Hx; apply Hnd; reflexivity.
Qed.

(** C8 (as amended). When the creation of the target file fails, the
    removal of the target is attempted; the creation error is what
    ensureBlockTargetFile returns, and what Publish returns wrapped in an
    Internal status, when that removal succeeds; when the removal fails too,
    its error is returned instead of the creation error. *)
Theorem block_target_creation_failure :
  (forall target s r s' t,
     ensureBlockTargetFile handle lib target s = (r, s', t) ->
     forall err, In (Ev_MakeFile target (Some err)) t ->
       (exists answer, In (Ev_Remove target answer) t)
       /\ (In (Ev_Remove target None) t ->
           r = Some (status_Errorf Internal "could not create file %q: %v"
                      [ArgString target; ArgError err]))
       /\ (forall removeErr, In (Ev_Remove target (Some removeErr)) t ->
           r = Some (status_Errorf Internal "could not remove mount target %q: %v"
                      [ArgString target; ArgError removeErr])))
  /\ (forall d req s r s' t,
       NodePublishVolume handle lib d req s = (r, s', t) ->
       let target := NodePublishVolumeRequest.TargetPath req in
       forall err, In (Ev_MakeFile target (Some err)) t ->
         (exists answer, In (Ev_Remove target answer) t)
         /\ (In (Ev_Remove target None) t ->
             r = Err (status_Errorf Internal "%v"
                        [ArgError (status_Errorf Internal "could not create file %q: %v"
                      [ArgString target; ArgError err])]))
         /\ (forall removeErr, In (Ev_Remove target (Some removeErr)) t ->
             r = Err (status_Errorf Internal "%v"
                        [ArgError (status_Errorf Internal "could not remove mount target %q: %v"
                      [ArgString target; ArgError removeErr])]))).
Proof.
  split.
  - intros target s r s' t H err Hin.
    destruct (ensureBlockTargetFile_outcome _ _ _ _ _ H _ Hin) as (answer & Huniq & Hrem & ->).
    split; [eauto |]. split.
    + intros Hx. rewrite <- (Huniq _ Hx). reflexivity.
    + intros removeErr Hx. rewrite <- (Huniq _ Hx). reflexivity.
  - intros d req s r s' t H target err Hin.
    destruct (NodePublishVolume_block_target _ _ _ _ _ _ H _ Hin)
      as (answer & Huniq & Hrem & ->).
    split; [eauto |]. split.
    + intros Hx. rewrite <- (Huniq _ Hx). reflexivity.
    + intros removeErr Hx. rewrite <- (Huniq _ Hx). reflexivity.
Qed.

End Publishing.

(** ** Expansion *)

Section Expand.

Context {W : Type}.
Variable handle : forall A : Type, Call A -> W -> A * W.
Variable lib : Lib.

(** What a run that reached the measurement returns: the resize was called
    once, and the verdict compares the measured size with the request. *)
Lemma NodeExpandVolume_measured d req s r s' t :
  NodeExpandVolume handle lib d req s = (r, s', t) ->
  forall devicePath gotBlockSizeBytes,
    In (Ev_getBlockSizeBytes devicePath (gotBlockSizeBytes, None)) t ->
    let requestGiB :=
      RoundUpGiB (GetRequiredBytes (NodeExpandVolumeRequest.CapacityRange req)) in
    let gotBlockGiB := RoundUpGiB gotBlockSizeBytes in
    exists dp answer,
      (forall dp' vp' answer', In (Ev_resizeVolume dp' vp' answer') t ->
         dp' = dp /\ answer' = answer)
      /\ r = if gotBlockGiB <? requestGiB then
               match answer with
               | Some err =>
                   Err (status_Errorf Internal "could not resize volume %q (%q):  %v"
                          [ArgString (NodeExpandVolumeRequest.VolumeId req);
                           ArgString dp; ArgError err])
               | None =>
                   Err (status_Errorf Internal
                          "resize requested for %v, but after resizing volume size was %v"
                          [ArgInt requestGiB; ArgInt gotBlockGiB])
               end
             else Ok {| CapacityBytes := gotBlockSizeBytes |}.
Proof.
  intros H devicePath g Hin. unfold NodeExpandVolume in H. run_in H.
  cases_in H.
  all: inversion H; subst; clear H; in_trace Hin.
  all: cbv zeta;
    match goal with
    | Hr : handle _ (resizeVolume ?dp _) _ = (?answer, _) |- _ => exists dp, answer
    end.
  all: split; [intros dp' vp' answer' Hr; in_trace Hr; auto |].
  all: match goal with
       | Hc : (_ <? _) = _ |- _ => rewrite Hc
       end; reflexivity.
Qed.



(** Rounding up to GiB is the ceiling of the division by one GiB. *)
Lemma RoundUpGiB_ceiling n :
  (RoundUpGiB n - 1) * GiB < n <= RoundUpGiB n * GiB.
Proof.
  unfold RoundUpGiB.
  assert (HG : 0 < GiB) by reflexivity.
  pose proof (Z.div_mod n GiB ltac:(lia)) as Hdm.
  pose proof (Z.mod_pos_bound n GiB HG) as Hb.
  destruct (0 <? n mod GiB) eqn:E; z_cmp; nia.
Qed.

Lemma RoundUpGiB_reaches n k : k * GiB <= n -> k <= RoundUpGiB n.
Proof.
  intros H. pose proof (RoundUpGiB_ceiling n) as [_ Hn].
  assert (HG : 0 < GiB) by reflexivity. nia.
Qed.

(** Rounding up to GiB stays below a bound exactly when the size does. *)
Lemma RoundUpGiB_le n k : RoundUpGiB n <= k <-> n <= k * GiB.
Proof.
  pose proof (RoundUpGiB_ceiling n) as [Hlo Hhi].
  assert (HG : 0 < GiB) by reflexivity. split; intros H; nia.
Qed.

(** C7. Expand rounds the required bytes up to whole GiB: the request in GiB
    is the ceiling of the division by one GiB, so it never rounds down, and
    4,500,000,000 bytes become 5 GiB.  The rounded request decides the
    verdict of a run that measured the filesystem: the run succeeds, with
    the measured size, exactly when the measured size is above the rounded
    request less one GiB, so a measured size that reaches or exceeds the
    rounded request is a success and never a mismatch failure; and a
    measured size at or below that bound is an Internal failure, which names
    the rounded request when the resize step did not fail. *)
Theorem expand_rounds_request_up :
  (forall n, (RoundUpGiB n - 1) * GiB < n <= RoundUpGiB n * GiB)
  /\ RoundUpGiB 4500000000 = 5
  /\ (forall d req s r s' t,
        NodeExpandVolume handle lib d req s = (r, s', t) ->
        forall measuredPath gotBlockSizeBytes,
          In (Ev_getBlockSizeBytes measuredPath (gotBlockSizeBytes, None)) t ->
          let requestGiB :=
            RoundUpGiB (GetRequiredBytes (NodeExpandVolumeRequest.CapacityRange req)) in
          (requestGiB * GiB <= gotBlockSizeBytes ->
           r = Ok {| CapacityBytes := gotBlockSizeBytes |})
          /\ (r = Ok {| CapacityBytes := gotBlockSizeBytes |}
              <-> (requestGiB - 1) * GiB < gotBlockSizeBytes)
          /\ (gotBlockSizeBytes <= (requestGiB - 1) * GiB ->
              exists e, r = Err e /\ code_of e = Some Internal
                /\ (forall devicePath volumePath,
                      In (Ev_resizeVolume devicePath volumePath None) t ->
                      e = status_Errorf Internal
                            "resize requested for %v, but after resizing volume size was %v"
                            [ArgInt requestGiB; ArgInt (RoundUpGiB gotBlockSizeBytes)]))).
Proof.
  split; [exact RoundUpGiB_ceiling |]. split; [reflexivity |].
  intros d req s r s' t H measuredPath g Hin requestGiB.
  destruct (NodeExpandVolume_measured _ _ _ _ _ _ H _ _ Hin)
    as (dp0 & answer & Hone & Hr).
  fold requestGiB in Hr. cbv zeta in Hr.
  assert (Hcmp : (RoundUpGiB g <? requestGiB) = true <-> g <= (requestGiB - 1) * GiB).
  { rewrite Z.ltb_lt. rewrite <- RoundUpGiB_le. lia. }
  destruct (RoundUpGiB g <? requestGiB) eqn:E.
  - assert (Hsmall : g <= (requestGiB - 1) * GiB) by (apply Hcmp; reflexivity).
    assert (HG : 0 < GiB) by reflexivity.
    split; [intros Hge; nia |]. split.
    + split; [intros Hok; rewrite Hr in Hok; destruct answer; discriminate Hok | lia].
    + intros _. destruct answer as [err |]; eexists; (split; [exact Hr |]);
        (split; [reflexivity |]); intros dp vp Hres;
        destruct (Hone _ _ _ Hres) as [_ Ha]; [discriminate Ha | reflexivity].
  - assert (Hbig : ~ g <= (requestGiB - 1) * GiB) by (intros Hx; apply Hcmp in Hx; discriminate).
    split; [intros _; exact Hr |]. split; [split; [lia | intros _; exact Hr] | lia].
Qed.

End Expand.

(** ** Node information *)

Section NodeInfo.

Context {W : Type}.
Variable handle : forall A : Type, Call A -> W -> A * W.
Variable lib : Lib.

Lemma NodeGetInfo_segments d s r s' t :
  NodeGetInfo handle lib d s = (r, s', t) ->
  forall resp, r = Ok resp ->
    let valid z := azureutils_IsValidAvailabilityZone lib z (Location (cloud d)) in
    let unset : gmap string string := {[ topologyKey lib := "" ]} in
    (supportZone d = false /\ Segments (AccessibleTopology resp) = unset)
    \/ (supportZone d = true /\
        exists z, resolved_zone t = Some z
          /\ Segments (AccessibleTopology resp)
             = if valid z
               then <[ consts_WellKnownTopologyKey lib := z ]> (<[ topologyKey lib := z ]> unset)
               else unset).
Proof.
  intros H resp Hr valid unset. unfold NodeGetInfo in H.
  apply func_inv in H. destruct H as (f & H & Hf).
  apply bind_inv in H.
  destruct H as [(r0 & Hz & ->) | ([segments itfl] & s1 & t1 & t2 & Hz & H & ->)].
  - (* the zone could not be resolved: an error *)
    run_in Hz. cases_in Hz.
    all: inversion Hz; subst; clear Hz.
    all: destruct Hf as [Hf | Hf]; inversion Hf; subst; discriminate.
  - assert (Hresp : Segments (AccessibleTopology resp) = segments).
    { clear Hz. run_in H. cases_in H.
      all: inversion H; subst; clear H.
      all: destruct Hf as [Hf | Hf]; inversion Hf; subst; reflexivity. }
    clear H. rewrite Hresp. clear Hresp.
    run_in Hz. cases_in Hz.
    all: inversion Hz; subst; clear Hz.
    all: first
      [ left; split; reflexivity
      | right; split; [reflexivity |]; eexists; split; [reflexivity |];
        subst valid unset; cbv beta; simpl;
        repeat match goal with
               | Hc : ?c = _ |- context [if ?c then _ else _] => rewrite Hc
               end;
        try match goal with
            | Hq : String.eqb (FailureDomain ?z) "" = true |- _ =>
                apply String.eqb_eq in Hq; rewrite Hq
            end;
        repeat match goal with
               | Hc : ?c = _ |- context [if ?c then _ else _] => rewrite Hc
               end;
        reflexivity ].
Qed.

(** C9. In the answer of NodeGetInfo every zone found in the topology
    segments validates against the region of the node.  With zone support
    on, the resolved zone is written to the segments when it validates; when
    it does not, the segments stay as they were made, the topology key
    holding the empty string.  With zone support off they stay so as well. *)
Theorem node_info_topology_is_validated d s r s' t :
  NodeGetInfo handle lib d s = (r, s', t) ->
  forall resp, r = Ok resp ->
    let valid z := azureutils_IsValidAvailabilityZone lib z (Location (cloud d)) in
    let segments := Segments (AccessibleTopology resp) in
    let unset : gmap string string := {[ topologyKey lib := "" ]} in
    (forall key z, segments !! key = Some z -> z <> "" -> valid z = true)
    /\ (supportZone d = true ->
        exists z, resolved_zone t = Some z
          /\ (valid z = true ->
              segments = <[ consts_WellKnownTopologyKey lib := z ]>
                           (<[ topologyKey lib := z ]> unset))
          /\ (valid z = false -> segments = unset))
    /\ (supportZone d = false -> segments = unset).
Proof.
  intros H resp Hr. cbv zeta.
  destruct (NodeGetInfo_segments _ _ _ _ _ H _ Hr)
    as [[Hoff Hseg] | [Hon (z & Hz & Hseg)]].
  - split; [| split; [congruence | auto]].
    intros key z0 Hl Hne. rewrite Hseg in Hl. apply lookup_singleton_Some in Hl.
    destruct Hl as [_ Hl]. congruence.
  - split; [| split; [| congruence]].
    + intros key z0 Hl Hne. rewrite Hseg in Hl.
      destruct (azureutils_IsValidAvailabilityZone lib z (Location (cloud d))) eqn:Hv.
      * apply lookup_insert_Some in Hl. destruct Hl as [[_ <-] | [_ Hl]]; [exact Hv |].
        apply lookup_insert_Some in Hl. destruct Hl as [[_ <-] | [_ Hl]]; [exact Hv |].
        apply lookup_singleton_Some in Hl. destruct Hl as [_ Hl]. congruence.
      * apply lookup_singleton_Some in Hl. destruct Hl as [_ Hl]. congruence.
    + intros _. exists z. split; [exact Hz |].
      split; intros Hv; rewrite Hv in Hseg; exact Hseg.
Qed.

End NodeInfo.

(** An event that a called function of this file cannot have left. *)
Ltac not_here :=
  match goal with
  | Hd : getDevicePathWithLUN _ _ _ _ = (_, _, ?l), Hx : In _ ?l |- _ =>
      exfalso; revert Hx;
      apply (getDevicePathWithLUN_only_discovers _ _ _ _ _ _ _ _ Hd); reflexivity
  | Hm : ensureMountPoint _ _ _ _ = (_, _, ?l), Hx : In _ ?l |- _ =>
      exfalso; revert Hx;
      apply (ensureMountPoint_only_reconciles _ _ _ _ _ _ _ _ Hm); reflexivity
  end.

(** The occurrences of an event in the trace of a run that has been taken
    apart: one goal for every place where the event can be. *)
Ltac occurs H :=
  repeat match goal with
         | Hx : In _ (_ ++ _) |- _ => apply in_app_or in Hx; destruct Hx as [Hx | Hx]
         | Hx : In _ (_ :: _) |- _ =>
             apply in_inv in Hx; destruct Hx as [Hx | Hx]; [try discriminate Hx |]
         | Hx : In _ [] |- _ => destruct Hx
         | Hx : False |- _ => destruct Hx
         end;
  try not_here;
  try match goal with
      | Hx : @eq Event _ _ |- _ => inversion Hx; subst; clear Hx
      end.

(** An event is in a trace: it is among the calls of the body, or a called
    function left it. *)
Ltac here :=
  first [ assumption
        | apply in_eq
        | apply in_cons; here
        | apply in_or_app; first [left; here | right; here] ].

(** Every event of a trace is of a kind. *)
Ltac all_events :=
  repeat first
    [ exact I
    | assumption
    | apply Forall_nil
    | apply Forall_app; split
    | apply List.Forall_cons; [first [reflexivity | simpl; auto] |]
    | match goal with
      | Hd : getDevicePathWithLUN _ _ _ _ = (_, _, ?l) |- Forall ?P ?l =>
          refine (proj2 (getDevicePathWithLUN_within _ _ P _ _ _ _ _ _ Hd));
          intros [] He; try discriminate He; first [reflexivity | simpl; auto]
      | Hm : ensureMountPoint _ _ _ _ = (_, _, ?l) |- Forall ?P ?l =>
          refine (proj2 (ensureMountPoint_within _ _ P _ _ _ _ _ _ Hm));
          intros [] He; try discriminate He; first [reflexivity | simpl; auto]
      end ].

(** The steps of a run, read off the runs of its statements. *)
Ltac fill :=
  repeat match goal with
         | |- exists _, _ => eexists
         | |- _ /\ _ => split
         | |- getDevicePathWithLUN _ _ _ _ = _ => eassumption
         | |- ensureMountPoint _ _ _ _ = _ => eassumption
         | |- ensureBlockTargetFile _ _ _ _ = _ => eassumption
         | |- match _ with _ => _ end => progress cbv beta iota
         | |- @eq (list Event) _ _ =>
             first [reflexivity
                   | repeat rewrite app_nil_r; repeat rewrite <- app_assoc; reflexivity]
         | |- @eq (result _) _ _ => reflexivity
         end.

(** ** Mount points, device paths and target files *)

Section MountPoints.

Context {W : Type}.
Variable handle : forall A : Type, Call A -> W -> A * W.
Variable lib : Lib.

Lemma ensureMountPoint_verdict target s r s' t :
  ensureMountPoint handle lib target s = (r, s', t) ->
  (r = (true, None) <-> In (Ev_ReadDir target None) t)
  /\ (r = (false, None) ->
      if String.eqb (GOOS lib) "windows" then Forall (fun e => is_probe e = true) t
      else In (Ev_MakeDir target None) t)
  /\ (forall answer, In (Ev_MakeDir target answer) t ->
        String.eqb (GOOS lib) "windows" = false /\ r = (false, answer))
  /\ (r = (false, None) -> forall x answer, ~ In (Ev_ReadDir x answer) t).
Proof.
  intros H. unfold ensureMountPoint in H. run_in H. cases_in H.
  all: inversion H; subst; clear H; decided.
  all: split; [split; intros Hx; [try discriminate Hx; simpl; tauto | in_trace Hx; reflexivity] |].
  all: split; [intros Hx; try discriminate Hx; simpl; try tauto; repeat constructor |].
  all: split; [intros answer Hx; in_trace Hx; auto |].
  all: intros Hr x answer Hx; try discriminate Hr; in_trace Hx.
Qed.

Lemma ensureMountPoint_deemed_mounted target s r s' t :
  ensureMountPoint handle lib target s = (r, s', t) ->
  (forall answer, In (Ev_ReadDir target answer) t ->
     (exists err, In (Ev_IsLikelyNotMountPoint target (false, err)) t
                  /\ match err with Some e => os_IsNotExist lib e = true | None => True end)
     \/ In (Ev_IsCorruptedDir target true) t
     \/ (exists mountList targetAbs,
           In (Ev_List (mountList, None)) t /\ In (Ev_Abs target (targetAbs, None)) t
           /\ existsb (fun mountPoint => String.eqb (Path mountPoint) targetAbs) mountList
              = true))
  /\ (forall answer, In (Ev_Unmount target answer) t ->
        exists err, In (Ev_ReadDir target (Some err)) t)
  /\ Forall (fun e => match e with
                      | Ev_ReadDir x _ | Ev_Unmount x _ | Ev_MakeDir x _ => x = target
                      | _ => True
                      end) t.
Proof.
  intros H. unfold ensureMountPoint in H. run_in H. cases_in H.
  all: inversion H; subst; clear H; decided; subst.
  all: split;
    [intros answer Hx; in_trace Hx;
     first [ solve [left; eexists; split; [simpl; eauto 10 | simpl; auto]]
           | solve [right; left; simpl; tauto]
           | solve [right; right; do 2 eexists;
                    split; [simpl; eauto 10 | split; [simpl; eauto 10 | assumption]]] ] |].
  all: split; [intros answer Hx; in_trace Hx; simpl; eauto 12 |].
  all: repeat constructor.
Qed.

(** X1. What ensureMountPoint reports.  It reports a mounted target without
    an error exactly when it has read the directory of the target; a target
    it reports as not mounted, without an error, has not been read at all,
    and its directory has been made, except on Windows, where only the
    probes have run; and the directory is made on no other occasion: a
    MakeDir never happens on Windows, and its answer is the error returned
    with "not mounted". *)
Theorem mount_point_verdict target s r s' t :
  ensureMountPoint handle lib target s = (r, s', t) ->
  (r = (true, None) <-> In (Ev_ReadDir target None) t)
  /\ (r = (false, None) ->
      if String.eqb (GOOS lib) "windows" then Forall (fun e => is_probe e = true) t
      else In (Ev_MakeDir target None) t)
  /\ (forall answer, In (Ev_MakeDir target answer) t ->
        String.eqb (GOOS lib) "windows" = false /\ r = (false, answer))
  /\ (r = (false, None) -> forall x answer, ~ In (Ev_ReadDir x answer) t).
Proof. exact (ensureMountPoint_verdict target s r s' t). Qed.

(** X2. ensureMountPoint touches a target only when it has reason to.  It
    reads the directory of the target only when the target is deemed
    mounted: the mounter said so (with no error, or with a not-exist error,
    which is ignored), or the directory is corrupted, or the absolute path
    of the target is in the mount list.  It unmounts the target only after
    that read has failed.  And it reads, unmounts and makes no other path
    than the target. *)
Theorem mount_point_is_touched_with_reason target s r s' t :
  ensureMountPoint handle lib target s = (r, s', t) ->
  (forall answer, In (Ev_ReadDir target answer) t ->
     (exists err, In (Ev_IsLikelyNotMountPoint target (false, err)) t
                  /\ match err with Some e => os_IsNotExist lib e = true | None => True end)
     \/ In (Ev_IsCorruptedDir target true) t
     \/ (exists mountList targetAbs,
           In (Ev_List (mountList, None)) t /\ In (Ev_Abs target (targetAbs, None)) t
           /\ existsb (fun mountPoint => String.eqb (Path mountPoint) targetAbs) mountList
              = true))
  /\ (forall answer, In (Ev_Unmount target answer) t ->
        exists err, In (Ev_ReadDir target (Some err)) t)
  /\ Forall (fun e => match e with
                      | Ev_ReadDir x _ | Ev_Unmount x _ | Ev_MakeDir x _ => x = target
                      | _ => True
                      end) t.
Proof. exact (ensureMountPoint_deemed_mounted target s r s' t). Qed.

(** A resolution without an error names a device node that a poll saw. *)
Lemma getDevicePathWithLUN_resolved lunStr s p s' t :
  getDevicePathWithLUN handle lib lunStr s = ((p, None), s', t) ->
  p <> ""
  /\ exists lun, azureutils_GetDiskLUN lib lunStr = (lun, None)
                 /\ In (Ev_findDiskByLun lun (p, None)) t.
Proof.
  intros H. apply getDevicePathWithLUN_shape in H.
  destruct (azureutils_GetDiskLUN lib lunStr) as [lun [e |]].
  - destruct H as [H _]. discriminate H.
  - destruct H as (k & p' & _ & _ & [(Hp & Hr & ->) | [(e & Hr & _) | (_ & Hr & _)]]);
      inversion Hr; subst.
    split; [exact Hp |]. exists lun. split; [reflexivity |].
    right. apply in_or_app. right. left. reflexivity.
Qed.

Lemma getDevicePathWithLUN_in_time lunStr s r s' t :
  getDevicePathWithLUN handle lib lunStr s = (r, s', t) ->
  0 <= elapsed t <= 2 * time_Minute.
Proof.
  intros H. apply getDevicePathWithLUN_shape in H.
  destruct (azureutils_GetDiskLUN lib lunStr) as [lun [e |]].
  - destruct H as [_ ->]. simpl. unfold time_Minute, time_Second. lia.
  - destruct H as (k & p' & Hk & -> & _). unfold time_Minute, time_Second. lia.
Qed.

(** X3. What the callers of getDevicePathWithLUN can rely on.  A device path
    returned without an error is not empty, and a poll of the slot the LUN
    parses to has seen it; the resolution never sleeps longer than the two
    minutes of its deadline; it makes no call but those of device
    discovery; and it leaves the lock table and the success flag of the
    handler alone. *)
Theorem device_path_contract lunStr s r s' t :
  getDevicePathWithLUN handle lib lunStr s = (r, s', t) ->
  (forall devicePath, r = (devicePath, None) ->
     devicePath <> ""
     /\ exists lun, azureutils_GetDiskLUN lib lunStr = (lun, None)
                    /\ In (Ev_findDiskByLun lun (devicePath, None)) t)
  /\ 0 <= elapsed t <= 2 * time_Minute
  /\ Forall (fun e => is_discovery_event e = true) t
  /\ volumeLocks s' = volumeLocks s
  /\ isOperationSucceeded s' = isOperationSucceeded s.
Proof.
  intros H. split; [| split; [| split]].
  - intros devicePath ->. exact (getDevicePathWithLUN_resolved _ _ _ _ _ H).
  - exact (getDevicePathWithLUN_in_time _ _ _ _ _ H).
  - exact (proj2 (getDevicePathWithLUN_discovers handle lib _ _ _ _ _ H)).
  - exact (getDevicePathWithLUN_steady handle lib _ _ _ _ _ H).
Qed.

Lemma ensureBlockTargetFile_runs target s r s' t :
  ensureBlockTargetFile handle lib target s = (r, s', t) ->
  let parentDir := filepath_Dir lib target in
  exists s1 mnt err tm,
    ensureMountPoint handle lib parentDir s = ((mnt, err), s1, tm)
    /\ match err with
       | Some err =>
           t = tm
           /\ r = Some (status_Errorf Internal "could not mount target %q: %v"
                          [ArgString parentDir; ArgError err])
       | None =>
           exists created,
             match created with
             | None => t = tm ++ [Ev_MakeFile target None] /\ r = None
             | Some err =>
                 exists removed,
                   t = tm ++ [Ev_MakeFile target (Some err); Ev_Remove target removed]
                   /\ r = Some match removed with
                               | Some removeErr =>
                                   status_Errorf Internal
                                     "could not remove mount target %q: %v"
                                     [ArgString target; ArgError removeErr]
                               | None =>
                                   status_Errorf Internal "could not create file %q: %v"
                                     [ArgString target; ArgError err]
                               end
             end
       end.
Proof.
  intros H parentDir. subst parentDir.
  unfold ensureBlockTargetFile in H. cbv beta zeta in H. exec H.
  all: do 4 eexists; split; [eassumption |]; cbv beta iota.
  - split; [rewrite app_nil_r; reflexivity | reflexivity].
  - exists (Some e). exists (Some e0). split; reflexivity.
  - exists (Some e). exists None. split; reflexivity.
  - exists None. split; reflexivity.
Qed.

(** X4. What ensureBlockTargetFile does: it reconciles the parent directory
    of the target as a mount point, and an error of that ends it before any
    file is made; otherwise it makes the target file, and returns no error
    exactly when the file was made; when making the file fails it removes
    the target and returns the error of the removal, or, when the removal
    worked, the error of the creation. *)
Theorem block_target_file_steps target s r s' t :
  ensureBlockTargetFile handle lib target s = (r, s', t) ->
  let parentDir := filepath_Dir lib target in
  exists s1 mnt err tm,
    ensureMountPoint handle lib parentDir s = ((mnt, err), s1, tm)
    /\ match err with
       | Some err =>
           t = tm
           /\ r = Some (status_Errorf Internal "could not mount target %q: %v"
                          [ArgString parentDir; ArgError err])
       | None =>
           exists created,
             match created with
             | None => t = tm ++ [Ev_MakeFile target None] /\ r = None
             | Some err =>
                 exists removed,
                   t = tm ++ [Ev_MakeFile target (Some err); Ev_Remove target removed]
                   /\ r = Some match removed with
                               | Some removeErr =>
                                   status_Errorf Internal
                                     "could not remove mount target %q: %v"
                                     [ArgString target; ArgError removeErr]
                               | None =>
                                   status_Errorf Internal "could not create file %q: %v"
                                     [ArgString target; ArgError err]
                               end
             end
       end.
Proof. exact (ensureBlockTargetFile_runs target s r s' t). Qed.

End MountPoints.

(** ** Publish and Unpublish *)

Section PublishingMore.

Context {W : Type}.
Variable handle : forall A : Type, Call A -> W -> A * W.
Variable lib : Lib.

(** The runs of Publish, step by step. *)
Lemma NodePublishVolume_runs d req s r s' t :
  NodePublishVolume handle lib d req s = (r, s', t) ->
  let volumeContext := NodePublishVolumeRequest.VolumeContext req in
  let source := NodePublishVolumeRequest.StagingTargetPath req in
  let target := NodePublishVolumeRequest.TargetPath req in
  let mountOptions := publish_mount_options req in
  let mounted source rest before :=
    exists answer,
      rest = before ++ [Ev_Mount source target "" mountOptions answer]
      /\ r = match answer with
             | Some err =>
                 Err (status_Errorf Internal "could not mount %q at %q: %v"
                        [ArgString source; ArgString target; ArgError err])
             | None => Ok Build_NodePublishVolumeResponse
             end in
  (t = [] /\ s' = s
   /\ (exists e, r = Err e /\ code_of e = Some InvalidArgument)
   /\ (NodePublishVolumeRequest.VolumeId req = ""
       \/ NodePublishVolumeRequest.VolumeCapability req = None
       \/ (exists e, snd (azureutils_GetMaxShares lib volumeContext) = Some e)
       \/ (exists volumeCapability e,
             NodePublishVolumeRequest.VolumeCapability req = Some volumeCapability
             /\ azureutils_IsValidVolumeCapabilities lib [volumeCapability]
                  (fst (azureutils_GetMaxShares lib volumeContext)) = Some e)
       \/ source = "" \/ target = ""))
  \/ (exists volumeCapability prepared rest,
        NodePublishVolumeRequest.VolumeCapability req = Some volumeCapability
        /\ t = Ev_preparePublishPath target prepared :: rest
        /\ match prepared with
           | Some err =>
               rest = []
               /\ r = Err (StatusError Internal
                             (Sprintf "Target path could not be prepared: %v"
                                [ArgError err]))
           | None =>
               match AccessType volumeCapability with
               | VolumeCapability_Block _ =>
                   match NodePublishVolumeRequest.PublishContext req !! consts_LUN lib with
                   | None =>
                       rest = []
                       /\ r = Err (status_Error InvalidArgument "lun not provided")
                   | Some lun =>
                       exists s1 devicePath err s2 td,
                         getDevicePathWithLUN handle lib lun s1 = ((devicePath, err), s2, td)
                         /\ match err with
                            | Some err =>
                                rest = td
                                /\ r = Err (status_Errorf Internal
                                              "failed to find device path with lun %s. %v"
                                              [ArgString lun; ArgError err])
                            | None =>
                                exists made s3 tf,
                                  ensureBlockTargetFile handle lib target s2 = (made, s3, tf)
                                  /\ match made with
                                     | Some err =>
                                         rest = td ++ tf
                                         /\ r = Err (status_Errorf Internal "%v"
                                                       [ArgError err])
                                     | None => mounted devicePath rest (td ++ tf)
                                     end
                            end
                   end
               | VolumeCapability_Mount _ =>
                   exists s1 mnt err s2 tm,
                     ensureMountPoint handle lib target s1 = ((mnt, err), s2, tm)
                     /\ match err with
                        | Some err =>
                            rest = tm
                            /\ r = Err (status_Errorf Internal
                                          "could not mount target %q: %v"
                                          [ArgString target; ArgError err])
                        | None =>
                            if mnt then rest = tm /\ r = Ok Build_NodePublishVolumeResponse
                            else mounted source rest tm
                        end
               | AccessType_nil => mounted source rest []
               end
           end).
Proof.
  intros H volumeContext source target mountOptions mounted.
  subst volumeContext source target mountOptions mounted.
  unfold NodePublishVolume in H. cbv beta zeta in H. exec H.
  all: try solve
    [ left; split; [reflexivity |]; split; [reflexivity |];
      split; [eexists; split; reflexivity |];
      first
        [ left; apply len_zero; assumption
        | right; left; reflexivity
        | right; right; left;
          try match goal with Hp : azureutils_GetMaxShares _ _ = _ |- _ => rewrite Hp end; simpl;
          match goal with Hn : negb (is_nil ?o) = true |- _ => destruct o; simpl in Hn; [eauto | discriminate Hn] end
        | right; right; right; left; do 2 eexists; split; [reflexivity |];
          try match goal with Hp : azureutils_GetMaxShares _ _ = _ |- _ => rewrite Hp end;
          simpl; eassumption
        | right; right; right; right; left; apply len_zero; assumption
        | right; right; right; right; right; apply len_zero; assumption ] ].
  all: right; do 3 eexists; split; [reflexivity |]; split; [reflexivity |].
  all: cbv beta iota;
    repeat match goal with
           | Ha : AccessType _ = _ |- _ => rewrite Ha
           | Hl : _ !! consts_LUN lib = _ |- _ => rewrite Hl
           end.
  all: try solve [split; reflexivity].
  all: fill.
Qed.


Lemma NodePublishVolume_steady d req : steady (NodePublishVolume handle lib d req).
Proof.
  unfold NodePublishVolume. repeat steady_step.
  all: first [apply getDevicePathWithLUN_steady | apply ensureBlockTargetFile_steady
             | apply ensureMountPoint_steady].
Qed.

Lemma ensureBlockTargetFile_calls target :
  within (fun e => is_host_call e = true) (ensureBlockTargetFile handle lib target).
Proof.
  unfold ensureBlockTargetFile. repeat within_step. apply ensureMountPoint_calls.
Qed.

Lemma NodePublishVolume_calls d req :
  within (fun e => is_host_call e = true) (NodePublishVolume handle lib d req).
Proof.
  unfold NodePublishVolume. repeat within_step.
  all: first [apply getDevicePathWithLUN_calls | apply ensureBlockTargetFile_calls
             | apply ensureMountPoint_calls].
Qed.

Lemma NodeUnpublishVolume_steady d req : steady (NodeUnpublishVolume handle lib d req).
Proof. unfold NodeUnpublishVolume. repeat steady_step. Qed.

Lemma NodeUnpublishVolume_calls d req :
  within (fun e => is_host_call e = true) (NodeUnpublishVolume handle lib d req).
Proof. unfold NodeUnpublishVolume. repeat within_step. Qed.

(** X6. Publish and Unpublish take no lock and observe no metric: whatever
    the lock table holds, also the lock of their own volume, they leave it
    and the success flag as they found them, and their traces consist of
    calls to the host alone. *)
Theorem publish_and_unpublish_take_no_lock :
  (forall d req s r s' t,
     NodePublishVolume handle lib d req s = (r, s', t) ->
     volumeLocks s' = volumeLocks s
     /\ isOperationSucceeded s' = isOperationSucceeded s
     /\ Forall (fun e => is_host_call e = true) t)
  /\ (forall d req s r s' t,
        NodeUnpublishVolume handle lib d req s = (r, s', t) ->
        volumeLocks s' = volumeLocks s
        /\ isOperationSucceeded s' = isOperationSucceeded s
        /\ Forall (fun e => is_host_call e = true) t).
Proof.
  split; intros d req s r s' t H.
  - destruct (NodePublishVolume_steady _ _ _ _ _ _ H) as [Hl Hf].
    destruct (NodePublishVolume_calls _ _ _ _ _ _ H) as [_ Hc]. auto.
  - destruct (NodeUnpublishVolume_steady _ _ _ _ _ _ H) as [Hl Hf].
    destruct (NodeUnpublishVolume_calls _ _ _ _ _ _ H) as [_ Hc]. auto.
Qed.

(** X7. Publish of a mount volume onto a target that is mounted already and
    can be read: the run returns success and mounts nothing. *)
Theorem publish_of_mounted_target d req volumeCapability m s r s' t :
  NodePublishVolumeRequest.VolumeCapability req = Some volumeCapability ->
  AccessType volumeCapability = VolumeCapability_Mount m ->
  NodePublishVolume handle lib d req s = (r, s', t) ->
  In (Ev_ReadDir (NodePublishVolumeRequest.TargetPath req) None) t ->
  r = Ok Build_NodePublishVolumeResponse
  /\ forall source target fstype options answer,
       ~ In (Ev_Mount source target fstype options answer) t.
Proof.
  intros Hcap Hmount H Hin.
  destruct (NodePublishVolume_runs _ _ _ _ _ _ H)
    as [(-> & _) | (vc & prepared & rest & Hvc & -> & Hrest)]; [destruct Hin |].
  rewrite Hcap in Hvc. inversion Hvc; subst vc; clear Hvc.
  destruct Hin as [Hin | Hin]; [discriminate Hin |].
  destruct prepared as [err |]; [destruct Hrest as [-> _]; destruct Hin |].
  rewrite Hmount in Hrest.
  destruct Hrest as (s1 & mnt & err & s2 & tm & Hm & Hrest).
  destruct (ensureMountPoint_verdict _ _ _ _ _ _ _ Hm) as (Hmnt & _ & _ & _).
  assert (Hno : forall e, is_reconciliation_event e = false -> ~ In e tm)
    by (intros e He; exact (ensureMountPoint_only_reconciles _ _ _ _ _ _ _ e Hm He)).
  assert (Hread : In (Ev_ReadDir (NodePublishVolumeRequest.TargetPath req) None) tm).
  { destruct err as [err |]; [destruct Hrest as [-> _]; exact Hin |].
    destruct mnt; [destruct Hrest as [-> _]; exact Hin |].
    destruct Hrest as (answer & -> & _).
    apply in_app_or in Hin. destruct Hin as [Hin | [Hin | []]]; [exact Hin | discriminate Hin]. }
  apply Hmnt in Hread. inversion Hread; subst mnt err.
  destruct Hrest as [-> ->]. split; [reflexivity |].
  intros source target fstype options answer [Hx | Hx]; [discriminate Hx |].
  revert Hx. apply Hno. reflexivity.
Qed.

(** The runs of Unpublish. *)
Lemma NodeUnpublishVolume_runs d req s r s' t :
  NodeUnpublishVolume handle lib d req s = (r, s', t) ->
  let volumeID := NodeUnpublishVolumeRequest.VolumeId req in
  let targetPath := NodeUnpublishVolumeRequest.TargetPath req in
  let extensiveMountPointCheck := negb (String.eqb (GOOS lib) "windows") in
  (t = [] /\ s' = s /\ (volumeID = "" \/ targetPath = "")
   /\ exists e, r = Err e /\ code_of e = Some InvalidArgument)
  \/ (volumeID <> "" /\ targetPath <> ""
      /\ exists answer,
           fst (handle _ (CleanupMountPoint targetPath extensiveMountPointCheck) (world s))
             = answer
           /\ t = [Ev_CleanupMountPoint targetPath extensiveMountPointCheck answer]
           /\ r = match answer with
                  | Some err =>
                      Err (status_Errorf Internal "failed to unmount target %q: %v"
                             [ArgString targetPath; ArgError err])
                  | None => Ok Build_NodeUnpublishVolumeResponse
                  end).
Proof.
  intros H volumeID targetPath extensiveMountPointCheck.
  subst volumeID targetPath extensiveMountPointCheck.
  unfold NodeUnpublishVolume in H. cbv beta zeta in H. exec H.
  all: first
    [ solve [left; split; [reflexivity |]; split; [reflexivity |];
             split; [first [left; apply len_zero; assumption
                           | right; apply len_zero; assumption] |];
             eexists; split; reflexivity]
    | right;
      split; [apply len_positive; assumption |];
      split; [apply len_positive; assumption |];
      unfold negb; eexists; split; [match goal with
                       | Hc : handle _ (CleanupMountPoint _ _) _ = _ |- _ =>
                           rewrite Hc; reflexivity
                       end |];
      split; reflexivity ].
Qed.

(** X8. The runs of Unpublish.  A request without a volume ID or without a
    target path is refused without a trace.  Any other request makes one
    call, the cleanup of the mount point at the target path, with the
    extensive mount-point check everywhere but on Windows; the request
    succeeds exactly when that call reports no error, and fails with an
    Internal error that carries the error of the call when it does. *)
Theorem unpublish_steps d req s r s' t :
  NodeUnpublishVolume handle lib d req s = (r, s', t) ->
  let volumeID := NodeUnpublishVolumeRequest.VolumeId req in
  let targetPath := NodeUnpublishVolumeRequest.TargetPath req in
  let extensiveMountPointCheck := negb (String.eqb (GOOS lib) "windows") in
  (t = [] /\ s' = s /\ (volumeID = "" \/ targetPath = "")
   /\ exists e, r = Err e /\ code_of e = Some InvalidArgument)
  \/ (volumeID <> "" /\ targetPath <> ""
      /\ exists answer,
           fst (handle _ (CleanupMountPoint targetPath extensiveMountPointCheck) (world s))
             = answer
           /\ t = [Ev_CleanupMountPoint targetPath extensiveMountPointCheck answer]
           /\ r = match answer with
                  | Some err =>
                      Err (status_Errorf Internal "failed to unmount target %q: %v"
                             [ArgString targetPath; ArgError err])
                  | None => Ok Build_NodeUnpublishVolumeResponse
                  end).
Proof. exact (NodeUnpublishVolume_runs d req s r s' t). Qed.

End PublishingMore.

(** ** Expand *)

Section ExpandMore.

Context {W : Type}.
Variable handle : forall A : Type, Call A -> W -> A * W.
Variable lib : Lib.

(** X9. The runs of Expand, step by step; the lock table is left as it was
    found.  A request without a volume ID or a volume path is refused
    without a trace.  Otherwise the host is asked whether the path is a
    device, and an error of that query is a NotFound failure.  A volume that
    is a block device, or whose capability says raw block, is answered with
    success and no capacity after, at most, a rescan of all devices whose
    error is ignored.  For any other volume the lock is tried, and a held
    lock is an Aborted failure; under the lock the device of the mount path
    is looked up, an error of which is a NotFound failure; the device is
    rescanned when online resize is on, resized, and measured, at the volume
    path instead of the device in Windows host-process mode; a failed
    measurement is an Internal failure, and otherwise the rounded sizes
    decide.  The metric is observed as succeeded exactly for the runs that
    return the measured size. *)
Theorem expand_steps d req s r s' t :
  NodeExpandVolume handle lib d req s = (r, s', t) ->
  let volumeID := NodeExpandVolumeRequest.VolumeId req in
  let volumePath := NodeExpandVolumeRequest.VolumePath req in
  let requestGiB :=
    RoundUpGiB (GetRequiredBytes (NodeExpandVolumeRequest.CapacityRange req)) in
  let answered := fst (handle _ (hostUtil_PathIsDevice volumePath) (world s)) in
  volumeLocks s' = volumeLocks s
  /\ ((t = [] /\ s' = s /\ (volumeID = "" \/ volumePath = "")
       /\ exists e, r = Err e /\ code_of e = Some InvalidArgument)
      \/ (exists isDevice err,
            volumeID <> "" /\ volumePath <> "" /\ answered = (isDevice, Some err)
            /\ t = [Ev_PathIsDevice volumePath (isDevice, Some err)]
            /\ r = Err (status_Errorf NotFound
                          "failed to determine device path for volumePath [%v]: %v"
                          [ArgString volumePath; ArgError err]))
      \/ (exists isDevice,
            volumeID <> "" /\ volumePath <> "" /\ answered = (isDevice, None)
            /\ expand_as_block req isDevice = true
            /\ r = Ok {| CapacityBytes := 0 |}
            /\ ((enableDiskOnlineResize d = true
                 /\ exists answer,
                      t = [Ev_PathIsDevice volumePath (isDevice, None);
                           Ev_rescanAllVolumes answer])
                \/ (enableDiskOnlineResize d = false
                    /\ t = [Ev_PathIsDevice volumePath (isDevice, None)])))
      \/ (volumeID <> "" /\ volumePath <> "" /\ answered = (false, None)
          /\ expand_as_block req false = false
          /\ (volumeID ∈ volumeLocks s)
          /\ r = Err (status_Errorf Aborted volumeOperationAlreadyExistsFmt
                        [ArgString volumeID])
          /\ t = [Ev_PathIsDevice volumePath (false, None);
                  Ev_TryAcquire volumeID false;
                  Ev_Observe "node_expand_volume" false volumeID])
      \/ (volumeID <> "" /\ volumePath <> "" /\ answered = (false, None)
          /\ expand_as_block req false = false
          /\ (volumeID ∉ volumeLocks s)
          /\ exists tb succeeded,
               t = Ev_PathIsDevice volumePath (false, None)
                     :: Ev_TryAcquire volumeID true
                     :: tb ++ [Ev_Release volumeID;
                               Ev_Observe "node_expand_volume" succeeded volumeID]
               /\ ((exists devicePath err,
                      tb = [Ev_getDevicePathWithMountPath volumePath (devicePath, Some err)]
                      /\ succeeded = false
                      /\ r = Err (status_Errorf NotFound "%v" [ArgError err]))
                   \/ (exists devicePath rescan answer gotBlockSizeBytes measureErr,
                         let measuredPath :=
                           if String.eqb (GOOS lib) "windows" && enableWindowsHostProcess d
                           then volumePath else devicePath in
                         tb = Ev_getDevicePathWithMountPath volumePath (devicePath, None)
                                :: rescan
                                ++ [Ev_resizeVolume devicePath volumePath answer;
                                    Ev_getBlockSizeBytes measuredPath
                                      (gotBlockSizeBytes, measureErr)]
                         /\ ((enableDiskOnlineResize d = true
                              /\ exists rescanned, rescan = [Ev_rescanVolume devicePath rescanned])
                             \/ (enableDiskOnlineResize d = false /\ rescan = []))
                         /\ match measureErr with
                            | Some err =>
                                succeeded = false
                                /\ r = Err (StatusError Internal
                                              (Sprintf
                                                 "could not get size of block volume at path %s: %v"
                                                 [ArgString measuredPath; ArgError err]))
                            | None =>
                                if RoundUpGiB gotBlockSizeBytes <? requestGiB then
                                  succeeded = false
                                  /\ r = Err
                                           match answer with
                                           | Some err =>
                                               status_Errorf Internal
                                                 "could not resize volume %q (%q):  %v"
                                                 [ArgString volumeID; ArgString devicePath;
                                                  ArgError err]
                                           | None =>
                                               status_Errorf Internal
                                                 "resize requested for %v, but after resizing volume size was %v"
                                                 [ArgInt requestGiB;
                                                  ArgInt (RoundUpGiB gotBlockSizeBytes)]
                                           end
                                else
                                  succeeded = true
                                  /\ r = Ok {| CapacityBytes := gotBlockSizeBytes |}
                            end)))).
Proof. exact (NodeExpandVolume_runs handle lib d req s r s' t). Qed.

End ExpandMore.

(** ** The handlers on the simulated node *)

(** A run, split into its value, its final state and its trace. *)
Lemma run_eq {A B C : Type} (p : A * B * C) : p = (fst (fst p), snd (fst p), snd p).
Proof. destruct p as [[a b] c]. reflexivity. Qed.


(** 4,500,000,000 bytes requested and 5 GiB measured after a resize that
    worked: success with 5 GiB. *)
Lemma expand_rounds_request_up_witness :
  fst (fst (NodeExpandVolume Sim.handle Sim.lib Sim.driver
              (Sim.expand_request 4500000000)
              (Sim.start (Sim.resized_to (5 * GiB)) ∅)))
  = Ok {| CapacityBytes := 5 * GiB |}.
Proof.
  refine (proj1 (proj2 (proj2 (expand_rounds_request_up Sim.handle Sim.lib)) _ _ _ _ _ _
                   (run_eq _) "/dev/sdc" (5 * GiB) _) _).
  - vm_compute. tauto.
  - vm_compute. discriminate.
Defined.

(** The same request with 4 GiB measured fails with the generic error. *)
Example expand_four_gib_measured :
  fst (fst (NodeExpandVolume Sim.handle Sim.lib Sim.driver
              (Sim.expand_request 4500000000)
              (Sim.start (Sim.resized_to (4 * GiB)) ∅)))
  = Err (status_Errorf Internal
           "resize requested for %v, but after resizing volume size was %v"
           [ArgInt 5; ArgInt 4]).
Proof. vm_compute. reflexivity. Qed.

(** Stage of vol-1 while another operation holds its lock: Aborted. *)
Lemma volume_lock_discipline_witness :
  fst (fst (NodeStageVolume Sim.handle Sim.lib Sim.driver
              (Sim.stage_request (Sim.mount_capability "ext4" []) {[ "LUN" := "3" ]} ∅)
              (Sim.start Sim.quiet {[ "vol-1" ]})))
  = Err (status_Errorf Aborted volumeOperationAlreadyExistsFmt [ArgString "vol-1"]).
Proof.
  destruct (proj1 (volume_lock_discipline Sim.handle Sim.lib) _ _ _ _ _ _
              (run_eq (NodeStageVolume Sim.handle Sim.lib Sim.driver
                         (Sim.stage_request (Sim.mount_capability "ext4" [])
                            {[ "LUN" := "3" ]} ∅)
                         (Sim.start Sim.quiet {[ "vol-1" ]}))))
    as (_ & _ & _ & _ & _ & Hvalid).
  refine (proj1 (proj1 (Hvalid (Sim.mount_capability "ext4" []) 1 _ _ _ _ _) _)).
  - discriminate.
  - discriminate.
  - reflexivity.
  - reflexivity.
  - reflexivity.
  - apply elem_of_singleton. reflexivity.
Defined.

(** C1 as stated fails for Expand: on a volume whose path is a block device
    the handler takes no lock.  With the lock of vol-1 held by another
    operation it rescans the devices of the node and returns success. *)
Lemma expand_of_block_device_ignores_lock :
  let s := Sim.start Sim.block_volume {[ "vol-1" ]} in
  let run := NodeExpandVolume Sim.handle Sim.lib Sim.driver (Sim.expand_request GiB) s in
  ("vol-1" ∈ volumeLocks s)
  /\ fst (fst run) = Ok {| CapacityBytes := 0 |}
  /\ snd run = [Ev_PathIsDevice "/staging/vol-1" (true, None); Ev_rescanAllVolumes None].
Proof.
  split; [apply elem_of_singleton; reflexivity |].
  split; vm_compute; reflexivity.
Qed.

(** Slot 3, the device node shows up after five seconds: five polls find
    nothing, the sixth returns the path, five seconds after the first. *)
Lemma device_resolution_polls_witness :
  let run := getDevicePathWithLUN Sim.handle Sim.lib "3" (Sim.start Sim.late_disk ∅) in
  exists (k : nat) (p : string),
    (k <= 120)%nat
    /\ elapsed (snd run) = Z.of_nat k * time_Second
    /\ ((p <> "" /\ fst (fst run) = (p, None)
         /\ snd run = Ev_scsiHostRescan :: misses 3 k ++ [Ev_findDiskByLun 3 (p, None)])
        \/ (exists e,
              fst (fst run)
              = (p, Some (fmt_Errorf "azureDisk - findDiskByLun(%v) failed with error(%s)"
                            [ArgInt 3; ArgError e]))
              /\ snd run = Ev_scsiHostRescan :: misses 3 k ++ [Ev_findDiskByLun 3 (p, Some e)])
        \/ (k = 120%nat /\ fst (fst run) = ("", Some ErrWaitTimeout)
            /\ snd run = Ev_scsiHostRescan :: misses 3 k ++ [Ev_findDiskByLun 3 ("", None)])).
Proof.
  exact (device_resolution_polls Sim.handle Sim.lib "3" _ _ _ _ (run_eq _)).
Defined.

Example device_found_after_five_seconds :
  let run := getDevicePathWithLUN Sim.handle Sim.lib "3" (Sim.start Sim.late_disk ∅) in
  fst (fst run) = ("/dev/sdc", None) /\ elapsed (snd run) = 5 * time_Second.
Proof. split; vm_compute; reflexivity. Qed.

(** C6 as stated fails: a failure can come before the deadline.  When the
    poll itself reports an error, the resolution fails at the first poll,
    no time having passed, although no device ever appeared. *)
Lemma device_resolution_fails_before_deadline :
  let run := getDevicePathWithLUN Sim.handle Sim.lib "3" (Sim.start Sim.unreadable_bus ∅) in
  fst (fst run)
  = ("", Some (fmt_Errorf "azureDisk - findDiskByLun(%v) failed with error(%s)"
                 [ArgInt 3; ArgError (HostError "cannot read /sys/bus/scsi/devices")]))
  /\ snd run = [Ev_scsiHostRescan;
                Ev_findDiskByLun 3 ("", Some (HostError "cannot read /sys/bus/scsi/devices"))]
  /\ elapsed (snd run) = 0
  /\ elapsed (snd run) < 2 * time_Minute.
Proof. repeat split; vm_compute; reflexivity. Qed.

(** A valid mount request for vol-1 without a LUN, the lock being free. *)
Lemma stage_requires_lun_witness :
  fst (fst (NodeStageVolume Sim.handle Sim.lib Sim.driver
              (Sim.stage_request (Sim.mount_capability "ext4" []) ∅ ∅)
              (Sim.start Sim.quiet ∅)))
  = Err (status_Error InvalidArgument "lun not provided").
Proof.
  refine (proj2 (proj2 (proj2
            (stage_requires_lun Sim.handle Sim.lib Sim.driver _ _ _ _ _ _ (run_eq _))))
            _ _ (Sim.mount_capability "ext4" []) 1 _ _ _ _).
  - reflexivity.
  - discriminate.
  - discriminate.
  - reflexivity.
  - reflexivity.
  - reflexivity.
  - apply not_elem_of_empty.
Defined.

(** A raw-block request for vol-1 at slot 3 on a quiet node succeeds. *)
Lemma stage_of_block_volume_witness :
  fst (fst (NodeStageVolume Sim.handle Sim.lib Sim.driver
              (Sim.stage_request Sim.block_capability {[ "LUN" := "3" ]} ∅)
              (Sim.start Sim.quiet ∅)))
  = Ok Build_NodeStageVolumeResponse.
Proof.
  refine (proj1 (proj2 (proj2
            (stage_of_block_volume Sim.handle Sim.lib Sim.driver _
               Sim.block_capability (Some Build_BlockVolume) _ _ _ _ _ _ (run_eq _))))
            3 "/dev/sdc" _ _ _).
  - reflexivity.
  - reflexivity.
  - vm_compute. tauto.
  - discriminate.
  - left. reflexivity.
Defined.

(** C5 as stated fails: a raw-block request is not answered with success
    at once.  Without a LUN in its publish context it fails. *)
Lemma stage_of_block_volume_without_lun_fails :
  fst (fst (NodeStageVolume Sim.handle Sim.lib Sim.driver
              (Sim.stage_request Sim.block_capability ∅ ∅)
              (Sim.start Sim.quiet ∅)))
  = Err (status_Error InvalidArgument "lun not provided").
Proof. vm_compute. reflexivity. Qed.

(** And with a device node that shows up late it first waits for it. *)
Example stage_of_block_volume_waits_for_device :
  let run := NodeStageVolume Sim.handle Sim.lib Sim.driver
               (Sim.stage_request Sim.block_capability {[ "LUN" := "3" ]} ∅)
               (Sim.start Sim.late_disk ∅) in
  fst (fst run) = Ok Build_NodeStageVolumeResponse
  /\ elapsed (snd run) = 5 * time_Second.
Proof. split; vm_compute; reflexivity. Qed.

(** Publish of a raw-block volume on a full disk: the file cannot be
    created, the target is removed, the creation error comes back. *)
Lemma block_target_creation_failure_witness :
  fst (fst (NodePublishVolume Sim.handle Sim.lib Sim.driver Sim.publish_block_request
              (Sim.start Sim.full_disk ∅)))
  = Err (status_Errorf Internal "%v"
           [ArgError
              (status_Errorf Internal "could not create file %q: %v"
                 [ArgString "/var/lib/kubelet/pods/p1/volumeDevices/vol-1";
                  ArgError (HostError "no space left on device")])]).
Proof.
  refine (proj1 (proj2 (proj2 (block_target_creation_failure Sim.handle Sim.lib)
            Sim.driver Sim.publish_block_request _ _ _ _ (run_eq _)
            (HostError "no space left on device") _)) _).
  - vm_compute. tauto.
  - vm_compute. tauto.
Defined.

(** C8 as stated fails: when the removal of the partial target fails as
    well, the removal error is surfaced and the creation error is lost. *)
Lemma block_target_removal_error_hides_creation_error :
  let target := "/var/lib/kubelet/pods/p1/volumeDevices/vol-1" in
  let run := NodePublishVolume Sim.handle Sim.lib Sim.driver Sim.publish_block_request
               (Sim.start Sim.full_readonly_disk ∅) in
  In (Ev_MakeFile target (Some (HostError "no space left on device"))) (snd run)
  /\ fst (fst run)
     = Err (status_Errorf Internal "%v"
              [ArgError
                 (status_Errorf Internal "could not remove mount target %q: %v"
                    [ArgString target; ArgError (HostError "read-only file system")])])
  /\ fst (fst (ensureBlockTargetFile Sim.handle Sim.lib target
                 (Sim.start Sim.full_readonly_disk ∅)))
     = Some (status_Errorf Internal "could not remove mount target %q: %v"
               [ArgString target; ArgError (HostError "read-only file system")]).
Proof.
  split; [vm_compute; tauto |]. split; vm_compute; reflexivity.
Qed.

(** C3 on a node where the staging path of vol-1 is a mount whose directory
    cannot be read.  ensureMountPoint unmounts the target and returns "not
    mounted" together with the error of os.ReadDir, and the Stage that called
    it stops with an Internal error: it neither formats nor mounts. *)
Theorem stage_fails_on_broken_mount_link :
  let request := Sim.stage_request (Sim.mount_capability "ext4" []) {[ "LUN" := "3" ]} ∅ in
  let broken := HostError "transport endpoint is not connected" in
  let reconciled := ensureMountPoint Sim.handle Sim.lib "/staging/vol-1"
                      (Sim.start Sim.stale_mount ∅) in
  let staged := NodeStageVolume Sim.handle Sim.lib Sim.driver request
                  (Sim.start Sim.stale_mount ∅) in
  fst (fst reconciled) = (false, Some broken)
  /\ fst (fst staged)
     = Err (status_Errorf Internal "could not mount target %q: %v"
              [ArgString "/staging/vol-1"; ArgError broken])
  /\ snd staged
     = [Ev_TryAcquire "vol-1" true; Ev_scsiHostRescan;
        Ev_findDiskByLun 3 ("/dev/sdc", None);
        Ev_IsLikelyNotMountPoint "/staging/vol-1" (false, None);
        Ev_List ([{| Path := "/staging/vol-1" |}], None);
        Ev_Abs "/staging/vol-1" ("/staging/vol-1", None);
        Ev_ReadDir "/staging/vol-1" (Some broken);
        Ev_Unmount "/staging/vol-1" None;
        Ev_Release "vol-1"; Ev_Observe "node_stage_volume" false "vol-1"].
Proof. repeat split; vm_compute; reflexivity. Qed.

(** Only a second Stage, on the node as the first one left it, mounts. *)
Example stage_again_after_broken_mount_link :
  let request := Sim.stage_request (Sim.mount_capability "ext4" []) {[ "LUN" := "3" ]} ∅ in
  let staged := NodeStageVolume Sim.handle Sim.lib Sim.driver request
                  (Sim.start Sim.stale_mount ∅) in
  let again := NodeStageVolume Sim.handle Sim.lib Sim.driver request (snd (fst staged)) in
  fst (fst again) = Ok Build_NodeStageVolumeResponse
  /\ In (Ev_formatAndMount "/dev/sdc" "/staging/vol-1" "ext4" [] None) (snd again).
Proof. split; vm_compute; tauto. Qed.

(** C4 on a request whose capability names no filesystem type and whose
    volume context says xfs: the volume is formatted and mounted as xfs with
    the mount flags of the caller alone, without "nouuid". *)
Theorem stage_xfs_from_volume_context_lacks_nouuid :
  let request := Sim.stage_request (Sim.mount_capability "" ["noatime"])
                   {[ "LUN" := "3" ]} {[ "fstype" := "xfs" ]} in
  let staged := NodeStageVolume Sim.handle Sim.lib Sim.driver request
                  (Sim.start Sim.quiet ∅) in
  fst (fst staged) = Ok Build_NodeStageVolumeResponse
  /\ snd staged
     = [Ev_TryAcquire "vol-1" true; Ev_scsiHostRescan;
        Ev_findDiskByLun 3 ("/dev/sdc", None);
        Ev_IsLikelyNotMountPoint "/staging/vol-1" (true, None);
        Ev_List ([], None);
        Ev_Abs "/staging/vol-1" ("/staging/vol-1", None);
        Ev_MakeDir "/staging/vol-1" None;
        Ev_formatAndMount "/dev/sdc" "/staging/vol-1" "xfs" ["noatime"] None;
        Ev_needResizeVolume "/dev/sdc" "/staging/vol-1" (false, None);
        Ev_Release "vol-1"; Ev_Observe "node_stage_volume" true "vol-1"]
  /\ existsb (String.eqb "nouuid") ["noatime"] = false.
Proof. repeat split; vm_compute; reflexivity. Qed.

(** With xfs named by the capability the option is there. *)
Example stage_xfs_from_capability_has_nouuid :
  let request := Sim.stage_request (Sim.mount_capability "xfs" ["noatime"])
                   {[ "LUN" := "3" ]} ∅ in
  let staged := NodeStageVolume Sim.handle Sim.lib Sim.driver request
                  (Sim.start Sim.quiet ∅) in
  In (Ev_formatAndMount "/dev/sdc" "/staging/vol-1" "xfs" ["noatime"; "nouuid"] None)
     (snd staged).
Proof. vm_compute. tauto. Qed.

(** A node of region eastus whose zone query answers eastus-1: the zone
    validates and is written under both topology keys. *)
Lemma node_info_topology_is_validated_witness :
  let run := NodeGetInfo Sim.handle Sim.lib Sim.driver
               (Sim.start (Sim.in_zone "eastus-1") ∅) in
  exists resp z,
    fst (fst run) = Ok resp
    /\ resolved_zone (snd run) = Some z
    /\ Segments (AccessibleTopology resp)
       = <[ "topology.kubernetes.io/zone" := z ]>
           (<[ "topology.disk.csi.azure.com/zone" := z ]>
              {[ "topology.disk.csi.azure.com/zone" := "" ]}).
Proof.
  intros run.
  destruct (fst (fst run)) as [resp | e] eqn:Hr; [| vm_compute in Hr; discriminate Hr].
  destruct (proj1 (proj2 (node_info_topology_is_validated Sim.handle Sim.lib Sim.driver
               _ _ _ _ (run_eq _) resp Hr)) eq_refl) as (z & Hz & Hvalid & _).
  exists resp, z. split; [reflexivity |]. split; [exact Hz |].
  apply Hvalid. vm_compute in Hz. inversion Hz. reflexivity.
Defined.

(** The same node answering westus-1: the zone is dropped. *)
Example node_info_drops_foreign_zone :
  let run := NodeGetInfo Sim.handle Sim.lib Sim.driver
               (Sim.start (Sim.in_zone "westus-1") ∅) in
  match fst (fst run) with
  | Ok resp =>
      map_to_list (Segments (AccessibleTopology resp))
      = [("topology.disk.csi.azure.com/zone", "")]
  | Err _ => False
  end.
Proof. vm_compute. reflexivity. Qed.

(** On a quiet node the staging path of vol-1 is not mounted: its directory
    is made. *)
Lemma mount_point_verdict_witness :
  In (Ev_MakeDir "/staging/vol-1" None)
     (snd (ensureMountPoint Sim.handle Sim.lib "/staging/vol-1" (Sim.start Sim.quiet ∅))).
Proof.
  refine (proj1 (proj2 (mount_point_verdict Sim.handle Sim.lib "/staging/vol-1"
                         (Sim.start Sim.quiet ∅) _ _ _ (run_eq _))) _).
  reflexivity.
Defined.

(** The stale mount of vol-1 is unmounted after its directory could not be
    read. *)
Lemma mount_point_is_touched_with_reason_witness :
  exists err,
    In (Ev_ReadDir "/staging/vol-1" (Some err))
       (snd (ensureMountPoint Sim.handle Sim.lib "/staging/vol-1"
               (Sim.start Sim.stale_mount ∅))).
Proof.
  refine (proj1 (proj2 (mount_point_is_touched_with_reason Sim.handle Sim.lib
                          "/staging/vol-1" (Sim.start Sim.stale_mount ∅) _ _ _ (run_eq _)))
            None _).
  vm_compute. tauto.
Defined.

(** The disk at slot 3 that shows up late is found by a poll. *)
Lemma device_path_contract_witness :
  "/dev/sdc" <> ""
  /\ exists lun,
       Sim.parse_lun "3" = (lun, None)
       /\ In (Ev_findDiskByLun lun ("/dev/sdc", None))
            (snd (getDevicePathWithLUN Sim.handle Sim.lib "3" (Sim.start Sim.late_disk ∅))).
Proof.
  refine (proj1 (device_path_contract Sim.handle Sim.lib "3" (Sim.start Sim.late_disk ∅)
                   _ _ _ (run_eq _)) "/dev/sdc" _).
  reflexivity.
Defined.

(** On a full disk the target file of vol-1 cannot be made. *)
Lemma block_target_file_steps_witness :
  let target := "/var/lib/kubelet/pods/p1/volumeDevices/vol-1" in
  let run := ensureBlockTargetFile Sim.handle Sim.lib target (Sim.start Sim.full_disk ∅) in
  exists err, fst (fst run) = Some err /\ code_of err = Some Internal.
Proof.
  intros target run.
  destruct (block_target_file_steps Sim.handle Sim.lib target _ _ _ _ (run_eq run))
    as (s1 & mnt & [err |] & tm & _ & Hsteps).
  - destruct Hsteps as [_ Hr]. eexists. split; [exact Hr | reflexivity].
  - destruct Hsteps as ([err |] & Hsteps).
    + destruct Hsteps as ([removeErr |] & _ & Hr); eexists; (split; [exact Hr | reflexivity]).
    + destruct Hsteps as [_ Hr]. vm_compute in Hr. discriminate Hr.
Defined.


Example publish_read_only :
  snd (NodePublishVolume Sim.handle Sim.lib Sim.driver
         (Sim.publish_mount_request true) (Sim.start Sim.quiet ∅))
  = [Ev_preparePublishPath "/var/lib/kubelet/pods/p1/volumes/vol-1" None;
     Ev_IsLikelyNotMountPoint "/var/lib/kubelet/pods/p1/volumes/vol-1" (true, None);
     Ev_List ([], None);
     Ev_Abs "/var/lib/kubelet/pods/p1/volumes/vol-1"
       ("/var/lib/kubelet/pods/p1/volumes/vol-1", None);
     Ev_MakeDir "/var/lib/kubelet/pods/p1/volumes/vol-1" None;
     Ev_Mount "/staging/vol-1" "/var/lib/kubelet/pods/p1/volumes/vol-1" "" ["bind"; "ro"]
       None].
Proof. vm_compute. reflexivity. Qed.

(** Publish of vol-1 while another operation holds its lock goes ahead. *)
Lemma publish_and_unpublish_take_no_lock_witness :
  let s := Sim.start Sim.quiet {[ "vol-1" ]} in
  let run := NodePublishVolume Sim.handle Sim.lib Sim.driver
               (Sim.publish_mount_request false) s in
  volumeLocks (snd (fst run)) = volumeLocks s
  /\ isOperationSucceeded (snd (fst run)) = isOperationSucceeded s
  /\ Forall (fun e => is_host_call e = true) (snd run).
Proof.
  exact (proj1 (publish_and_unpublish_take_no_lock Sim.handle Sim.lib)
           Sim.driver _ _ _ _ _ (run_eq _)).
Defined.

(** Publish of vol-1 onto a target that is mounted already. *)
Lemma publish_of_mounted_target_witness :
  fst (fst (NodePublishVolume Sim.handle Sim.lib Sim.driver
              (Sim.publish_mount_request false) (Sim.start Sim.published ∅)))
  = Ok Build_NodePublishVolumeResponse.
Proof.
  refine (proj1 (publish_of_mounted_target Sim.handle Sim.lib Sim.driver
                   (Sim.publish_mount_request false) (Sim.mount_capability "ext4" [])
                   (Some {| FsType := "ext4"; MountFlags := [] |}) _ _ _ _ _ _
                   (run_eq _) _)).
  - reflexivity.
  - reflexivity.
  - vm_compute. tauto.
Defined.

(** Unpublish of vol-1 on Linux: one cleanup, with the extensive check. *)
Lemma unpublish_steps_witness :
  let run := NodeUnpublishVolume Sim.handle Sim.lib Sim.driver Sim.unpublish_request
               (Sim.start Sim.published ∅) in
  snd run = [Ev_CleanupMountPoint "/var/lib/kubelet/pods/p1/volumes/vol-1" true None]
  /\ fst (fst run) = Ok Build_NodeUnpublishVolumeResponse.
Proof.
  intros run.
  destruct (unpublish_steps Sim.handle Sim.lib Sim.driver _ _ _ _ _ (run_eq run))
    as [(_ & _ & [Hc | Hc] & _) | (_ & _ & answer & Ha & Ht & Hr)];
    [discriminate Hc | discriminate Hc |].
  subst answer. split; [exact Ht | exact Hr].
Defined.

(** Expand of the block device of vol-1 while its lock is held: success. *)
Lemma expand_steps_witness :
  fst (fst (NodeExpandVolume Sim.handle Sim.lib Sim.driver (Sim.expand_request GiB)
              (Sim.start Sim.block_volume {[ "vol-1" ]})))
  = Ok {| CapacityBytes := 0 |}.
Proof.
  destruct (proj2 (expand_steps Sim.handle Sim.lib Sim.driver _ _ _ _ _
                     (run_eq (NodeExpandVolume Sim.handle Sim.lib Sim.driver
                                (Sim.expand_request GiB)
                                (Sim.start Sim.block_volume {[ "vol-1" ]})))))
    as [(Ht & _) | [(b & e & _ & _ & _ & Ht & _)
    | [(b & _ & _ & _ & _ & Hr & _)
    | [(_ & _ & _ & _ & _ & _ & Ht) | (_ & _ & _ & _ & _ & tb & succeeded & Ht & _)]]]].
  - vm_compute in Ht. discriminate Ht.
  - vm_compute in Ht. discriminate Ht.
  - exact Hr.
  - vm_compute in Ht. discriminate Ht.
  - vm_compute in Ht. discriminate Ht.
Defined.
